(** * Eclipse "New Java Project" extension: descriptor builders, folder
      provisioning and workspace-root resolution.

    A shallow embedding of [src/extension.ts].  The extension is a thin
    client of libraries, which are modelled in modules of their own:

    - [Js]         JavaScript strings as sequences of UTF-16 code units;
    - [XmlBuilder] the part of xmlbuilder 10.x the extension calls
                   (stringifier, node tree, builder handles, pretty writer);
    - [Path]       [path.basename] (POSIX flavour);
    - [Utf8]       the UTF-8 bytes as which Node hands strings to the system;
    - [Disk]       [fs.existsSync], [fs.mkdirSync], [fs.writeFileSync] over an
                   in-memory directory tree with POSIX path resolution, on
                   a file system that may refuse to make an entry.

    The extension's own functions follow, under the names they have in the
    source; [XmlReader] is the reader with which the descriptors are read
    back.  The proofs come after all definitions. *)

From Stdlib Require Import List NArith String Ascii Bool Arith Lia Permutation.
Import ListNotations.

Set Implicit Arguments.
Set Warnings "-register-all".

(* ===================================================================== *)
(** ** JavaScript strings *)
(* ===================================================================== *)

Module Js.

(** A JavaScript string is a finite sequence of 16-bit code units. *)
Abbreviation code_unit := N (only parsing).
Abbreviation jsstring := (list N) (only parsing).

(** String literals of the source, written with Rocq's ASCII strings. *)
Definition lit (s : string) : jsstring :=
  map N_of_ascii (list_ascii_of_string s).

Definition dquote : code_unit := 34%N.
Definition squote : code_unit := 39%N.
Definition slash  : code_unit := 47%N.
Definition newline_char : code_unit := 10%N.

(** Literals that contain double quotes are written with apostrophes in
    their place; [litq] puts the double quotes back. *)
Definition litq (s : string) : jsstring :=
  map (fun c => if N.eqb c squote then dquote else c) (lit s).

Fixpoint eqb (a b : jsstring) : bool :=
  match a, b with
  | [], [] => true
  | x :: a', y :: b' => N.eqb x y && eqb a' b'
  | _, _ => false
  end.

(** The lines of a text, joined by line feeds. *)
Fixpoint unlines (ls : list jsstring) : jsstring :=
  match ls with
  | [] => []
  | [l] => l
  | l :: rest => l ++ newline_char :: unlines rest
  end.

(** [s.replace(/c/g, by)] for a one-character pattern [c]. *)
Definition replace_char (c : code_unit) (by_ : jsstring) (s : jsstring) : jsstring :=
  flat_map (fun x => if N.eqb x c then by_ else [x]) s.

(** Truthiness of a string value: only the empty string is falsy. *)
Definition truthy (s : jsstring) : bool :=
  match s with [] => false | _ :: _ => true end.

End Js.

Import Js.

(* ===================================================================== *)
(** ** Calls that return or throw *)
(* ===================================================================== *)

Module Outcome.

Inductive result (E A : Type) : Type :=
| Ok (a : A)
| Throw (e : E).
Arguments Ok {E A} a.
Arguments Throw {E A} e.

Definition bind {E A B} (r : result E A) (k : A -> result E B) : result E B :=
  match r with
  | Ok a => k a
  | Throw e => Throw e
  end.

Definition is_ok {E A} (r : result E A) : bool :=
  match r with Ok _ => true | Throw _ => false end.

End Outcome.

Import Outcome.

(* ===================================================================== *)
(** ** xmlbuilder *)
(* ===================================================================== *)

(** The calls the extension makes on xmlbuilder, as version 10.1.1 (the
    one [package.json] asks for) answers them: element names and element
    text pass through [assertLegalChar], attribute values are escaped but
    not checked, and the writer is the string writer with [pretty] set. *)
Module XmlBuilder.

(** The errors of the library: [InvalidCharacter] is
    [Error("Invalid character in string: " + str + ...)], the only one the
    extension's calls can meet; [RootNode] refuses an object that does not
    have exactly one top-level key as a document; [DetachedNode] stands for
    a call on a reference that leads to no node, which the calls of the
    extension never make. *)
Inductive error : Type :=
| InvalidCharacter (str : jsstring)
| RootNode
| DetachedNode.

Definition result := Outcome.result error.

(** *** XMLStringifier (default functions, no [noDoubleEncoding]) *)

Definition is_high_surrogate (c : code_unit) : bool :=
  (N.leb 0xD800 c && N.leb c 0xDBFF)%N.
Definition is_low_surrogate (c : code_unit) : bool :=
  (N.leb 0xDC00 c && N.leb c 0xDFFF)%N.

(** The lookahead [(?![\uDC00-\uDFFF])] and the context
    [(?:[^\uD800-\uDBFF]|^)] of the pattern below. *)
Definition low_next (s : jsstring) : bool :=
  match s with l :: _ => is_low_surrogate l | [] => false end.
Definition high_before (prev : option code_unit) : bool :=
  match prev with Some p => is_high_surrogate p | None => false end.

(** Does
    [/[\0\uFFFE\uFFFF]|[\uD800-\uDBFF](?![\uDC00-\uDFFF])|(?:[^\uD800-\uDBFF]|^)[\uDC00-\uDFFF]/]
    match somewhere in [s]?  [prev] is the code unit before [s], if any. *)
Fixpoint illegal_match (prev : option code_unit) (s : jsstring) : bool :=
  match s with
  | [] => false
  | c :: t =>
      (N.eqb c 0 || N.eqb c 0xFFFE || N.eqb c 0xFFFF)%N
      || (is_high_surrogate c && negb (low_next t))
      || (is_low_surrogate c && negb (high_before prev))
      || illegal_match (Some c) t
  end.

Definition assertLegalChar (str : jsstring) : result jsstring :=
  if illegal_match None str then Throw (InvalidCharacter str) else Ok str.

(** [str.replace(/&/g,'&amp;').replace(/</g,'&lt;').replace(/>/g,'&gt;')
        .replace(/\r/g,'&#xD;')] *)
Definition elEscape (str : jsstring) : jsstring :=
  replace_char 13%N (lit "&#xD;")
    (replace_char 62%N (lit "&gt;")
      (replace_char 60%N (lit "&lt;")
        (replace_char 38%N (lit "&amp;") str))).

(** The same chain for attribute values: ampersand, less-than, the double
    quote ([&quot;]), tab ([&#x9;]), line feed ([&#xA;]) and carriage
    return ([&#xD;]), in this order. *)
Definition attEscape (str : jsstring) : jsstring :=
  replace_char 13%N (lit "&#xD;")
    (replace_char 10%N (lit "&#xA;")
      (replace_char 9%N (lit "&#x9;")
        (replace_char dquote (lit "&quot;")
          (replace_char 60%N (lit "&lt;")
            (replace_char 38%N (lit "&amp;") str))))).

Definition eleName (val : jsstring) : result jsstring := assertLegalChar val.
Definition eleText (val : jsstring) : result jsstring := assertLegalChar (elEscape val).
Definition attName (val : jsstring) : jsstring := val.
Definition attValue (val : jsstring) : jsstring := attEscape val.

(** *** The node tree *)

Inductive node : Type :=
| XMLElement (name : jsstring) (attributes : list (jsstring * jsstring))
             (children : list node)
| XMLText (value : jsstring).

Record XMLDeclaration : Type := {
  version : jsstring;
  encoding : option jsstring;
  standalone : option jsstring
}.

Record XMLDocument : Type := {
  declaration : XMLDeclaration;
  root : node
}.

(** [create]'s options object; the extension only sets [encoding]. *)
Record options : Type := { opt_encoding : option jsstring }.

Definition make_declaration (o : options) : XMLDeclaration :=
  {| version := lit "1.0"; encoding := opt_encoding o; standalone := None |}.

(** *** Building from a JavaScript object: [create(obj, options)] *)

(** The object literals the extension passes: string leaves and nested
    objects, fields in insertion order. *)
Inductive jsval : Type :=
| JStr (s : jsstring)
| JObj (fields : list (jsstring * jsval)).

(** [parent.element(obj)] for keys that carry no decorator ([@], [#text],
    ...): an empty object gives an empty element, an object gives an
    element holding its fields' elements, a string gives an element with
    one text child. *)
Fixpoint element_of (key : jsstring) (val : jsval) : result node :=
  match val with
  | JStr s =>
      bind (eleName key) (fun name =>
      bind (eleText s) (fun text =>
      Ok (XMLElement name [] [XMLText text])))
  | JObj fields =>
      bind (eleName key) (fun name =>
      bind ((fix elements (fs : list (jsstring * jsval)) : result (list node) :=
               match fs with
               | [] => Ok []
               | (k, v) :: rest =>
                   bind (element_of k v) (fun child =>
                   bind (elements rest) (fun others =>
                   Ok (child :: others)))
               end) fields) (fun children =>
      Ok (XMLElement name [] children)))
  end.

(** [create(obj, options)]: the single top-level key of [obj] names the
    root element. *)
Definition create_object (obj : jsval) (o : options) : result XMLDocument :=
  match obj with
  | JObj [(key, val)] =>
      bind (element_of key val) (fun r =>
      Ok {| declaration := make_declaration o; root := r |})
  | _ => Throw RootNode
  end.

(** *** Building by calls: [create(name, options)], [ele], [att] *)

(** A builder call returns a reference to a node of the tree under
    construction.  Nodes are only ever appended, so a reference is the
    list of child positions leading from the root to the node. *)
Definition handle := list nat.

Definition builder (A : Type) : Type := XMLDocument -> result (A * XMLDocument).

Definition ret {A} (a : A) : builder A := fun d => Ok (a, d).
Definition bindB {A B} (m : builder A) (k : A -> builder B) : builder B :=
  fun d => match m d with
           | Ok (a, d') => k a d'
           | Throw e => Throw e
           end.
Definition lift {A} (r : result A) : builder A :=
  fun d => match r with Ok a => Ok (a, d) | Throw e => Throw e end.

Fixpoint update_nth {A B} (i : nat) (f : A -> result (B * A)) (l : list A)
  : result (B * list A) :=
  match l, i with
  | [], _ => Throw DetachedNode
  | x :: rest, O =>
      match f x with
      | Ok (b, x') => Ok (b, x' :: rest)
      | Throw e => Throw e
      end
  | x :: rest, S j =>
      match update_nth j f rest with
      | Ok (b, rest') => Ok (b, x :: rest')
      | Throw e => Throw e
      end
  end.

(** Apply [f] to the node a handle refers to. *)
Fixpoint at_handle {B} (h : handle) (f : node -> result (B * node)) (n : node)
  : result (B * node) :=
  match h with
  | [] => f n
  | i :: h' =>
      match n with
      | XMLElement name atts children =>
          match update_nth i (at_handle h' f) children with
          | Ok (b, children') => Ok (b, XMLElement name atts children')
          | Throw e => Throw e
          end
      | XMLText _ => Throw DetachedNode
      end
  end.

Definition on_root {B} (h : handle) (f : node -> result (B * node)) : builder B :=
  fun d => match at_handle h f (root d) with
           | Ok (b, r) => Ok (b, {| declaration := declaration d; root := r |})
           | Throw e => Throw e
           end.

(** [create(name, options)]: a document whose root element is [name]. *)
Definition create (name : jsstring) (o : options) : result (handle * XMLDocument) :=
  bind (eleName name) (fun n =>
  Ok ([], {| declaration := make_declaration o; root := XMLElement n [] [] |})).

(** [parent.ele(name)]: append an empty element, return a reference to it. *)
Definition ele (parent : handle) (name : jsstring) : builder handle :=
  bindB (lift (eleName name)) (fun n =>
  on_root parent (fun p =>
    match p with
    | XMLElement pname atts children =>
        Ok (parent ++ [List.length children],
            XMLElement pname atts (children ++ [XMLElement n [] []]))
    | XMLText _ => Throw DetachedNode
    end)).

(** [attributes[name] = value] on a JavaScript object: an existing key keeps
    its position, a new key goes last. *)
Fixpoint set_attribute (name value : jsstring) (atts : list (jsstring * jsstring))
  : list (jsstring * jsstring) :=
  match atts with
  | [] => [(name, value)]
  | (k, v) :: rest =>
      if Js.eqb k name then (k, value) :: rest
      else (k, v) :: set_attribute name value rest
  end.

(** [element.att(name, value)] *)
Definition att (element : handle) (name value : jsstring) : builder unit :=
  on_root element (fun e =>
    match e with
    | XMLElement ename atts children =>
        Ok (tt, XMLElement ename (set_attribute (attName name) (attValue value) atts)
                           children)
    | XMLText _ => Throw DetachedNode
    end).

(** *** XMLStringWriter with [{pretty: true}]: indent of two spaces,
    newline LF, no [allowEmpty], no [dontPrettyTextNodes]. *)

Definition indent_unit : jsstring := lit "  ".
Definition newline : jsstring := [newline_char].

Fixpoint space (level : nat) : jsstring :=
  match level with
  | O => []
  | S l => indent_unit ++ space l
  end.

Definition write_attribute (a : jsstring * jsstring) : jsstring :=
  lit " " ++ fst a ++ lit "=" ++ [dquote] ++ snd a ++ [dquote].

(** [e.value == ''] *)
Definition is_empty_text (n : node) : bool :=
  match n with
  | XMLText [] => true
  | _ => false
  end.

Fixpoint write_element (level : nat) (n : node) : jsstring :=
  match n with
  | XMLText value => space level ++ value ++ newline
  | XMLElement name atts children =>
      let open := space level ++ lit "<" ++ name ++ flat_map write_attribute atts in
      if forallb is_empty_text children then
        open ++ lit "/>" ++ newline
      else
        match children with
        | [XMLText value] =>
            open ++ lit ">" ++ value ++ lit "</" ++ name ++ lit ">" ++ newline
        | _ =>
            open ++ lit ">" ++ newline
              ++ flat_map (write_element (S level)) children
              ++ space level ++ lit "</" ++ name ++ lit ">" ++ newline
        end
  end.

Definition write_declaration (d : XMLDeclaration) : jsstring :=
  lit "<?xml version=" ++ [dquote] ++ version d ++ [dquote]
    ++ match encoding d with
       | Some e => lit " encoding=" ++ [dquote] ++ e ++ [dquote]
       | None => []
       end
    ++ match standalone d with
       | Some s => lit " standalone=" ++ [dquote] ++ s ++ [dquote]
       | None => []
       end
    ++ lit "?>" ++ newline.

(** [r.slice(0, -newline.length)] when [r] ends with the newline. *)
Definition strip_trailing_newline (r : jsstring) : jsstring :=
  match rev r with
  | c :: front => if N.eqb c newline_char then rev front else r
  | [] => r
  end.

Definition write_document (d : XMLDocument) : jsstring :=
  strip_trailing_newline (write_declaration (declaration d) ++ write_element 0 (root d)).

(** [doc.end({pretty: true})] *)
Definition end_pretty (d : XMLDocument) : jsstring := write_document d.

(** [node.end({pretty: true})], from any node of the document. *)
Definition end_ (_ : handle) : builder jsstring :=
  fun d => Ok (end_pretty d, d).

(** Run a sequence of builder calls on a created document, keep the value. *)
Definition eval {A} (m : builder A) (d : XMLDocument) : result A :=
  match m d with
  | Ok (a, _) => Ok a
  | Throw e => Throw e
  end.

End XmlBuilder.

Import XmlBuilder.

Declare Scope builder_scope.
Delimit Scope builder_scope with builder.
Notation "x <- m ;; k" := (bindB m (fun x => k))
  (at level 61, m at next level, right associativity) : builder_scope.
Notation "m ;;; k" := (bindB m (fun _ => k))
  (at level 61, right associativity) : builder_scope.

(* ===================================================================== *)
(** ** The descriptor builders of [extension.ts] *)
(* ===================================================================== *)

Definition utf8 : options := {| opt_encoding := Some (lit "UTF-8") |}.

(** The object literal [projectObj]. *)
Definition projectObj (projectName : jsstring) : jsval :=
  JObj [ (lit "projectDescription",
    JObj [ (lit "name", JStr projectName);
           (lit "comment", JStr []);
           (lit "projects", JObj []);
           (lit "buildSpec",
             JObj [ (lit "buildCommand",
                      JObj [ (lit "name", JStr (lit "org.eclipse.jdt.core.javabuilder"));
                             (lit "arguments", JObj []) ]) ]);
           (lit "natures",
             JObj [ (lit "nature", JStr (lit "org.eclipse.jdt.core.javanature")) ]) ]) ].

Definition createProjectFile (projectName : jsstring) : result jsstring :=
  bind (create_object (projectObj projectName) utf8) (fun xml =>
  Ok (end_pretty xml)).

Definition jre_container : jsstring :=
  lit "org.eclipse.jdt.launching.JRE_CONTAINER/org.eclipse.jdt.internal.debug.ui.launcher.StandardVMType/".

Definition createClassPathFile (javaVersion : jsstring) : result jsstring :=
  bind (create (lit "classpath") utf8) (fun '(xml, doc) =>
  eval (item <- ele xml (lit "classpathentry") ;;
        att item (lit "kind") (lit "con") ;;;
        att item (lit "path") (jre_container ++ javaVersion) ;;;
        attributes <- ele item (lit "attributes") ;;
        nestedItem <- ele attributes (lit "attribute") ;;
        att nestedItem (lit "name") (lit "module") ;;;
        att nestedItem (lit "value") (lit "true") ;;;

        item <- ele xml (lit "classpathentry") ;;
        att item (lit "kind") (lit "src") ;;;
        att item (lit "path") (lit "src") ;;;

        item <- ele xml (lit "classpathentry") ;;
        att item (lit "kind") (lit "output") ;;;
        att item (lit "path") (lit "bin") ;;;

        end_ xml)%builder doc).

Definition expected_project (name : jsstring) : jsstring :=
  unlines [
    litq "<?xml version='1.0' encoding='UTF-8'?>";
    lit  "<projectDescription>";
    lit  "  <name>" ++ name ++ lit "</name>";
    lit  "  <comment/>";
    lit  "  <projects/>";
    lit  "  <buildSpec>";
    lit  "    <buildCommand>";
    lit  "      <name>org.eclipse.jdt.core.javabuilder</name>";
    lit  "      <arguments/>";
    lit  "    </buildCommand>";
    lit  "  </buildSpec>";
    lit  "  <natures>";
    lit  "    <nature>org.eclipse.jdt.core.javanature</nature>";
    lit  "  </natures>";
    lit  "</projectDescription>" ].

Definition expected_classpath (version : jsstring) : jsstring :=
  unlines [
    litq "<?xml version='1.0' encoding='UTF-8'?>";
    lit  "<classpath>";
    litq "  <classpathentry kind='con' path='org.eclipse.jdt.launching.JRE_CONTAINER/org.eclipse.jdt.internal.debug.ui.launcher.StandardVMType/"
      ++ version ++ litq "'>";
    lit  "    <attributes>";
    litq "      <attribute name='module' value='true'/>";
    lit  "    </attributes>";
    lit  "  </classpathentry>";
    litq "  <classpathentry kind='src' path='src'/>";
    litq "  <classpathentry kind='output' path='bin'/>";
    lit  "</classpath>" ].

(* ===================================================================== *)
(** ** path (POSIX) *)
(* ===================================================================== *)

Module Path.

Fixpoint drop_slashes (s : jsstring) : jsstring :=
  match s with
  | c :: t => if N.eqb c slash then drop_slashes t else s
  | [] => []
  end.

Fixpoint take_segment (s : jsstring) : jsstring :=
  match s with
  | c :: t => if N.eqb c slash then [] else c :: take_segment t
  | [] => []
  end.

(** [path.basename(p)]: scanning from the end, skip the separators that
    close the path, then keep the code units up to the next separator. *)
Definition basename (p : jsstring) : jsstring :=
  rev (take_segment (drop_slashes (rev p))).

End Path.

(* ===================================================================== *)
(** ** Strings that leave JavaScript *)
(* ===================================================================== *)

(** Node hands a string to the system as UTF-8: the path of every [fs]
    call, and the data of [fs.writeFileSync].  A surrogate pair becomes the
    four bytes of its code point; a surrogate without its partner becomes
    the three bytes of U+FFFD. *)
Module Utf8.

Abbreviation bytes := (list N) (only parsing).

Definition is_ascii (c : N) : bool := N.ltb c 0x80.

Definition is_high (c : code_unit) : bool := (N.leb 0xD800 c && N.leb c 0xDBFF)%N.
Definition is_low (c : code_unit) : bool := (N.leb 0xDC00 c && N.leb c 0xDFFF)%N.

(** Bytes that are not ASCII. *)
Definition noise (bs : bytes) : bool := forallb (fun b => negb (is_ascii b)) bs.

(** U+FFFD *)
Definition replacement : bytes := [0xEF; 0xBF; 0xBD]%N.

Definition code_point (high low : code_unit) : N :=
  (0x10000 + (high - 0xD800) * 0x400 + (low - 0xDC00))%N.

Definition bytes_of (cp : N) : bytes :=
  (if N.ltb cp 0x80 then [cp]
   else if N.ltb cp 0x800 then [0xC0 + cp / 0x40; 0x80 + cp mod 0x40]
   else if N.ltb cp 0x10000 then
     [0xE0 + cp / 0x1000; 0x80 + (cp / 0x40) mod 0x40; 0x80 + cp mod 0x40]
   else
     [0xF0 + cp / 0x40000; 0x80 + (cp / 0x1000) mod 0x40;
      0x80 + (cp / 0x40) mod 0x40; 0x80 + cp mod 0x40])%N.

(** [Buffer.from(s, 'utf8')] *)
Fixpoint encode (s : jsstring) : bytes :=
  match s with
  | [] => []
  | c :: t =>
      if is_high c then
        match t with
        | l :: t' =>
            if is_low l then bytes_of (code_point c l) ++ encode t'
            else replacement ++ encode t
        | [] => replacement
        end
      else if is_low c then replacement ++ encode t
      else bytes_of c ++ encode t
  end.

(** Strings that UTF-8 can carry: code units of 16 bits, every surrogate
    in a pair. *)
Fixpoint well_formed (s : jsstring) : bool :=
  match s with
  | [] => true
  | c :: t =>
      if is_high c then
        match t with
        | l :: t' => is_low l && well_formed t'
        | [] => false
        end
      else negb (is_low c) && N.ltb c 0x10000 && well_formed t
  end.

(** The code units of a code point. *)
Definition units_of (cp : N) : jsstring :=
  (if N.ltb cp 0x10000 then [cp]
   else [0xD800 + (cp - 0x10000) / 0x400; 0xDC00 + (cp - 0x10000) mod 0x400])%N.

Definition is_continuation (b : N) : bool := (N.leb 0x80 b && N.leb b 0xBF)%N.

(** The string whose UTF-8 form the bytes are, if there is one (as
    [TextDecoder] with [fatal] set reads them): no byte out of place, no
    form longer than needed, no surrogate, nothing above U+10FFFF. *)
Fixpoint decode (bs : bytes) : option jsstring :=
  match bs with
  | [] => Some []
  | b0 :: r0 =>
      if N.ltb b0 0x80 then option_map (cons b0) (decode r0)
      else
        match r0 with
        | [] => None
        | b1 :: r1 =>
            if negb (is_continuation b1) then None
            else if (N.leb 0xC0 b0 && N.ltb b0 0xE0)%N then
              let cp := ((b0 - 0xC0) * 0x40 + (b1 - 0x80))%N in
              if N.leb 0x80 cp then option_map (app (units_of cp)) (decode r1)
              else None
            else
              match r1 with
              | [] => None
              | b2 :: r2 =>
                  if negb (is_continuation b2) then None
                  else if (N.leb 0xE0 b0 && N.ltb b0 0xF0)%N then
                    let cp := ((b0 - 0xE0) * 0x1000 + (b1 - 0x80) * 0x40
                               + (b2 - 0x80))%N in
                    if (N.leb 0x800 cp && negb (N.leb 0xD800 cp && N.leb cp 0xDFFF))%N
                    then option_map (app (units_of cp)) (decode r2)
                    else None
                  else
                    match r2 with
                    | [] => None
                    | b3 :: r3 =>
                        if negb (is_continuation b3) then None
                        else if (N.leb 0xF0 b0 && N.ltb b0 0xF8)%N then
                          let cp := ((b0 - 0xF0) * 0x40000 + (b1 - 0x80) * 0x1000
                                     + (b2 - 0x80) * 0x40 + (b3 - 0x80))%N in
                          if (N.leb 0x10000 cp && N.leb cp 0x10FFFF)%N
                          then option_map (app (units_of cp)) (decode r3)
                          else None
                        else None
                    end
              end
        end
  end.
End Utf8.

(* ===================================================================== *)
(** ** fs, over an in-memory directory tree *)
(* ===================================================================== *)

Module Disk.

Abbreviation bytes := (list N) (only parsing).

(** Files hold bytes, directories hold entries named by byte strings.
    Links are not part of the model. *)
Inductive inode : Type :=
| File (data : bytes)
| Dir (entries : list (bytes * inode)).

Inductive kind : Type := KFile | KDir.

Inductive errno : Type :=
| ENOENT | EEXIST | ENOTDIR | EISDIR | ERR_INVALID_ARG_VALUE
| EACCES | EPERM | EROFS | ENOSPC | EDQUOT | ENAMETOOLONG | EMLINK | EIO.

Definition result := Outcome.result errno.

(** The disk: the tree under [/]; the working directory, as the list of
    names leading to it from [/]; and what the file system decides by
    itself.  [refuses place] is the error, if any, with which it refuses to
    make or to write the entry at [place]: no permission, a volume that is
    read-only or full, a quota, a name or a path that is too long.
    [rank dir name] orders the names a directory lists: the order of a
    listing is the directory's own. *)
Record state : Type := {
  tree : inode;
  cwd : list bytes;
  refuses : list bytes -> option errno;
  rank : list bytes -> bytes -> N
}.

(** The disk with another tree. *)
Definition with_tree (t : inode) (st : state) : state :=
  {| tree := t; cwd := cwd st; refuses := refuses st; rank := rank st |}.

Fixpoint find_entry (name : bytes) (es : list (bytes * inode)) : option inode :=
  match es with
  | [] => None
  | (k, v) :: rest => if Js.eqb k name then Some v else find_entry name rest
  end.

Fixpoint lookup (t : inode) (p : list bytes) : option inode :=
  match p with
  | [] => Some t
  | n :: p' =>
      match t with
      | Dir es =>
          match find_entry n es with
          | Some c => lookup c p'
          | None => None
          end
      | File _ => None
      end
  end.

Definition kind_of (n : inode) : kind :=
  match n with File _ => KFile | Dir _ => KDir end.

Definition kind_at (t : inode) (p : list bytes) : option kind :=
  option_map kind_of (lookup t p).

Fixpoint set_entry (name : bytes) (n : inode) (es : list (bytes * inode))
  : list (bytes * inode) :=
  match es with
  | [] => [(name, n)]
  | (k, v) :: rest =>
      if Js.eqb k name then (k, n) :: rest else (k, v) :: set_entry name n rest
  end.

Fixpoint map_entry (name : bytes) (f : inode -> inode) (es : list (bytes * inode))
  : list (bytes * inode) :=
  match es with
  | [] => []
  | (k, v) :: rest =>
      if Js.eqb k name then (k, f v) :: rest else (k, v) :: map_entry name f rest
  end.

(** Bind [name] to [n] in the directory found at [d]. *)
Fixpoint put (d : list bytes) (name : bytes) (n : inode) (t : inode) : inode :=
  match t with
  | File _ => t
  | Dir es =>
      match d with
      | [] => Dir (set_entry name n es)
      | x :: d' => Dir (map_entry x (put d' name n) es)
      end
  end.

(** *** Path resolution, on the bytes of a path *)

(** The components of a path: what stands between its slashes. *)
Fixpoint split (p : bytes) : list bytes :=
  match p with
  | [] => [[]]
  | c :: t =>
      if N.eqb c slash then [] :: split t
      else match split t with
           | seg :: rest => (c :: seg) :: rest
           | [] => [[c]]
           end
  end.

Definition dot : bytes := lit ".".
Definition dotdot : bytes := lit "..".

(** Components that name no entry of their own. *)
Definition is_special (c : bytes) : bool :=
  Js.eqb c [] || Js.eqb c dot || Js.eqb c dotdot.

(** Follow [comps] from the directory [cur]; every component has to lead
    to a directory. *)
Fixpoint walk (t : inode) (cur : list bytes) (comps : list bytes)
  : result (list bytes) :=
  match comps with
  | [] => Ok cur
  | c :: rest =>
      if Js.eqb c [] || Js.eqb c dot then walk t cur rest
      else if Js.eqb c dotdot then walk t (removelast cur) rest
      else match kind_at t (cur ++ [c]) with
           | Some KDir => walk t (cur ++ [c]) rest
           | Some KFile => Throw ENOTDIR
           | None => Throw ENOENT
           end
  end.

Definition start (st : state) (path : bytes) : list bytes :=
  match path with
  | c :: _ => if N.eqb c slash then [] else cwd st
  | [] => cwd st
  end.

(** Node refuses a path with a NUL; the system refuses the empty path. *)
Definition check_path (path : bytes) : result unit :=
  if existsb (N.eqb 0) path then Throw ERR_INVALID_ARG_VALUE
  else match path with
       | [] => Throw ENOENT
       | _ :: _ => Ok tt
       end.

(** Drop the empty components that trailing slashes leave. *)
Fixpoint strip_trailing (comps : list bytes) : list bytes :=
  match comps with
  | [] => []
  | c :: rest =>
      match strip_trailing rest with
      | [] => match c with [] => [] | _ :: _ => [c] end
      | rest' => c :: rest'
      end
  end.

(** The directory that holds the last component of a path, and that
    component. *)
Definition parent_of (st : state) (comps : list bytes) (path : bytes)
  : result (list bytes * bytes) :=
  bind (walk (tree st) (start st path) (removelast comps)) (fun d =>
  match kind_at (tree st) d with
  | Some KDir => Ok (d, last comps [])
  | Some KFile => Throw ENOTDIR
  | None => Throw ENOENT
  end).

(** The place a path names, as the list of names leading to it from [/];
    nothing says yet that something is there. *)
Definition resolve (st : state) (path : bytes) : result (list bytes) :=
  bind (check_path path) (fun _ =>
  bind (parent_of st (split path) path) (fun '(d, name) =>
  if is_special name then walk (tree st) d [name] else Ok (d ++ [name]))).

(** *** The calls of the system, on the bytes of a path *)

(** [stat], reduced to the kind of what is found. *)
Definition stat (st : state) (path : bytes) : result kind :=
  bind (resolve st path) (fun p =>
  match kind_at (tree st) p with
  | Some k => Ok k
  | None => Throw ENOENT
  end).

(** [mkdir]: one level, the parent has to exist, the name has to be free,
    and the file system has to agree. *)
Definition mkdir (st : state) (path : bytes) : result state :=
  bind (check_path path) (fun _ =>
  match strip_trailing (split path) with
  | [] => Throw EEXIST
  | comps =>
      bind (parent_of st comps path) (fun '(d, name) =>
      if is_special name then Throw EEXIST
      else match kind_at (tree st) (d ++ [name]) with
           | Some _ => Throw EEXIST
           | None =>
               match refuses st (d ++ [name]) with
               | Some e => Throw e
               | None => Ok (with_tree (put d name (Dir []) (tree st)) st)
               end
           end)
  end).

(** [open] for writing, with creation and truncation, [write] and
    [close]: create the file or replace its bytes, when the file system
    agrees. *)
Definition write_file (st : state) (path : bytes) (data : bytes) : result state :=
  bind (check_path path) (fun _ =>
  bind (parent_of st (split path) path) (fun '(d, name) =>
  if is_special name then Throw EISDIR
  else match kind_at (tree st) (d ++ [name]) with
       | Some KDir => Throw EISDIR
       | _ =>
           match refuses st (d ++ [name]) with
           | Some e => Throw e
           | None => Ok (with_tree (put d name (File data) (tree st)) st)
           end
       end)).

(** Where an existing path leads. *)
Definition locate (st : state) (path : bytes) : result (list bytes) :=
  bind (resolve st path) (fun p =>
  match kind_at (tree st) p with
  | Some _ => Ok p
  | None => Throw ENOENT
  end).

(** The names of a listing, in the order of their ranks. *)
Fixpoint insert_by (r : bytes -> N) (x : bytes) (l : list bytes) : list bytes :=
  match l with
  | [] => [x]
  | y :: l' => if N.leb (r x) (r y) then x :: l else y :: insert_by r x l'
  end.

Definition sort_by (r : bytes -> N) (l : list bytes) : list bytes :=
  fold_right (insert_by r) [] l.

(** The names in a directory, in the directory's order. *)
Definition read_dir (st : state) (path : bytes) : result (list bytes) :=
  bind (locate st path) (fun p =>
  match lookup (tree st) p with
  | Some (Dir es) => Ok (sort_by (rank st p) (map fst es))
  | Some (File _) => Throw ENOTDIR
  | None => Throw ENOENT
  end).

(** The bytes of a file. *)
Definition read_file (st : state) (path : bytes) : result bytes :=
  bind (locate st path) (fun p =>
  match lookup (tree st) p with
  | Some (File data) => Ok data
  | Some (Dir _) => Throw EISDIR
  | None => Throw ENOENT
  end).

(** *** The calls of Node, on strings *)

(** The place a path given as a string names. *)
Definition target (st : state) (path : jsstring) : result (list bytes) :=
  resolve st (Utf8.encode path).

(** [fs.statSync(path)], reduced to the kind of what is found. *)
Definition statSync (st : state) (path : jsstring) : result kind :=
  stat st (Utf8.encode path).

(** [fs.existsSync(path)]: true when [stat] succeeds, false on any error. *)
Definition existsSync (st : state) (path : jsstring) : bool :=
  is_ok (statSync st path).

(** [fs.mkdirSync(path)] *)
Definition mkdirSync (st : state) (path : jsstring) : result state :=
  mkdir st (Utf8.encode path).

(** [fs.writeFileSync(path, data)], for a string [data]: the file holds
    the UTF-8 bytes of the string. *)
Definition writeFileSync (st : state) (path : jsstring) (data : jsstring)
  : result state :=
  write_file st (Utf8.encode path) (Utf8.encode data).

(** [fs.readdirSync(path, {encoding: 'buffer'})]: the names as the disk has
    them, in the directory's order. *)
Definition readdirSync (st : state) (path : jsstring) : result (list bytes) :=
  read_dir st (Utf8.encode path).

(** [fs.readFileSync(path)], without an encoding: the bytes of the file. *)
Definition readFileSync (st : state) (path : jsstring) : result bytes :=
  read_file st (Utf8.encode path).

(** The calls the extension makes, for the record of a run. *)
Inductive call : Type :=
| ExistsSync (path : jsstring)
| MkdirSync (path : jsstring)
| WriteFileSync (path : jsstring) (data : jsstring).

End Disk.

(* ===================================================================== *)
(** ** vscode: workspace folders *)
(* ===================================================================== *)

Module Vscode.

Record Uri : Type := { fsPath : jsstring }.

Record WorkspaceFolder : Type := {
  uri : Uri;
  name : jsstring;
  index : nat
}.

End Vscode.

Import Vscode.

(* ===================================================================== *)
(** ** The extension's effects *)
(* ===================================================================== *)

(** What a call of the extension can throw. *)
Inductive exn : Type :=
| XmlError (e : XmlBuilder.error)
| FsError (e : Disk.errno)
| TypeError.

(** What a call of the extension can touch: the disk, and the window on
    which error messages are shown.  [calls] records the [fs] calls in the
    order in which they are made. *)
Record world : Type := {
  disk : Disk.state;
  calls : list Disk.call;
  shown : list jsstring
}.

Definition io (A : Type) : Type := world -> Outcome.result exn A * world.

Definition io_ret {A} (a : A) : io A := fun w => (Ok a, w).

Definition io_throw {A} (e : exn) : io A := fun w => (Throw e, w).

Definition io_bind {A B} (m : io A) (k : A -> io B) : io B :=
  fun w => match m w with
           | (Ok a, w') => k a w'
           | (Throw e, w') => (Throw e, w')
           end.

Declare Scope io_scope.
Delimit Scope io_scope with io.
Notation "x <- m ;; k" := (io_bind m (fun x => k))
  (at level 61, m at next level, right associativity) : io_scope.
Notation "m ;;; k" := (io_bind m (fun _ => k))
  (at level 61, right associativity) : io_scope.

(** The [fs] calls of the extension, on the world. *)
Module fs.

Definition record_call (c : Disk.call) (w : world) : world :=
  {| disk := disk w; calls := calls w ++ [c]; shown := shown w |}.

Definition with_disk (d : Disk.state) (w : world) : world :=
  {| disk := d; calls := calls w; shown := shown w |}.

Definition existsSync (path : jsstring) : io bool :=
  fun w => let w' := record_call (Disk.ExistsSync path) w in
           (Ok (Disk.existsSync (disk w') path), w').

Definition mkdirSync (path : jsstring) : io unit :=
  fun w => let w' := record_call (Disk.MkdirSync path) w in
           match Disk.mkdirSync (disk w') path with
           | Ok d => (Ok tt, with_disk d w')
           | Throw e => (Throw (FsError e), w')
           end.

Definition writeFileSync (path data : jsstring) : io unit :=
  fun w => let w' := record_call (Disk.WriteFileSync path data) w in
           match Disk.writeFileSync (disk w') path data with
           | Ok d => (Ok tt, with_disk d w')
           | Throw e => (Throw (FsError e), w')
           end.

End fs.

(** [await vscode.window.showErrorMessage(message)] *)
Definition showErrorMessage (message : jsstring) : io unit :=
  fun w => (Ok tt, {| disk := disk w; calls := calls w; shown := shown w ++ [message] |}).

(** A call of a descriptor builder: a value, or the builder's exception. *)
Definition xml {A} (r : XmlBuilder.result A) : io A :=
  fun w => match r with
           | Ok a => (Ok a, w)
           | Throw e => (Throw (XmlError e), w)
           end.

(* ===================================================================== *)
(** ** The rest of [extension.ts] *)
(* ===================================================================== *)

(** The [for] loop of [findFolderInWorkspace]: [i] is the loop variable,
    [n] the number of indices still below [folders.length]. *)
Fixpoint findFolder_loop (baseName : jsstring) (folders : list WorkspaceFolder)
    (n i : nat) : option jsstring :=
  match n with
  | O => None
  | S n' =>
      match nth_error folders i with
      | Some element =>
          if Js.eqb (Path.basename (fsPath (uri element))) baseName
          then Some (fsPath (uri element))
          else findFolder_loop baseName folders n' (S i)
      | None => None
      end
  end.

Definition findFolderInWorkspace (baseName : jsstring) (folders : list WorkspaceFolder)
  : option jsstring :=
  findFolder_loop baseName folders (List.length folders) 0.

Definition not_found_message (baseName : jsstring) : jsstring :=
  lit "Could not find the folder " ++ baseName ++ lit " in your workspace. "
    ++ lit "Please try again.".

(** [baseName] is an optional parameter: [None] is [undefined]. *)
Definition getWorkspaceRoot (folders : list WorkspaceFolder) (multi : bool)
    (baseName : option jsstring) : io (option jsstring) :=
  if multi then
    match baseName with
    | None => io_ret None
    | Some b =>
        if Js.eqb b [] then io_ret None
        else
          let folderPath := findFolderInWorkspace b folders in
          match folderPath with
          | Some p =>
              if truthy p then io_ret (Some p)
              else (showErrorMessage (not_found_message b) ;;; io_ret None)%io
          | None => (showErrorMessage (not_found_message b) ;;; io_ret None)%io
          end
    end
  else
    match nth_error folders 0 with
    | Some first => io_ret (Some (fsPath (uri first)))
    | None => io_throw TypeError
    end.

Definition already_exists_message (projectName : jsstring) : jsstring :=
  lit "A folder with the name " ++ projectName ++ lit " already exists.".

Definition createProjectFolder (root projectName javaVersion : jsstring) : io unit :=
  let fullPath := root ++ lit "/" ++ projectName in
  (found <- fs.existsSync fullPath ;;
   if found then
     showErrorMessage (already_exists_message projectName)
   else
     fs.mkdirSync fullPath ;;;
     projectXMLString <- xml (createProjectFile projectName) ;;
     fs.writeFileSync (fullPath ++ lit "/.project") projectXMLString ;;;
     classpathXMLString <- xml (createClassPathFile javaVersion) ;;
     fs.writeFileSync (fullPath ++ lit "/.classpath") classpathXMLString ;;;
     fs.mkdirSync (fullPath ++ lit "/src") ;;;
     fs.mkdirSync (fullPath ++ lit "/bin"))%io.

(* ===================================================================== *)
(** ** Reading the descriptors back *)
(* ===================================================================== *)

(** The reader of the round-trip property: XML 1.0 restricted to what the
    builders write -- the XML declaration, elements, attributes in double
    quotes, character data, the predefined entities and character
    references.  It checks the characters, normalizes line ends and
    attribute values, and decodes references, as the recommendation
    prescribes. *)
Module XmlReader.

(** [Char] of XML 1.0, for a code unit outside the surrogate range. *)
Definition is_char (c : code_unit) : bool :=
  (N.eqb c 9 || N.eqb c 10 || N.eqb c 13
   || (N.leb 0x20 c && N.leb c 0xD7FF)
   || (N.leb 0xE000 c && N.leb c 0xFFFD))%N.

(** Every code unit is a [Char] or belongs to a surrogate pair. *)
Fixpoint chars_ok (s : jsstring) : bool :=
  match s with
  | [] => true
  | c :: t =>
      if is_high_surrogate c then
        match t with
        | l :: t' => is_low_surrogate l && chars_ok t'
        | [] => false
        end
      else is_char c && chars_ok t
  end.

(** Line ends: CR LF and CR alone are read as LF. *)
Fixpoint normalize_eol (s : jsstring) : jsstring :=
  match s with
  | [] => []
  | c :: t =>
      if N.eqb c 13 then
        10%N :: match t with
                | l :: t' => if N.eqb l 10 then normalize_eol t' else normalize_eol t
                | [] => []
                end
      else c :: normalize_eol t
  end.

Definition attrs : Type := list (jsstring * jsstring).

Inductive token : Type :=
| Declaration
| StartTag (name : jsstring) (atts : attrs)
| EmptyTag (name : jsstring) (atts : attrs)
| EndTag (name : jsstring)
| CharData (text : jsstring).

(** Where the scanner is. *)
Inductive mode : Type :=
| Content (raw : jsstring)
| Markup
| InDeclaration (question : bool)
| EndName (name : jsstring)
| StartName (name : jsstring)
| InTag (name : jsstring) (atts : attrs)
| AttName (name : jsstring) (atts : attrs) (att : jsstring)
| AttQuote (name : jsstring) (atts : attrs) (att : jsstring)
| AttValue (name : jsstring) (atts : attrs) (att : jsstring) (value : jsstring)
| AfterValue (name : jsstring) (atts : attrs)
| Closing (name : jsstring) (atts : attrs).

Definition is_space (c : code_unit) : bool :=
  (N.eqb c 32 || N.eqb c 9 || N.eqb c 10 || N.eqb c 13)%N.

(** The ASCII name characters: letters, digits, [.], [-], [_] and [:]. *)
Definition is_name_char (c : code_unit) : bool :=
  ((N.leb 97 c && N.leb c 122) || (N.leb 65 c && N.leb c 90)
   || (N.leb 48 c && N.leb c 57)
   || N.eqb c 46 || N.eqb c 45 || N.eqb c 95 || N.eqb c 58)%N.

Definition lt_sign : code_unit := 60%N.
Definition gt_sign : code_unit := 62%N.
Definition amp : code_unit := 38%N.
Definition semicolon : code_unit := 59%N.
Definition question_mark : code_unit := 63%N.
Definition equals_sign : code_unit := 61%N.

Definition step (toks : list token) (m : mode) (c : code_unit)
  : option (list token * mode) :=
  match m with
  | Content raw =>
      if N.eqb c lt_sign then Some (toks ++ [CharData raw], Markup)
      else Some (toks, Content (raw ++ [c]))
  | Markup =>
      if N.eqb c question_mark then Some (toks, InDeclaration false)
      else if N.eqb c slash then Some (toks, EndName [])
      else if is_name_char c then Some (toks, StartName [c])
      else None
  | InDeclaration question =>
      if question && N.eqb c gt_sign then Some (toks ++ [Declaration], Content [])
      else Some (toks, InDeclaration (N.eqb c question_mark))
  | EndName name =>
      if N.eqb c gt_sign then Some (toks ++ [EndTag name], Content [])
      else if is_name_char c then Some (toks, EndName (name ++ [c]))
      else None
  | StartName name =>
      if N.eqb c gt_sign then Some (toks ++ [StartTag name []], Content [])
      else if N.eqb c slash then Some (toks, Closing name [])
      else if is_space c then Some (toks, InTag name [])
      else if is_name_char c then Some (toks, StartName (name ++ [c]))
      else None
  | InTag name atts =>
      if N.eqb c gt_sign then Some (toks ++ [StartTag name atts], Content [])
      else if N.eqb c slash then Some (toks, Closing name atts)
      else if is_space c then Some (toks, InTag name atts)
      else if is_name_char c then Some (toks, AttName name atts [c])
      else None
  | AttName name atts att =>
      if N.eqb c equals_sign then Some (toks, AttQuote name atts att)
      else if is_name_char c then Some (toks, AttName name atts (att ++ [c]))
      else None
  | AttQuote name atts att =>
      if N.eqb c dquote then Some (toks, AttValue name atts att [])
      else None
  | AttValue name atts att value =>
      if N.eqb c dquote then Some (toks, AfterValue name (atts ++ [(att, value)]))
      else if N.eqb c lt_sign then None
      else if is_space c then Some (toks, AttValue name atts att (value ++ [32%N]))
      else Some (toks, AttValue name atts att (value ++ [c]))
  | AfterValue name atts =>
      if N.eqb c gt_sign then Some (toks ++ [StartTag name atts], Content [])
      else if N.eqb c slash then Some (toks, Closing name atts)
      else if is_space c then Some (toks, InTag name atts)
      else None
  | Closing name atts =>
      if N.eqb c gt_sign then Some (toks ++ [EmptyTag name atts], Content [])
      else None
  end.

Fixpoint scan (toks : list token) (m : mode) (s : jsstring)
  : option (list token * mode) :=
  match s with
  | [] => Some (toks, m)
  | c :: t =>
      match step toks m c with
      | Some (toks', m') => scan toks' m' t
      | None => None
      end
  end.

(** The tokens of a text; markup has to be closed where the text ends. *)
Definition tokens (s : jsstring) : option (list token) :=
  match scan [] (Content []) s with
  | Some (toks, Content raw) => Some (toks ++ [CharData raw])
  | _ => None
  end.

(** *** References *)

Definition digit_value (hex : bool) (c : code_unit) : option N :=
  (if N.leb 48 c && N.leb c 57 then Some (c - 48)
   else if hex && N.leb 97 c && N.leb c 102 then Some (c - 87)
   else if hex && N.leb 65 c && N.leb c 70 then Some (c - 55)
   else None)%N.

Fixpoint number (hex : bool) (digits : jsstring) (acc : N) : option N :=
  match digits with
  | [] => Some acc
  | d :: rest =>
      match digit_value hex d with
      | Some v => number hex rest ((if hex then 16 else 10) * acc + v)%N
      | None => None
      end
  end.

(** The code units of a code point that is a [Char]. *)
Definition units_of (cp : N) : option jsstring :=
  (if N.ltb cp 0x10000 then
     if is_char cp then Some [cp] else None
   else if N.leb cp 0x10FFFF then
     Some [0xD800 + (cp - 0x10000) / 0x400; 0xDC00 + (cp - 0x10000) mod 0x400]
   else None)%N.

Definition hash : code_unit := 35%N.
Definition letter_x : code_unit := 120%N.

(** What stands between [&] and [;]. *)
Definition reference (r : jsstring) : option jsstring :=
  if Js.eqb r (lit "amp") then Some [amp]
  else if Js.eqb r (lit "lt") then Some [lt_sign]
  else if Js.eqb r (lit "gt") then Some [gt_sign]
  else if Js.eqb r (lit "quot") then Some [dquote]
  else if Js.eqb r (lit "apos") then Some [squote]
  else match r with
       | h :: x :: d :: digits =>
           if N.eqb h hash && N.eqb x letter_x then
             match number true (d :: digits) 0 with
             | Some cp => units_of cp
             | None => None
             end
           else if N.eqb h hash then
             match number false (x :: d :: digits) 0 with
             | Some cp => units_of cp
             | None => None
             end
           else None
       | [h; d] =>
           if N.eqb h hash then
             match number false [d] 0 with
             | Some cp => units_of cp
             | None => None
             end
           else None
       | _ => None
       end.

(** Replace the references of a text; [ref] holds the reference being
    read, if one is. *)
Fixpoint decode (s : jsstring) (ref : option jsstring) : option jsstring :=
  match s with
  | [] => match ref with None => Some [] | Some _ => None end
  | c :: t =>
      match ref with
      | None =>
          if N.eqb c amp then decode t (Some [])
          else option_map (cons c) (decode t None)
      | Some r =>
          if N.eqb c semicolon then
            match reference r with
            | Some units => option_map (app units) (decode t None)
            | None => None
            end
          else decode t (Some (r ++ [c]))
      end
  end.

Fixpoint decode_atts (atts : attrs) : option attrs :=
  match atts with
  | [] => Some []
  | (k, raw) :: rest =>
      match decode raw None, decode_atts rest with
      | Some v, Some rest' => Some ((k, v) :: rest')
      | _, _ => None
      end
  end.

Definition decode_token (t : token) : option token :=
  match t with
  | Declaration => Some Declaration
  | StartTag name atts => option_map (StartTag name) (decode_atts atts)
  | EmptyTag name atts => option_map (EmptyTag name) (decode_atts atts)
  | EndTag name => Some (EndTag name)
  | CharData raw => option_map CharData (decode raw None)
  end.

Fixpoint decode_all (toks : list token) : option (list token) :=
  match toks with
  | [] => Some []
  | t :: rest =>
      match decode_token t, decode_all rest with
      | Some t', Some rest' => Some (t' :: rest')
      | _, _ => None
      end
  end.

(** *** The tree *)

Inductive item : Type :=
| Element (name : jsstring) (atts : attrs) (children : list item)
| Text (value : jsstring).

(** An element that is open, and the children read so far. *)
Definition frame : Type := (jsstring * attrs * list item)%type.

Definition add_item (i : item) (stack : list frame) (top : list item)
  : list frame * list item :=
  match stack with
  | (name, atts, children) :: below => ((name, atts, children ++ [i]) :: below, top)
  | [] => ([], top ++ [i])
  end.

Fixpoint build (toks : list token) (stack : list frame) (top : list item)
  : option (list item) :=
  match toks with
  | [] => match stack with [] => Some top | _ :: _ => None end
  | t :: rest =>
      match t with
      | Declaration =>
          match stack, top with
          | [], [Text []] => build rest [] []
          | _, _ => None
          end
      | CharData text =>
          let '(stack', top') := add_item (Text text) stack top in
          build rest stack' top'
      | StartTag name atts => build rest ((name, atts, []) :: stack) top
      | EmptyTag name atts =>
          let '(stack', top') := add_item (Element name atts []) stack top in
          build rest stack' top'
      | EndTag name =>
          match stack with
          | (name', atts, children) :: below =>
              if Js.eqb name name' then
                let '(stack', top') := add_item (Element name' atts children) below top in
                build rest stack' top'
              else None
          | [] => None
          end
      end
  end.

Definition is_element (i : item) : bool :=
  match i with Element _ _ _ => true | Text _ => false end.

Definition is_blank (i : item) : bool :=
  match i with Element _ _ _ => false | Text v => forallb is_space v end.

(** A document: one element, with nothing but white space around it. *)
Definition document (top : list item) : option item :=
  if forallb (fun i => is_element i || is_blank i) top then
    match filter is_element top with
    | [e] => Some e
    | _ => None
    end
  else None.

(** From tokens to the document. *)
Definition read_tokens (raw : list token) : option item :=
  match decode_all raw with
  | Some toks =>
      match build toks [] [] with
      | Some top => document top
      | None => None
      end
  | None => None
  end.

Definition parse (s : jsstring) : option item :=
  if chars_ok s then
    match tokens (normalize_eol s) with
    | Some raw => read_tokens raw
    | None => None
    end
  else None.

(** *** The descriptors, read from the tree *)

Definition element_name (i : item) : jsstring :=
  match i with Element name _ _ => name | Text _ => [] end.

Definition child_elements (i : item) : list item :=
  match i with Element _ _ children => filter is_element children | Text _ => [] end.

Definition text_of (i : item) : jsstring :=
  match i with
  | Element _ _ children =>
      flat_map (fun k => match k with Text v => v | Element _ _ _ => [] end) children
  | Text v => v
  end.

Fixpoint attribute (k : jsstring) (atts : attrs) : option jsstring :=
  match atts with
  | [] => None
  | (k', v) :: rest => if Js.eqb k' k then Some v else attribute k rest
  end.

(** The text of the [name] element of a project description. *)
Definition project_name (doc : item) : option jsstring :=
  if Js.eqb (element_name doc) (lit "projectDescription") then
    match find (fun k => Js.eqb (element_name k) (lit "name")) (child_elements doc) with
    | Some e => Some (text_of e)
    | None => None
    end
  else None.

(** The [path] attribute of the first entry of a class path. *)
Definition first_entry_path (doc : item) : option jsstring :=
  if Js.eqb (element_name doc) (lit "classpath") then
    match child_elements doc with
    | Element name atts _ :: _ =>
        if Js.eqb name (lit "classpathentry") then attribute (lit "path") atts else None
    | _ => None
    end
  else None.

End XmlReader.

(* ===================================================================== *)
(** ** Notions the properties are stated with *)
(* ===================================================================== *)

(** On the disk: what it means that a tree keeps what another has, and
    that a path leads to a directory with given entries. *)
Module DiskSpec.
Import Disk.

(** [extends t t']: whatever [t] has, [t'] has, with the same kind. *)
Definition extends (t t' : inode) : Prop :=
  forall p k, kind_at t p = Some k -> kind_at t' p = Some k.

(** [strip_prefix a p]: what follows [a] in [p], when [p] starts with [a]. *)
Fixpoint strip_prefix (a p : list bytes) : option (list bytes) :=
  match a, p with
  | [], _ => Some p
  | x :: a', y :: p' => if Js.eqb x y then strip_prefix a' p' else None
  | _ :: _, [] => None
  end.

(** Names the extension appends below the project folder: no separator,
    no NUL, none of the special components. *)
Definition simple_name (x : jsstring) : bool :=
  negb (is_special x) && negb (existsb (N.eqb slash) x) && negb (existsb (N.eqb 0) x).

(** [in_dir st p D es]: on [st], the path with the bytes [p] leads to the
    directory [D], whose entries are [es]. *)
Definition in_dir (st : state) (p : bytes) (D : list bytes)
    (es : list (bytes * inode)) : Prop :=
  check_path p = Ok tt
  /\ walk (tree st) (start st p) (split p) = Ok D
  /\ resolve st p = Ok D
  /\ lookup (tree st) D = Some (Dir es).

(** The entries of a project folder, and the [fs] calls that make it. *)
Definition project_entries (px cx : jsstring) : list (bytes * inode) :=
  [ (lit ".project", File (Utf8.encode px)); (lit ".classpath", File (Utf8.encode cx));
    (lit "src", Dir []); (lit "bin", Dir []) ].

Definition provision_calls (p px cx : jsstring) : list call :=
  [ ExistsSync p; MkdirSync p;
    WriteFileSync (p ++ lit "/.project") px;
    WriteFileSync (p ++ lit "/.classpath") cx;
    MkdirSync (p ++ lit "/src"); MkdirSync (p ++ lit "/bin") ].

(** The places a run of [createProjectFolder] makes, for the project
    folder at [T]. *)
Definition project_places (T : list bytes) : list (list bytes) :=
  [ T; T ++ [lit ".project"]; T ++ [lit ".classpath"];
    T ++ [lit "src"]; T ++ [lit "bin"] ].

(** The file system refuses none of [places]. *)
Definition permitted (st : state) (places : list (list bytes)) : Prop :=
  forall q, In q places -> refuses st q = None.

End DiskSpec.


(** On the descriptors: the trees the builders make and the texts they
    write, the escapes one code unit at a time, and what the reader meets
    around the value a descriptor carries. *)
Module Descriptors.
Import XmlReader.

(** The text written for a class path whose first entry has the
    (escaped) path [path]. *)
Definition classpath_text (path : jsstring) : jsstring :=
  unlines [
    litq "<?xml version='1.0' encoding='UTF-8'?>";
    lit  "<classpath>";
    litq "  <classpathentry kind='con' path='" ++ path ++ litq "'>";
    lit  "    <attributes>";
    litq "      <attribute name='module' value='true'/>";
    lit  "    </attributes>";
    lit  "  </classpathentry>";
    litq "  <classpathentry kind='src' path='src'/>";
    litq "  <classpathentry kind='output' path='bin'/>";
    lit  "</classpath>" ].

(** The tree of a class path whose first entry has the (escaped) path
    [path]. *)
Definition classpath_root (path : jsstring) : node :=
  XMLElement (lit "classpath") []
    [ XMLElement (lit "classpathentry")
        [ (lit "kind", lit "con"); (lit "path", path) ]
        [ XMLElement (lit "attributes") []
            [ XMLElement (lit "attribute")
                [ (lit "name", lit "module"); (lit "value", lit "true") ] [] ] ];
      XMLElement (lit "classpathentry")
        [ (lit "kind", lit "src"); (lit "path", lit "src") ] [];
      XMLElement (lit "classpathentry")
        [ (lit "kind", lit "output"); (lit "path", lit "bin") ] [] ].

(** The text written for a project description whose [name] element is
    written as the line [name_line]. *)
Definition project_text (name_line : jsstring) : jsstring :=
  unlines [
    litq "<?xml version='1.0' encoding='UTF-8'?>";
    lit  "<projectDescription>";
    name_line;
    lit  "  <comment/>";
    lit  "  <projects/>";
    lit  "  <buildSpec>";
    lit  "    <buildCommand>";
    lit  "      <name>org.eclipse.jdt.core.javabuilder</name>";
    lit  "      <arguments/>";
    lit  "    </buildCommand>";
    lit  "  </buildSpec>";
    lit  "  <natures>";
    lit  "    <nature>org.eclipse.jdt.core.javanature</nature>";
    lit  "  </natures>";
    lit  "</projectDescription>" ].

(** The tree of a project description whose [name] holds the (escaped)
    text [text]. *)
Definition project_root (text : jsstring) : node :=
  XMLElement (lit "projectDescription") []
    [ XMLElement (lit "name") [] [XMLText text];
      XMLElement (lit "comment") [] [XMLText []];
      XMLElement (lit "projects") [] [];
      XMLElement (lit "buildSpec") []
        [ XMLElement (lit "buildCommand") []
            [ XMLElement (lit "name") [] [XMLText (lit "org.eclipse.jdt.core.javabuilder")];
              XMLElement (lit "arguments") [] [] ] ];
      XMLElement (lit "natures") []
        [ XMLElement (lit "nature") [] [XMLText (lit "org.eclipse.jdt.core.javanature")] ] ].

(** What [elEscape] and [attEscape] make of one code unit. *)
Definition el_char (c : code_unit) : jsstring :=
  if N.eqb c 38 then lit "&amp;"
  else if N.eqb c 60 then lit "&lt;"
  else if N.eqb c 62 then lit "&gt;"
  else if N.eqb c 13 then lit "&#xD;"
  else [c].

Definition att_char (c : code_unit) : jsstring :=
  if N.eqb c 38 then lit "&amp;"
  else if N.eqb c 60 then lit "&lt;"
  else if N.eqb c 34 then lit "&quot;"
  else if N.eqb c 9 then lit "&#x9;"
  else if N.eqb c 10 then lit "&#xA;"
  else if N.eqb c 13 then lit "&#xD;"
  else [c].

(** Code units the reader takes as they are: in any place, in character
    data, in an attribute value, outside a reference. *)
Definition not_cr (c : code_unit) : bool := negb (N.eqb c 13).

Definition text_unit (c : code_unit) : bool := negb (N.eqb c lt_sign).

Definition value_unit (c : code_unit) : bool :=
  negb (N.eqb c dquote) && negb (N.eqb c lt_sign)
  && negb (N.eqb c 9) && negb (N.eqb c 10) && negb (N.eqb c 13).

Definition not_amp (c : code_unit) : bool := negb (N.eqb c amp).

(** *** The two descriptors, around the value they carry *)

Definition project_before : jsstring :=
  unlines [
    litq "<?xml version='1.0' encoding='UTF-8'?>";
    lit  "<projectDescription>";
    lit  "  <name>" ].

Definition project_after : jsstring :=
  lit "</name>" ++ newline_char :: unlines [
    lit  "  <comment/>";
    lit  "  <projects/>";
    lit  "  <buildSpec>";
    lit  "    <buildCommand>";
    lit  "      <name>org.eclipse.jdt.core.javabuilder</name>";
    lit  "      <arguments/>";
    lit  "    </buildCommand>";
    lit  "  </buildSpec>";
    lit  "  <natures>";
    lit  "    <nature>org.eclipse.jdt.core.javanature</nature>";
    lit  "  </natures>";
    lit  "</projectDescription>" ].

Definition classpath_before : jsstring :=
  unlines [
    litq "<?xml version='1.0' encoding='UTF-8'?>";
    lit  "<classpath>";
    litq "  <classpathentry kind='con' path='" ] ++ jre_container.

Definition classpath_after : jsstring :=
  litq "'>" ++ newline_char :: unlines [
    lit  "    <attributes>";
    litq "      <attribute name='module' value='true'/>";
    lit  "    </attributes>";
    lit  "  </classpathentry>";
    litq "  <classpathentry kind='src' path='src'/>";
    litq "  <classpathentry kind='output' path='bin'/>";
    lit  "</classpath>" ].

(** The tokens the reader finds before the value, and after the token
    that holds the value. *)
Definition project_tokens_before : list token :=
  Eval vm_compute in
    match scan [] (Content []) project_before with
    | Some (toks, _) => toks
    | None => []
    end.

Definition project_tokens_after : list token :=
  Eval vm_compute in
    match scan [] (Content []) project_after with
    | Some (_ :: toks, Content raw) => toks ++ [CharData raw]
    | _ => []
    end.

Definition classpath_tokens_before : list token :=
  Eval vm_compute in
    match scan [] (Content []) classpath_before with
    | Some (toks, _) => toks
    | None => []
    end.

Definition classpath_tokens_after : list token :=
  Eval vm_compute in
    match scan [] (AttValue [] [] [] []) classpath_after with
    | Some (_ :: toks, Content raw) => toks ++ [CharData raw]
    | _ => []
    end.

End Descriptors.

Import Disk.

(** A disk with an empty [/tmp], as the extension's test uses it: its
    names hold at most 255 bytes, it refuses nothing else, and its
    directories list their entries by first byte. *)
Definition sample_world : world :=
  {| disk := {| tree := Dir [(lit "tmp", Dir [])];
                cwd := [];
                refuses := fun place =>
                  if Nat.ltb 255 (List.length (last place []))
                  then Some ENAMETOOLONG else None;
                rank := fun _ name => hd 0%N name |};
     calls := [];
     shown := [] |}.

(** The world after [createProjectFolder('/tmp', 'Test-Project', 'JavaSE-10')]. *)
Definition sample_project : world :=
  Eval vm_compute in
    snd (createProjectFolder (lit "/tmp") (lit "Test-Project") (lit "JavaSE-10")
           sample_world).

(* ===================================================================== *)
(** ** The prompts and the command of [extension.ts] *)
(* ===================================================================== *)

(** [vscode.window.showInputBox]: the options the extension passes, and
    what the user does with the box. *)
Module Window.

Record InputBoxOptions : Type := {
  prompt : jsstring;
  placeHolder : option jsstring;
  value : option jsstring
}.

(** The user types a text and confirms it, confirms the box as it was
    shown (with the prefilled [value], if any), or dismisses it; or the
    call fails. *)
Inductive answer : Type :=
| Typed (text : jsstring)
| Confirmed
| Dismissed
| Rejected.

End Window.

Import Window.

(** [vscode.workspace], as far as [command] reads it. *)
Module Workspace.

Record workspace : Type := {
  workspaceFolders : option (list WorkspaceFolder);
  rootPath : option jsstring
}.

End Workspace.

Import Workspace.

(** What [command] can throw: what the extension's calls throw, or the
    failure of an input box. *)
Inductive ui_exn : Type :=
| Raised (e : exn)
| InputBoxRejected.

(** The world together with the user: the answers still to come, in
    order, and the input boxes shown so far. *)
Record desktop : Type := {
  pending : list answer;
  asked : list InputBoxOptions;
  site : world
}.

Definition ui (A : Type) : Type := desktop -> Outcome.result ui_exn A * desktop.

Definition ui_ret {A} (a : A) : ui A := fun d => (Ok a, d).

Definition ui_bind {A B} (m : ui A) (k : A -> ui B) : ui B :=
  fun d => match m d with
           | (Ok a, d') => k a d'
           | (Throw e, d') => (Throw e, d')
           end.

Declare Scope ui_scope.
Delimit Scope ui_scope with ui.
Notation "x <- m ;; k" := (ui_bind m (fun x => k))
  (at level 61, m at next level, right associativity) : ui_scope.

Definition with_site (w : world) (d : desktop) : desktop :=
  {| pending := pending d; asked := asked d; site := w |}.

(** [await] of a call of the extension. *)
Definition await {A} (m : io A) : ui A :=
  fun d => match m (site d) with
           | (Ok a, w) => (Ok a, with_site w d)
           | (Throw e, w) => (Throw (Raised e), with_site w d)
           end.

(** A call of an [async] function whose promise is dropped: what it does
    is done, what it returns or throws is lost.  (The only [await] of
    [createProjectFolder] is its last statement but one, before a bare
    [return].) *)
Definition detached {A} (m : io A) : ui unit :=
  fun d => (Ok tt, with_site (snd (m (site d))) d).

(** [await vscode.window.showInputBox(options)]; a user who has no answer
    left dismisses the box. *)
Definition showInputBox (options : InputBoxOptions) : ui (option jsstring) :=
  fun d =>
    let d' := {| pending := tl (pending d);
                 asked := asked d ++ [options];
                 site := site d |} in
    match pending d with
    | Typed text :: _ => (Ok (Some text), d')
    | Confirmed :: _ =>
        (Ok (Some (match value options with Some v => v | None => [] end)), d')
    | Dismissed :: _ => (Ok None, d')
    | Rejected :: _ => (Throw InputBoxRejected, d')
    | [] => (Ok None, d')
    end.

(** [try { return m } catch (e) { return; }] *)
Definition try_or_undefined {A} (m : ui (option A)) : ui (option A) :=
  fun d => match m d with
           | (Ok a, d') => (Ok a, d')
           | (Throw _, d') => (Ok None, d')
           end.

Definition folder_box : InputBoxOptions :=
  {| prompt := lit "Folder name to create project folder in. Must be in your workspace.";
     placeHolder := Some (lit "Folder name.");
     value := None |}.

Definition project_name_box : InputBoxOptions :=
  {| prompt := lit "Project name. Will be used as the folder name of your java project.";
     placeHolder := Some (lit "Project name.");
     value := None |}.

Definition java_version_box : InputBoxOptions :=
  {| prompt := lit "The Eclipse java version to build with. (Ex: JavaSE-8, JavaSE-10)";
     placeHolder := None;
     value := Some (lit "JavaSE-10") |}.

Definition promptForFolder : ui (option jsstring) :=
  try_or_undefined (showInputBox folder_box).

Definition promptForProjectName : ui (option jsstring) :=
  try_or_undefined (showInputBox project_name_box).

Definition promptForJavaVersion : ui (option jsstring) :=
  try_or_undefined (showInputBox java_version_box).

Definition no_folders_message : jsstring :=
  lit "You don't have any folders in your workspace. "
    ++ lit "Please add a folder to your workspace and try again.".

Definition invalid_java_message : jsstring := lit "Invalid Java Version.".

(** [command], from the test [root === undefined] on. *)
Definition command_with_root (root : option jsstring) : ui unit :=
  match root with
  | None => ui_ret tt
  | Some root =>
      (projectName <- promptForProjectName ;;
       javaVersion <- promptForJavaVersion ;;
       match javaVersion with
       | None => await (showErrorMessage invalid_java_message)
       | Some version =>
           if Js.eqb version [] then await (showErrorMessage invalid_java_message)
           else
             match projectName with
             | Some name =>
                 if truthy name
                 then detached (createProjectFolder root name version)
                 else ui_ret tt
             | None => ui_ret tt
             end
       end)%ui
  end.

(** [command(context)]; the context is not used. *)
Definition command (ws : workspace) : ui unit :=
  match workspaceFolders ws with
  | Some folders =>
      let multi := Nat.ltb 1 (List.length folders) in
      if multi then
        (baseName <- promptForFolder ;;
         root <- await (getWorkspaceRoot folders multi baseName) ;;
         command_with_root root)%ui
      else
        (root <- await (getWorkspaceRoot folders multi None) ;;
         command_with_root root)%ui
  | None =>
      match rootPath ws with
      | Some root =>
          if truthy root then command_with_root (Some root)
          else await (showErrorMessage no_folders_message)
      | None => await (showErrorMessage no_folders_message)
      end
  end.

(** The content of a place of the disk, as far as a change elsewhere
    leaves it alone: the text of a file, or that it is a directory. *)
Definition item_at (t : inode) (p : list jsstring) : option (option jsstring) :=
  match lookup t p with
  | Some (File data) => Some (Some data)
  | Some (Dir _) => Some None
  | None => None
  end.

(** [keeps t t']: every file of [t] is in [t'] with its text, every
    directory of [t] is a directory of [t']. *)
Definition keeps (t t' : inode) : Prop :=
  forall q i, item_at t q = Some i -> item_at t' q = Some i.

(** The world [w] after the [fs] calls [cs], which leave the disk [d]. *)
Definition ran (w : world) (cs : list call) (d : state) : world :=
  {| disk := d; calls := calls w ++ cs; shown := shown w |}.

(** [grown st st' p D es]: the disk [st'] is [st] with one directory more,
    at [D], to which the path [p] leads and whose entries are [es]; all the
    rest is as on [st]. *)
Definition grown (st st' : state) (p : Utf8.bytes) (D : list Utf8.bytes)
    (es : list (Utf8.bytes * inode)) : Prop :=
  DiskSpec.in_dir st' p D es
  /\ kind_at (tree st) D = None
  /\ cwd st' = cwd st
  /\ refuses st' = refuses st
  /\ rank st' = rank st
  /\ keeps (tree st) (tree st')
  /\ (forall q, DiskSpec.strip_prefix D q = None ->
        item_at (tree st') q = item_at (tree st) q).

(** Strings that the escapes leave as they are: without [&], [<], [>]
    and carriage return for element text, without [&], [<], the double
    quote, tab, line feed and carriage return for attribute values. *)
Definition text_verbatim (s : jsstring) : bool :=
  forallb (fun c => negb (N.eqb c 38 || N.eqb c 60 || N.eqb c 62 || N.eqb c 13)%N) s.

Definition value_verbatim (s : jsstring) : bool :=
  forallb (fun c => negb (N.eqb c 38 || N.eqb c 60 || N.eqb c 34
                          || N.eqb c 9 || N.eqb c 10 || N.eqb c 13)%N) s.

(** The white space the writer puts before a tag at depth [level]. *)
Definition gap (level : nat) : XmlReader.item :=
  XmlReader.Text (newline_char :: XmlBuilder.space level).

(** The documents the reader should find: a project description with the
    name [name], a class path whose first entry has the path [path]. *)
Definition project_document (name : jsstring) : XmlReader.item :=
  XmlReader.Element (lit "projectDescription") []
    [ gap 1;
      XmlReader.Element (lit "name") []
        (match name with [] => [] | _ :: _ => [XmlReader.Text name] end);
      gap 1; XmlReader.Element (lit "comment") [] [];
      gap 1; XmlReader.Element (lit "projects") [] [];
      gap 1;
      XmlReader.Element (lit "buildSpec") []
        [ gap 2;
          XmlReader.Element (lit "buildCommand") []
            [ gap 3;
              XmlReader.Element (lit "name") []
                [XmlReader.Text (lit "org.eclipse.jdt.core.javabuilder")];
              gap 3; XmlReader.Element (lit "arguments") [] [];
              gap 2 ];
          gap 1 ];
      gap 1;
      XmlReader.Element (lit "natures") []
        [ gap 2;
          XmlReader.Element (lit "nature") []
            [XmlReader.Text (lit "org.eclipse.jdt.core.javanature")];
          gap 1 ];
      gap 0 ].

Definition classpath_document (path : jsstring) : XmlReader.item :=
  XmlReader.Element (lit "classpath") []
    [ gap 1;
      XmlReader.Element (lit "classpathentry")
        [ (lit "kind", lit "con"); (lit "path", path) ]
        [ gap 2;
          XmlReader.Element (lit "attributes") []
            [ gap 3;
              XmlReader.Element (lit "attribute")
                [ (lit "name", lit "module"); (lit "value", lit "true") ] [];
              gap 2 ];
          gap 1 ];
      gap 1;
      XmlReader.Element (lit "classpathentry")
        [ (lit "kind", lit "src"); (lit "path", lit "src") ] [];
      gap 1;
      XmlReader.Element (lit "classpathentry")
        [ (lit "kind", lit "output"); (lit "path", lit "bin") ] [];
      gap 0 ].

(** What an input box returns to a prompt, for the answers to come. *)
Definition reply (box : InputBoxOptions) (answers : list answer) : option jsstring :=
  match answers with
  | Typed text :: _ => Some text
  | Confirmed :: _ => Some (match value box with Some v => v | None => [] end)
  | _ => None
  end.

(** The desktop after one more input box. *)
Definition after_box (box : InputBoxOptions) (d : desktop) : desktop :=
  {| pending := tl (pending d); asked := asked d ++ [box]; site := site d |}.

(** The world after one more message. *)
Definition with_message (message : jsstring) (w : world) : world :=
  {| disk := disk w; calls := calls w; shown := shown w ++ [message] |}.

(** What a prompt brings that [command] goes on with: a string that is
    not empty. *)
Definition entered (box : InputBoxOptions) (answers : list answer) : option jsstring :=
  match reply box answers with
  | Some (c :: s) => Some (c :: s)
  | _ => None
  end.

(** [single_root ws root]: the workspace has one folder, at [root], or no
    folder list and the root path [root]. *)
Definition single_root (ws : workspace) (root : jsstring) : Prop :=
  (exists f, workspaceFolders ws = Some [f] /\ root = fsPath (uri f))
  \/ (workspaceFolders ws = None /\ rootPath ws = Some root /\ root <> []).

(** [opened ws root]: [root] is the path of a folder of the workspace, or
    its root path when it has no folder list. *)
Definition opened (ws : workspace) (root : jsstring) : Prop :=
  match workspaceFolders ws with
  | Some folders => exists f, In f folders /\ root = fsPath (uri f)
  | None => rootPath ws = Some root
  end.

(** A desktop on [sample_world] with one open folder, [/tmp]. *)
Definition tmp_folder : WorkspaceFolder :=
  {| uri := {| fsPath := lit "/tmp" |}; name := lit "tmp"; index := 0 |}.

Definition work_folder : WorkspaceFolder :=
  {| uri := {| fsPath := lit "/home/dev/work/" |}; name := lit "work"; index := 1 |}.

Definition two_folders : workspace :=
  {| workspaceFolders := Some [tmp_folder; work_folder]; rootPath := Some (lit "/tmp") |}.

Definition single_workspace : workspace :=
  {| workspaceFolders := Some [tmp_folder]; rootPath := Some (lit "/tmp") |}.

Definition sample_desktop (answers : list answer) : desktop :=
  {| pending := answers; asked := []; site := sample_world |}.

(* ===================================================================== *)
(** * Proofs *)
(* ===================================================================== *)

Unset Implicit Arguments.

Module JsFacts.

Lemma eqb_spec (a b : jsstring) : reflect (a = b) (eqb a b).
Proof.
  revert b; induction a as [|x a IH]; intros [|y b]; simpl;
    try (constructor; congruence).
  destruct (N.eqb_spec x y) as [->|Hxy]; simpl.
  - destruct (IH b) as [->|Hab]; constructor; congruence.
  - constructor; congruence.
Qed.

Lemma eqb_eq (a b : jsstring) : eqb a b = true <-> a = b.
Proof. destruct (eqb_spec a b); split; congruence. Qed.

Lemma eqb_refl (a : jsstring) : eqb a a = true.
Proof. apply eqb_eq; reflexivity. Qed.

Lemma eqb_neq (a b : jsstring) : eqb a b = false <-> a <> b.
Proof. destruct (eqb_spec a b); split; congruence. Qed.

End JsFacts.

(** ** UTF-8 *)
Module Utf8Facts.
Import Utf8.

Lemma by_pairs {A : Type} (P : list A -> Prop) :
  P [] -> (forall a, P [a]) ->
  (forall a b l, P l -> P (b :: l) -> P (a :: b :: l)) ->
  forall l, P l.
Proof.
  intros H0 H1 H2.
  assert (H : forall l, P l /\ forall a, P (a :: l)).
  { induction l as [|b l [IHl IHbl]]; split; auto. }
  intros l. apply H.
Qed.

Lemma is_ascii_add (a b : N) : (0x80 <= a)%N -> is_ascii (a + b) = false.
Proof. intros H. unfold is_ascii. apply N.ltb_ge. lia. Qed.

Lemma bytes_of_ascii (c : N) : is_ascii c = true -> bytes_of c = [c].
Proof. unfold is_ascii, bytes_of. now intros ->. Qed.

Lemma bytes_of_noise (cp : N) : is_ascii cp = false -> noise (bytes_of cp) = true.
Proof.
  unfold bytes_of, noise. intros H. unfold is_ascii in H. rewrite H.
  destruct (N.ltb cp 0x800); [|destruct (N.ltb cp 0x10000)];
    cbn [forallb]; rewrite !is_ascii_add by lia; reflexivity.
Qed.

Lemma bytes_of_nonempty (cp : N) : bytes_of cp <> [].
Proof.
  unfold bytes_of.
  destruct (N.ltb cp 0x80); [discriminate|].
  destruct (N.ltb cp 0x800); [discriminate|].
  destruct (N.ltb cp 0x10000); discriminate.
Qed.

Lemma high_not_ascii (c : N) : is_high c = true -> is_ascii c = false.
Proof.
  unfold is_high, is_ascii. intros H. apply andb_prop in H as [H _].
  apply N.leb_le in H. apply N.ltb_ge. lia.
Qed.

Lemma low_not_ascii (c : N) : is_low c = true -> is_ascii c = false.
Proof.
  unfold is_low, is_ascii. intros H. apply andb_prop in H as [H _].
  apply N.leb_le in H. apply N.ltb_ge. lia.
Qed.

Lemma ascii_not_high (c : N) : is_ascii c = true -> is_high c = false.
Proof.
  intros H. destruct (is_high c) eqn:E; [|reflexivity].
  apply high_not_ascii in E. congruence.
Qed.

Lemma ascii_not_low (c : N) : is_ascii c = true -> is_low c = false.
Proof.
  intros H. destruct (is_low c) eqn:E; [|reflexivity].
  apply low_not_ascii in E. congruence.
Qed.

Lemma encode_cons_ascii (c : N) (t : jsstring) :
  is_ascii c = true -> encode (c :: t) = c :: encode t.
Proof.
  intros H. cbn [encode].
  now rewrite (ascii_not_high _ H), (ascii_not_low _ H), (bytes_of_ascii _ H).
Qed.

(** What a code unit that is not ASCII brings: bytes that are not ASCII,
    for itself or for the pair it opens. *)
Lemma encode_cons_noise (c : N) (t : jsstring) :
  is_ascii c = false ->
  exists bs t',
    encode (c :: t) = bs ++ encode t'
    /\ noise bs = true /\ bs <> []
    /\ (t' = t \/ exists l, t = l :: t' /\ is_ascii l = false).
Proof.
  intros H. cbn [encode].
  destruct (is_high c) eqn:Hh.
  - destruct t as [|l t'].
    + exists replacement, []. rewrite app_nil_r.
      repeat split; [discriminate|now left].
    + destruct (is_low l) eqn:Hl.
      * exists (bytes_of (code_point c l)), t'.
        split; [reflexivity|]. split; [|split; [apply bytes_of_nonempty|]].
        -- apply bytes_of_noise. unfold is_ascii, code_point. apply N.ltb_ge. lia.
        -- right. exists l. split; [reflexivity|now apply low_not_ascii].
      * exists replacement, (l :: t').
        repeat split; [discriminate|now left].
  - destruct (is_low c).
    + exists replacement, t. repeat split; [discriminate|now left].
    + exists (bytes_of c), t.
      split; [reflexivity|]. split; [now apply bytes_of_noise|].
      split; [apply bytes_of_nonempty|now left].
Qed.

Lemma noise_existsb (k : N) (bs : bytes) :
  is_ascii k = true -> noise bs = true -> existsb (N.eqb k) bs = false.
Proof.
  intros Hk. induction bs as [|b bs IH]; cbn [noise forallb existsb]; [reflexivity|].
  intros H. apply andb_prop in H as [Hb H]. rewrite (IH H), orb_false_r.
  apply N.eqb_neq. intros ->. rewrite Hk in Hb. discriminate.
Qed.

Lemma eqb_ascii (k c : N) : is_ascii k = true -> is_ascii c = false -> N.eqb k c = false.
Proof. intros Hk Hc. apply N.eqb_neq. intros ->. congruence. Qed.

Lemma encode_cons (x : N) (t : jsstring) :
  encode (x :: t)
  = if is_high x then
      match t with
      | l :: t' =>
          if is_low l then bytes_of (code_point x l) ++ encode t'
          else replacement ++ encode t
      | [] => replacement
      end
    else if is_low x then replacement ++ encode t
    else bytes_of x ++ encode t.
Proof. reflexivity. Qed.

(** An ASCII code unit between two strings is a byte between their
    bytes. *)
Lemma encode_app_ascii (a b : jsstring) (c : N) :
  is_ascii c = true -> encode (a ++ c :: b) = encode a ++ c :: encode b.
Proof.
  intros Hc.
  induction a as [| x | x l t IHt IHlt] using by_pairs.
  - apply (encode_cons_ascii _ _ Hc).
  - change ([x] ++ c :: b) with (x :: c :: b).
    rewrite (encode_cons x (c :: b)), (encode_cons x []).
    rewrite (ascii_not_low _ Hc), (encode_cons_ascii c b Hc).
    change (encode []) with (@nil N).
    destruct (is_high x); [reflexivity|].
    destruct (is_low x); now rewrite app_nil_r.
  - change ((x :: l :: t) ++ c :: b) with (x :: l :: (t ++ c :: b)).
    change ((l :: t) ++ c :: b) with (l :: (t ++ c :: b)) in IHlt.
    rewrite (encode_cons x (l :: (t ++ c :: b))), (encode_cons x (l :: t)).
    destruct (is_high x).
    + destruct (is_low l).
      * now rewrite IHt, app_assoc.
      * now rewrite IHlt, app_assoc.
    + destruct (is_low x); now rewrite IHlt, app_assoc.
Qed.

(** The ASCII bytes of the encoding are the ASCII code units of the
    string. *)
Lemma existsb_encode (k : N) (x : jsstring) :
  is_ascii k = true -> existsb (N.eqb k) (encode x) = existsb (N.eqb k) x.
Proof.
  intros Hk.
  induction x as [| c | c l t IHt IHlt] using by_pairs; [reflexivity| |].
  - destruct (is_ascii c) eqn:Hc.
    + now rewrite (encode_cons_ascii _ _ Hc).
    + destruct (encode_cons_noise c [] Hc) as (bs & t' & -> & Hn & _ & [->|(l & E & _)]);
        [|discriminate].
      cbn [encode existsb]. rewrite app_nil_r, (noise_existsb _ _ Hk Hn).
      now rewrite (eqb_ascii _ _ Hk Hc).
  - destruct (is_ascii c) eqn:Hc.
    + rewrite (encode_cons_ascii _ _ Hc). cbn [existsb] in *. now rewrite IHlt.
    + destruct (encode_cons_noise c (l :: t) Hc)
        as (bs & t' & -> & Hn & _ & [->|(l' & E & Hl')]).
      * rewrite existsb_app, (noise_existsb _ _ Hk Hn), IHlt.
        cbn [existsb orb]. now rewrite (eqb_ascii _ _ Hk Hc).
      * injection E as <- <-.
        rewrite existsb_app, (noise_existsb _ _ Hk Hn), IHt.
        cbn [existsb orb]. now rewrite (eqb_ascii _ _ Hk Hc), (eqb_ascii _ _ Hk Hl').
Qed.

Lemma encode_ascii (a : jsstring) : forallb is_ascii a = true -> encode a = a.
Proof.
  induction a as [|c a IH]; cbn [forallb]; [reflexivity|].
  intros H. apply andb_prop in H as [Hc H].
  now rewrite (encode_cons_ascii _ _ Hc), (IH H).
Qed.

(** Only an ASCII string has ASCII bytes. *)
Lemma encode_eq_ascii (a : bytes) :
  forallb is_ascii a = true -> forall x, encode x = a -> x = a.
Proof.
  induction a as [|c a IH]; cbn [forallb]; intros Ha x Hx.
  - destruct x as [|y t]; [reflexivity|exfalso].
    destruct (is_ascii y) eqn:Hy.
    + rewrite (encode_cons_ascii _ _ Hy) in Hx. discriminate.
    + destruct (encode_cons_noise y t Hy) as (bs & t' & E & _ & Hne & _).
      rewrite E in Hx. destruct bs; [congruence|discriminate].
  - apply andb_prop in Ha as [Hc Ha].
    destruct x as [|y t]; [discriminate|].
    destruct (is_ascii y) eqn:Hy.
    + rewrite (encode_cons_ascii _ _ Hy) in Hx. injection Hx as -> Ht.
      now rewrite (IH Ha _ Ht).
    + exfalso. destruct (encode_cons_noise y t Hy) as (bs & t' & E & Hn & Hne & _).
      rewrite E in Hx. destruct bs as [|b bs]; [congruence|].
      injection Hx as -> _. cbn [noise forallb] in Hn. rewrite Hc in Hn. discriminate.
Qed.

Lemma eqb_encode (a : bytes) (x : jsstring) :
  forallb is_ascii a = true -> Js.eqb (encode x) a = Js.eqb x a.
Proof.
  intros Ha.
  destruct (JsFacts.eqb_spec x a) as [->|Hne].
  - rewrite (encode_ascii _ Ha). apply JsFacts.eqb_refl.
  - apply JsFacts.eqb_neq. intros H. apply Hne. now apply encode_eq_ascii.
Qed.

Lemma encode_nonempty (x : jsstring) : x <> [] -> encode x <> [].
Proof. intros Hx H. apply Hx. now apply (encode_eq_ascii [] eq_refl). Qed.

(** The forms of one, two, three and four bytes, and U+FFFD for a
    surrogate that stands alone. *)
Lemma encode_examples :
  encode (lit "A") = [0x41]%N
  /\ encode [0xE9%N] = [0xC3; 0xA9]%N
  /\ encode [0x20AC%N] = [0xE2; 0x82; 0xAC]%N
  /\ encode [0xD83D; 0xDE00]%N = [0xF0; 0x9F; 0x98; 0x80]%N
  /\ encode [0xD800%N] = [0xEF; 0xBF; 0xBD]%N
  /\ encode [0xDE00; 0xD83D]%N = [0xEF; 0xBF; 0xBD; 0xEF; 0xBF; 0xBD]%N.
Proof. repeat split; vm_compute; reflexivity. Qed.

(** *** Reading the bytes back *)

Lemma quotient (a b : N) :
  b <> 0%N -> exists q r, (a / b = q /\ a mod b = r /\ a = b * q + r /\ r < b)%N.
Proof.
  intros H. exists (a / b)%N, (a mod b)%N.
  repeat split; [now apply N.div_mod|now apply N.mod_lt].
Qed.

Ltac compare_all :=
  repeat match goal with
  | |- context [N.ltb ?a ?b] => destruct (N.ltb_spec a b); try lia
  | |- context [N.leb ?a ?b] => destruct (N.leb_spec a b); try lia
  end;
  cbn [andb negb orb].

Ltac same_units :=
  match goal with
  | |- option_map (app ?l) _ = option_map (app ?l') _ =>
      replace l with l' by (f_equal; lia); reflexivity
  end.

Ltac refute E :=
  exfalso; revert E; unfold is_continuation; compare_all; discriminate.

Ltac take_branch :=
  match goal with
  | |- (if ?c then _ else _) = _ =>
      let E := fresh "E" in
      destruct c eqn:E; [try solve [refute E] | try solve [refute E]]
  end.

Lemma decode_form1 (c : N) (rest : bytes) :
  (c < 0x80)%N -> decode (c :: rest) = option_map (app [c]) (decode rest).
Proof. intros H. cbn [decode]. now compare_all. Qed.

Lemma decode_form2 (q r : N) (rest : bytes) :
  (0x80 <= 0x40 * q + r)%N -> (0x40 * q + r < 0x800)%N -> (r < 0x40)%N ->
  decode ((0xC0 + q)%N :: (0x80 + r)%N :: rest)
  = option_map (app [(0x40 * q + r)%N]) (decode rest).
Proof.
  intros H1 H2 H3. cbn [decode]. repeat take_branch.
  unfold units_of. compare_all; same_units.
Qed.

Lemma decode_form3 (q r1 r0 : N) (rest : bytes) :
  (0x800 <= 0x1000 * q + 0x40 * r1 + r0)%N ->
  (0x1000 * q + 0x40 * r1 + r0 < 0x10000)%N -> (r1 < 0x40)%N -> (r0 < 0x40)%N ->
  (0x1000 * q + 0x40 * r1 + r0 < 0xD800)%N
  \/ (0xDFFF < 0x1000 * q + 0x40 * r1 + r0)%N ->
  decode ((0xE0 + q)%N :: (0x80 + r1)%N :: (0x80 + r0)%N :: rest)
  = option_map (app [(0x1000 * q + 0x40 * r1 + r0)%N]) (decode rest).
Proof.
  intros H1 H2 H3 H4 H5. cbn [decode]. repeat take_branch.
  unfold units_of. compare_all; same_units.
Qed.

Lemma decode_form4 (q r2 r1 r0 h l : N) (rest : bytes) :
  (0x40000 * q + 0x1000 * r2 + 0x40 * r1 + r0 = 0x10000 + 0x400 * h + l)%N ->
  (h < 0x400)%N -> (l < 0x400)%N ->
  (r2 < 0x40)%N -> (r1 < 0x40)%N -> (r0 < 0x40)%N ->
  decode ((0xF0 + q)%N :: (0x80 + r2)%N :: (0x80 + r1)%N :: (0x80 + r0)%N :: rest)
  = option_map (app [(0xD800 + h)%N; (0xDC00 + l)%N]) (decode rest).
Proof.
  intros E Hh Hl H2 H1 H0. cbn [decode]. repeat take_branch.
  unfold units_of. compare_all.
  match goal with
  | |- option_map (app [(_ + ?a / _)%N; (_ + ?b mod _)%N]) _ = _ =>
      assert (Ea : a = (0x400 * h + l)%N) by lia; rewrite !Ea
  end.
  rewrite <- (N.div_unique (0x400 * h + l) 0x400 h l) by lia.
  rewrite <- (N.mod_unique (0x400 * h + l) 0x400 h l) by lia.
  reflexivity.
Qed.

Lemma decode_bytes_of (cp : N) (rest : bytes) :
  (cp < 0x10000)%N -> (cp < 0xD800)%N \/ (0xDFFF < cp)%N ->
  decode (bytes_of cp ++ rest) = option_map (app [cp]) (decode rest).
Proof.
  intros H Hs. unfold bytes_of.
  destruct (quotient cp 0x40) as (q & r & Eq & Er & E & Hr); [lia|].
  destruct (quotient q 0x40) as (q' & r' & Eq' & Er' & E' & Hr'); [lia|].
  assert (E2 : (cp / 0x1000 = q')%N).
  { change 0x1000%N with (0x40 * 0x40)%N. now rewrite <- N.Div0.div_div, Eq, Eq'. }
  rewrite E2, Eq, Er, Er'. clear E2 Eq Er Eq' Er'.
  destruct (N.ltb_spec cp 0x80); [now apply decode_form1|].
  destruct (N.ltb_spec cp 0x800).
  - subst cp. apply decode_form2; lia.
  - destruct (N.ltb_spec cp 0x10000); [|lia].
    replace cp with (0x1000 * q' + 0x40 * r' + r)%N in * by lia.
    apply decode_form3; lia.
Qed.

Lemma decode_pair (h l : N) (rest : bytes) :
  is_high h = true -> is_low l = true ->
  decode (bytes_of (code_point h l) ++ rest) = option_map (app [h; l]) (decode rest).
Proof.
  unfold is_high, is_low. intros Hh Hl.
  apply andb_prop in Hh as [Hh1 Hh2]. apply andb_prop in Hl as [Hl1 Hl2].
  apply N.leb_le in Hh1, Hh2, Hl1, Hl2.
  set (cp := code_point h l).
  assert (Ecp : (cp = 0x10000 + 0x400 * (h - 0xD800) + (l - 0xDC00))%N)
    by (unfold cp, code_point; lia).
  unfold bytes_of.
  destruct (quotient cp 0x40) as (q & r & Eq & Er & E & Hr); [lia|].
  destruct (quotient q 0x40) as (q' & r' & Eq' & Er' & E' & Hr'); [lia|].
  destruct (quotient q' 0x40) as (q'' & r'' & Eq'' & Er'' & E'' & Hr''); [lia|].
  assert (E2 : (cp / 0x1000 = q')%N).
  { change 0x1000%N with (0x40 * 0x40)%N. now rewrite <- N.Div0.div_div, Eq, Eq'. }
  assert (E3 : (cp / 0x40000 = q'')%N).
  { change 0x40000%N with (0x1000 * 0x40)%N. now rewrite <- N.Div0.div_div, E2, Eq''. }
  rewrite E3, E2, Eq, Er, Er', Er''.
  destruct (N.ltb_spec cp 0x80); [lia|].
  destruct (N.ltb_spec cp 0x800); [lia|].
  destruct (N.ltb_spec cp 0x10000); [lia|].
  cbn [app].
  rewrite (decode_form4 q'' r'' r' r (h - 0xD800) (l - 0xDC00)) by lia.
  replace (0xD800 + (h - 0xD800))%N with h by lia.
  replace (0xDC00 + (l - 0xDC00))%N with l by lia.
  reflexivity.
Qed.

Lemma not_surrogate (c : N) :
  is_high c = false -> is_low c = false -> (c < 0xD800)%N \/ (0xDFFF < c)%N.
Proof.
  unfold is_high, is_low.
  destruct (N.leb_spec 0xD800 c), (N.leb_spec c 0xDBFF),
    (N.leb_spec 0xDC00 c), (N.leb_spec c 0xDFFF);
    cbn [andb]; intros; try discriminate; lia.
Qed.

(** What [encode] writes for a string that UTF-8 can carry, [decode]
    reads back. *)
Lemma decode_encode (s : jsstring) :
  well_formed s = true -> decode (encode s) = Some s.
Proof.
  induction s as [| c | c l t IHt IHlt] using by_pairs; [reflexivity| |].
  - cbn [well_formed]. rewrite (encode_cons c []).
    destruct (is_high c) eqn:Hh; [discriminate|].
    destruct (is_low c) eqn:Hl; [discriminate|]. cbn [negb andb].
    rewrite andb_true_r. intros Hc. apply N.ltb_lt in Hc.
    rewrite decode_bytes_of; [reflexivity|exact Hc|].
    now apply not_surrogate.
  - rewrite (encode_cons c (l :: t)).
    change (well_formed (c :: l :: t))
      with (if is_high c then is_low l && well_formed t
            else negb (is_low c) && N.ltb c 0x10000 && well_formed (l :: t)).
    destruct (is_high c) eqn:Hh.
    + destruct (is_low l) eqn:Hl; [|discriminate]. cbn [andb]. intros Ht.
      now rewrite (decode_pair _ _ _ Hh Hl), (IHt Ht).
    + destruct (is_low c) eqn:Hl; [discriminate|]. cbn [negb andb]. intros H.
      apply andb_prop in H as [Hc Ht]. apply N.ltb_lt in Hc.
      rewrite decode_bytes_of, (IHlt Ht); [reflexivity|exact Hc|].
      now apply not_surrogate.
Qed.
End Utf8Facts.

Module DiskFacts.
Import Disk DiskSpec.

Lemma start_with_tree (st : state) (t : inode) (p : bytes) :
  start (with_tree t st) p = start st p.
Proof. reflexivity. Qed.

Lemma split_nonempty (p : bytes) : split p <> [].
Proof.
  destruct p as [|c t]; simpl; [discriminate|].
  destruct (N.eqb c slash); [discriminate|].
  destruct (split t); discriminate.
Qed.

Lemma split_app_slash (p q : bytes) :
  split (p ++ slash :: q) = split p ++ split q.
Proof.
  induction p as [|c t IH]; simpl.
  - reflexivity.
  - destruct (N.eqb c slash); [now rewrite IH|].
    rewrite IH. pose proof (split_nonempty t) as Hne.
    destruct (split t) as [|seg rest]; [congruence|reflexivity].
Qed.

Lemma find_entry_set_entry (k name : bytes) (n : inode) es :
  find_entry k (set_entry name n es)
  = if Js.eqb name k then Some n else find_entry k es.
Proof.
  induction es as [|[k0 v0] rest IH]; simpl.
  - destruct (JsFacts.eqb_spec name k); reflexivity.
  - destruct (JsFacts.eqb_spec k0 name) as [->|Hne]; simpl.
    + destruct (JsFacts.eqb_spec name k); reflexivity.
    + destruct (JsFacts.eqb_spec k0 k) as [->|Hk].
      * destruct (JsFacts.eqb_spec name k); [congruence|reflexivity].
      * exact IH.
Qed.

Lemma find_entry_map_entry (k x : bytes) (f : inode -> inode) es :
  find_entry k (map_entry x f es)
  = if Js.eqb x k then option_map f (find_entry k es) else find_entry k es.
Proof.
  induction es as [|[k0 v0] rest IH]; simpl.
  - destruct (Js.eqb x k); reflexivity.
  - destruct (JsFacts.eqb_spec k0 x) as [->|Hne]; simpl.
    + destruct (JsFacts.eqb_spec x k); reflexivity.
    + destruct (JsFacts.eqb_spec k0 k) as [->|Hk].
      * destruct (JsFacts.eqb_spec x k); [congruence|reflexivity].
      * exact IH.
Qed.

Lemma lookup_app (t : inode) (a b : list bytes) :
  lookup t (a ++ b)
  = match lookup t a with Some n => lookup n b | None => None end.
Proof.
  revert t; induction a as [|x a IH]; intros t; simpl; [reflexivity|].
  destruct t as [data|es]; [reflexivity|].
  destruct (find_entry x es); [apply IH|reflexivity].
Qed.

Lemma lookup_put (d : list bytes) (name : bytes) (n : inode) :
  forall t es, lookup t d = Some (Dir es) ->
    lookup (put d name n t) d = Some (Dir (set_entry name n es)).
Proof.
  induction d as [|x d IH]; intros t es H; simpl in *.
  - injection H as ->. reflexivity.
  - destruct t as [data|es0]; [discriminate|].
    simpl. rewrite find_entry_map_entry, JsFacts.eqb_refl.
    destruct (find_entry x es0) as [c|]; [|discriminate].
    simpl. now apply IH.
Qed.

(** What is found after [put], for any place. *)
Lemma lookup_put_any (d : list bytes) (name : bytes) (n : inode) :
  forall t es, lookup t d = Some (Dir es) ->
  forall p, kind_at (put d name n t) p
            = match strip_prefix (d ++ [name]) p with
              | Some q => kind_at n q
              | None => kind_at t p
              end.
Proof.
  unfold kind_at.
  induction d as [|x d IH]; intros t es H p; simpl in *.
  - injection H as ->. destruct p as [|y p]; simpl; [reflexivity|].
    rewrite find_entry_set_entry.
    destruct (JsFacts.eqb_spec name y) as [->|Hne]; reflexivity.
  - destruct t as [data|es0]; [discriminate|].
    destruct p as [|y p]; simpl; [reflexivity|].
    rewrite find_entry_map_entry.
    destruct (JsFacts.eqb_spec x y) as [->|Hne]; [|reflexivity].
    destruct (find_entry y es0) as [c|]; [|discriminate].
    simpl. now apply IH with (es := es).
Qed.

Lemma strip_prefix_Some (a p q : list bytes) :
  strip_prefix a p = Some q -> p = a ++ q.
Proof.
  revert p; induction a as [|x a IH]; intros [|y p]; simpl; try congruence.
  destruct (JsFacts.eqb_spec x y) as [->|]; [|discriminate].
  intros H. now rewrite (IH _ H).
Qed.

Lemma kind_at_app_None (t : inode) (a b : list bytes) :
  kind_at t a = None -> kind_at t (a ++ b) = None.
Proof.
  unfold kind_at. rewrite lookup_app.
  destruct (lookup t a); [discriminate|reflexivity].
Qed.

Lemma kind_at_app_file (t : inode) (a b : list bytes) k :
  kind_at t a = Some KFile -> kind_at t (a ++ b) = Some k -> b = [] /\ k = KFile.
Proof.
  unfold kind_at. rewrite lookup_app.
  destruct (lookup t a) as [[data|es]|]; simpl; try discriminate.
  intros _. destruct b; simpl; [|discriminate].
  intros H; injection H as <-. auto.
Qed.

(** Adding a new entry, or replacing a file by a file, loses nothing. *)
Lemma put_extends (d : list bytes) (name : bytes) (n : inode) t es :
  lookup t d = Some (Dir es) ->
  kind_at t (d ++ [name]) = None
    \/ (kind_at t (d ++ [name]) = Some KFile /\ kind_of n = KFile) ->
  extends t (put d name n t).
Proof.
  intros Hd Hnew p k Hp.
  rewrite (lookup_put_any _ _ _ _ _ Hd).
  destruct (strip_prefix (d ++ [name]) p) as [q|] eqn:Hq; [|exact Hp].
  apply strip_prefix_Some in Hq. subst p.
  destruct Hnew as [Hnone|[Hfile Hn]].
  - rewrite (kind_at_app_None _ _ q Hnone) in Hp. discriminate.
  - destruct (kind_at_app_file _ _ _ _ Hfile Hp) as [-> ->].
    unfold kind_at; simpl. now rewrite Hn.
Qed.

Lemma extends_refl t : extends t t.
Proof. intros p k H; exact H. Qed.

Lemma extends_trans t1 t2 t3 : extends t1 t2 -> extends t2 t3 -> extends t1 t3.
Proof. intros H12 H23 p k H. apply H23, H12, H. Qed.

Lemma walk_app (t : inode) (a b : list bytes) :
  forall cur, walk t cur (a ++ b) = bind (walk t cur a) (fun d => walk t d b).
Proof.
  induction a as [|c a IH]; intros cur; simpl; [reflexivity|].
  destruct (Js.eqb c [] || Js.eqb c dot); [apply IH|].
  destruct (Js.eqb c dotdot); [apply IH|].
  destruct (kind_at t (cur ++ [c])) as [[|]|]; simpl; try reflexivity.
  apply IH.
Qed.

Lemma walk_extends (t t' : inode) (comps : list bytes) :
  extends t t' ->
  forall cur r, walk t cur comps = Ok r -> walk t' cur comps = Ok r.
Proof.
  intros Hext. induction comps as [|c comps IH]; intros cur r; simpl; [auto|].
  destruct (Js.eqb c [] || Js.eqb c dot); [apply IH|].
  destruct (Js.eqb c dotdot); [apply IH|].
  destruct (kind_at t (cur ++ [c])) as [[|]|] eqn:Hk; try discriminate.
  rewrite (Hext _ _ Hk). apply IH.
Qed.

Lemma walk_empties (t : inode) (n : nat) (cur : list bytes) :
  walk t cur (repeat [] n) = Ok cur.
Proof. induction n as [|n IH]; simpl; [reflexivity|exact IH]. Qed.

Lemma strip_trailing_spec (comps : list bytes) :
  exists n, comps = strip_trailing comps ++ repeat [] n.
Proof.
  induction comps as [|c rest [n IH]]; simpl.
  - exists 0. reflexivity.
  - destruct (strip_trailing rest) as [|c' rest'] eqn:Hs.
    + destruct c as [|x c].
      * exists (S n). simpl in *. now rewrite IH at 1.
      * exists n. simpl in *. now rewrite IH at 1.
    + exists n. simpl. now rewrite IH at 1.
Qed.

Lemma strip_trailing_snoc (comps : list bytes) (x : bytes) :
  x <> [] -> strip_trailing (comps ++ [x]) = comps ++ [x].
Proof.
  intros Hx. induction comps as [|c rest IH]; simpl.
  - destruct x; [congruence|reflexivity].
  - rewrite IH. destruct (rest ++ [x]) eqn:E; [|reflexivity].
    destruct rest; discriminate.
Qed.

Lemma start_app (st : state) (p q : bytes) :
  p <> [] -> start st (p ++ q) = start st p.
Proof. destruct p; [congruence|reflexivity]. Qed.

Lemma check_path_app (p q : bytes) :
  check_path p = Ok tt -> existsb (N.eqb 0) q = false -> check_path (p ++ q) = Ok tt.
Proof.
  unfold check_path. rewrite existsb_app.
  destruct (existsb (N.eqb 0) p); [discriminate|].
  intros Hp Hq. simpl. rewrite Hq. destruct p; [discriminate|reflexivity].
Qed.

Lemma split_no_slash (x : bytes) :
  existsb (N.eqb slash) x = false -> split x = [x].
Proof.
  induction x as [|c x IH]; cbn [existsb split]; [reflexivity|].
  rewrite (N.eqb_sym slash c).
  destruct (N.eqb c slash); cbn [orb]; [discriminate|].
  intros H. now rewrite (IH H).
Qed.

Lemma simple_name_spec (x : bytes) :
  simple_name x = true ->
  is_special x = false /\ split x = [x] /\ existsb (N.eqb 0) x = false /\ x <> [].
Proof.
  unfold simple_name. intros H.
  apply andb_prop in H as [H H0]. apply andb_prop in H as [Hs Hsl].
  apply negb_true_iff in Hs, Hsl, H0.
  repeat split; auto using split_no_slash.
  intros ->. discriminate.
Qed.

Lemma set_entry_fresh (x : bytes) (n : inode) es :
  find_entry x es = None -> set_entry x n es = es ++ [(x, n)].
Proof.
  induction es as [|[k v] rest IH]; simpl; [reflexivity|].
  destruct (Js.eqb k x); [discriminate|].
  intros H. now rewrite (IH H).
Qed.

Lemma not_special (x : bytes) :
  is_special x = false ->
  Js.eqb x [] || Js.eqb x dot = false /\ Js.eqb x dotdot = false.
Proof.
  unfold is_special. intros H.
  apply orb_false_iff in H as [H ->]. auto.
Qed.

Lemma kind_at_child (t : inode) (D : list bytes) (x : bytes) es :
  lookup t D = Some (Dir es) ->
  kind_at t (D ++ [x]) = option_map kind_of (find_entry x es).
Proof.
  intros H. unfold kind_at. rewrite lookup_app, H. simpl.
  destruct (find_entry x es); reflexivity.
Qed.

Lemma lookup_child (t : inode) (D : list bytes) (x : bytes) es :
  lookup t D = Some (Dir es) -> lookup t (D ++ [x]) = find_entry x es.
Proof.
  intros H. rewrite lookup_app, H. simpl.
  destruct (find_entry x es); reflexivity.
Qed.

Lemma kind_at_dir (t : inode) (D : list bytes) es :
  lookup t D = Some (Dir es) -> kind_at t D = Some KDir.
Proof. intros H. unfold kind_at. now rewrite H. Qed.

Lemma kind_at_dir_inv (t : inode) (D : list bytes) :
  kind_at t D = Some KDir -> exists es, lookup t D = Some (Dir es).
Proof.
  unfold kind_at. destruct (lookup t D) as [[data|es]|]; simpl; try discriminate.
  eauto.
Qed.

Lemma resolve_extends (st : state) (t' : inode) (p : bytes) D :
  extends (tree st) t' ->
  resolve st p = Ok D ->
  resolve (with_tree t' st) p = Ok D.
Proof.
  intros Hext. unfold resolve, parent_of. rewrite start_with_tree.
  cbn [tree with_tree].
  destruct (check_path p) as [[]|]; cbn [bind]; [|discriminate].
  destruct (walk (tree st) _ (removelast (split p))) as [d|] eqn:Hw; cbn [bind]; [|discriminate].
  rewrite (walk_extends _ _ _ Hext _ _ Hw). cbn [bind].
  destruct (kind_at (tree st) d) as [[|]|] eqn:Hk; cbn [bind]; try discriminate.
  rewrite (Hext _ _ Hk). cbn [bind].
  destruct (is_special (last (split p) [])); [|auto].
  apply (walk_extends _ _ _ Hext).
Qed.

Lemma child_parent st p D es x :
  in_dir st p D es -> simple_name x = true ->
  check_path (p ++ slash :: x) = Ok tt
  /\ split (p ++ slash :: x) = split p ++ [x]
  /\ parent_of st (split p ++ [x]) (p ++ slash :: x) = Ok (D, x).
Proof.
  intros (Hc & Hw & _ & Hl) Hx.
  destruct (simple_name_spec _ Hx) as (Hs & Hsplit & Hnul & Hne).
  assert (Hp : p <> []) by (intros ->; discriminate).
  split; [|split].
  - apply check_path_app; [exact Hc|]. simpl. exact Hnul.
  - now rewrite split_app_slash, Hsplit.
  - unfold parent_of. rewrite removelast_last, last_last, (start_app _ _ _ Hp), Hw.
    simpl. now rewrite (kind_at_dir _ _ _ Hl).
Qed.

Lemma in_dir_put st p D es x n :
  in_dir st p D es -> find_entry x es = None ->
  in_dir (with_tree (put D x n (tree st)) st) p D (es ++ [(x, n)])
  /\ extends (tree st) (put D x n (tree st)).
Proof.
  intros (Hc & Hw & Ht & Hl) Hx.
  assert (Hext : extends (tree st) (put D x n (tree st))).
  { apply put_extends with (es := es); [exact Hl|left].
    now rewrite (kind_at_child _ _ _ _ Hl), Hx. }
  split; [|exact Hext].
  unfold in_dir. rewrite start_with_tree. cbn [tree with_tree].
  split; [exact Hc|]. split; [apply (walk_extends _ _ _ Hext); exact Hw|].
  split; [apply (resolve_extends _ _ _ _ Hext); exact Ht|].
  rewrite (lookup_put _ _ _ _ _ Hl). now rewrite set_entry_fresh.
Qed.

(** The calls on a name below a directory that a path leads to. *)
Lemma write_file_in st p D es x data :
  in_dir st p D es -> simple_name x = true ->
  write_file st (p ++ slash :: x) data
  = match find_entry x es with
    | Some (Dir _) => Throw EISDIR
    | _ =>
        match refuses st (D ++ [x]) with
        | Some e => Throw e
        | None => Ok (with_tree (put D x (File data) (tree st)) st)
        end
    end.
Proof.
  intros Hin Hx.
  destruct (child_parent _ _ _ _ _ Hin Hx) as (Hc & Hs & Hp).
  destruct (simple_name_spec _ Hx) as (Hsp & _).
  destruct Hin as (? & ? & ? & Hl).
  unfold write_file. rewrite Hc, Hs, Hp. cbn [bind]. rewrite Hsp.
  rewrite (kind_at_child _ _ _ _ Hl).
  destruct (find_entry x es) as [[|]|]; reflexivity.
Qed.

Lemma mkdir_in st p D es x :
  in_dir st p D es -> simple_name x = true ->
  mkdir st (p ++ slash :: x)
  = match find_entry x es with
    | Some _ => Throw EEXIST
    | None =>
        match refuses st (D ++ [x]) with
        | Some e => Throw e
        | None => Ok (with_tree (put D x (Dir []) (tree st)) st)
        end
    end.
Proof.
  intros Hin Hx.
  destruct (child_parent _ _ _ _ _ Hin Hx) as (Hc & Hs & Hp).
  destruct (simple_name_spec _ Hx) as (Hsp & _ & _ & Hne).
  destruct Hin as (? & ? & ? & Hl).
  unfold mkdir. rewrite Hc, Hs. cbn [bind].
  rewrite (strip_trailing_snoc _ _ Hne).
  destruct (split p ++ [x]) as [|c l] eqn:E; [destruct (split p); discriminate|].
  rewrite Hp. cbn [bind]. rewrite Hsp.
  rewrite (kind_at_child _ _ _ _ Hl).
  destruct (find_entry x es) as [[|]|]; reflexivity.
Qed.

(** A successful [mkdir] has made a new, empty directory, to which the
    path leads from then on. *)
Lemma mkdir_fresh st p st1 :
  mkdir st p = Ok st1 ->
  exists d name es,
    lookup (tree st) d = Some (Dir es)
    /\ kind_at (tree st) (d ++ [name]) = None
    /\ refuses st (d ++ [name]) = None
    /\ st1 = with_tree (put d name (Dir []) (tree st)) st
    /\ in_dir st1 p (d ++ [name]) []
    /\ extends (tree st) (tree st1).
Proof.
  unfold mkdir.
  destruct (check_path p) as [[]|] eqn:Hc; cbn [bind]; [|discriminate].
  destruct (strip_trailing_spec (split p)) as [n Hn].
  destruct (strip_trailing (split p)) as [|c l]; [discriminate|].
  assert (Hne : c :: l <> []) by discriminate.
  remember (c :: l) as comps eqn:Hcomps. clear Hcomps c l.
  unfold parent_of.
  destruct (walk (tree st) (start st p) (removelast comps)) as [d|] eqn:Hw;
    cbn [bind]; [|discriminate].
  destruct (kind_at (tree st) d) as [[|]|] eqn:Hk; cbn [bind]; try discriminate.
  set (name := last comps []) in *.
  destruct (is_special name) eqn:Hsp; [discriminate|].
  destruct (kind_at (tree st) (d ++ [name])) eqn:Hnone; [discriminate|].
  destruct (refuses st (d ++ [name])) eqn:Hfree; [discriminate|].
  intros H; injection H as <-.
  destruct (kind_at_dir_inv _ _ Hk) as [es0 Hl].
  destruct (not_special _ Hsp) as [Hs1 Hs2].
  set (t1 := put d name (Dir []) (tree st)).
  assert (Hext : extends (tree st) t1).
  { apply put_extends with (es := es0); auto. }
  assert (Hl1 : lookup t1 d = Some (Dir (set_entry name (Dir []) es0))).
  { apply lookup_put. exact Hl. }
  assert (HD : lookup t1 (d ++ [name]) = Some (Dir [])).
  { rewrite (lookup_child _ _ _ _ Hl1), find_entry_set_entry, JsFacts.eqb_refl.
    reflexivity. }
  assert (Hwalk : forall m, walk t1 (start st p) (comps ++ repeat [] m)
                            = Ok (d ++ [name])).
  { intros m. rewrite (app_removelast_last [] Hne) at 1. fold name.
    rewrite <- app_assoc, walk_app, (walk_extends _ _ _ Hext _ _ Hw).
    cbn [bind app walk]. rewrite Hs1, Hs2, (kind_at_dir _ _ _ HD).
    apply walk_empties. }
  exists d, name, es0.
  split; [exact Hl|]. split; [exact Hnone|]. split; [exact Hfree|].
  split; [reflexivity|]. split; [|exact Hext].
  unfold in_dir. rewrite start_with_tree. cbn [tree with_tree]. fold t1.
  split; [exact Hc|]. split; [rewrite Hn; apply Hwalk|]. split; [|exact HD].
  unfold resolve, parent_of. rewrite Hc, start_with_tree. cbn [bind tree with_tree].
  fold t1. rewrite Hn. destruct n as [|m].
  - cbn [repeat]. rewrite app_nil_r.
    rewrite (walk_extends _ _ _ Hext _ _ Hw). cbn [bind].
    rewrite (kind_at_dir _ _ _ Hl1). cbn [bind]. fold name. now rewrite Hsp.
  - cbn [repeat]. rewrite repeat_cons, app_assoc, removelast_last, last_last.
    rewrite Hwalk. cbn [bind]. rewrite (kind_at_dir _ _ _ HD).
    reflexivity.
Qed.

Lemma stat_in st p D es : in_dir st p D es -> stat st p = Ok KDir.
Proof.
  intros (_ & _ & Ht & Hl). unfold stat. rewrite Ht. cbn [bind].
  now rewrite (kind_at_dir _ _ _ Hl).
Qed.

Lemma read_dir_in st p D es :
  in_dir st p D es -> read_dir st p = Ok (sort_by (rank st D) (map fst es)).
Proof.
  intros (_ & _ & Ht & Hl). unfold read_dir, locate. rewrite Ht. cbn [bind].
  rewrite (kind_at_dir _ _ _ Hl). cbn [bind]. now rewrite Hl.
Qed.

Lemma resolve_child st p D es x :
  in_dir st p D es -> simple_name x = true ->
  resolve st (p ++ slash :: x) = Ok (D ++ [x]).
Proof.
  intros Hin Hx.
  destruct (child_parent _ _ _ _ _ Hin Hx) as (Hc & Hs & Hp).
  destruct (simple_name_spec _ Hx) as (Hsp & _).
  unfold resolve. rewrite Hc, Hs, Hp. cbn [bind]. now rewrite Hsp.
Qed.

Lemma read_file_child st p D es x data :
  in_dir st p D es -> simple_name x = true ->
  find_entry x es = Some (File data) ->
  read_file st (p ++ slash :: x) = Ok data.
Proof.
  intros Hin Hx Hf. unfold read_file, locate.
  rewrite (resolve_child _ _ _ _ _ Hin Hx). cbn [bind].
  destruct Hin as (_ & _ & _ & Hl).
  rewrite (kind_at_child _ _ _ _ Hl), Hf. cbn [option_map bind].
  now rewrite (lookup_child _ _ _ _ Hl), Hf.
Qed.

Lemma read_dir_child st p D es x es' :
  in_dir st p D es -> simple_name x = true ->
  find_entry x es = Some (Dir es') ->
  read_dir st (p ++ slash :: x) = Ok (sort_by (rank st (D ++ [x])) (map fst es')).
Proof.
  intros Hin Hx Hf. unfold read_dir, locate.
  rewrite (resolve_child _ _ _ _ _ Hin Hx). cbn [bind].
  destruct Hin as (_ & _ & _ & Hl).
  rewrite (kind_at_child _ _ _ _ Hl), Hf. cbn [option_map bind].
  now rewrite (lookup_child _ _ _ _ Hl), Hf.
Qed.

(** A listing holds the names of the directory, each once for each
    entry, whatever the ranks. *)
Lemma insert_by_perm (r : bytes -> N) (x : bytes) (l : list bytes) :
  Permutation (insert_by r x l) (x :: l).
Proof.
  induction l as [|y l IH]; cbn [insert_by]; [apply Permutation_refl|].
  destruct (N.leb (r x) (r y)); [apply Permutation_refl|].
  apply perm_trans with (y :: x :: l); [now apply perm_skip|apply perm_swap].
Qed.

Lemma sort_by_perm (r : bytes -> N) (l : list bytes) : Permutation (sort_by r l) l.
Proof.
  induction l as [|x l IH]; cbn [sort_by fold_right]; [apply Permutation_refl|].
  apply perm_trans with (x :: sort_by r l); [apply insert_by_perm|now apply perm_skip].
Qed.

(** *** What a new entry leaves alone *)

Lemma item_at_put (d : list bytes) (name : bytes) (n : inode) :
  forall t es, lookup t d = Some (Dir es) ->
  forall q, item_at (put d name n t) q
            = match strip_prefix (d ++ [name]) q with
              | Some r => item_at n r
              | None => item_at t q
              end.
Proof.
  unfold item_at.
  induction d as [|x d IH]; intros t es H q; simpl in *.
  - injection H as ->. destruct q as [|y q]; simpl; [reflexivity|].
    rewrite find_entry_set_entry.
    destruct (JsFacts.eqb_spec name y) as [->|Hne]; reflexivity.
  - destruct t as [data|es0]; [discriminate|].
    destruct q as [|y q]; simpl; [reflexivity|].
    rewrite find_entry_map_entry.
    destruct (JsFacts.eqb_spec x y) as [->|Hne]; [|reflexivity].
    destruct (find_entry y es0) as [c|]; [|discriminate].
    simpl. now apply IH with (es := es).
Qed.

Lemma item_at_kind (t : inode) (q : list bytes) :
  kind_at t q = None -> item_at t q = None.
Proof.
  unfold kind_at, item_at. destruct (lookup t q) as [[|]|]; simpl; congruence.
Qed.

Lemma item_at_app_None (t : inode) (a b : list bytes) :
  kind_at t a = None -> item_at t (a ++ b) = None.
Proof. intros H. apply item_at_kind. now apply kind_at_app_None. Qed.

Lemma strip_prefix_snoc_None (D q : list bytes) (x : bytes) :
  strip_prefix D q = None -> strip_prefix (D ++ [x]) q = None.
Proof.
  revert q; induction D as [|y D IH]; intros q; cbn [strip_prefix app]; [discriminate|].
  destruct q as [|z q]; [reflexivity|].
  destruct (Js.eqb y z); [apply IH|reflexivity].
Qed.

(** A new entry changes nothing outside the place where it is put. *)
Lemma put_outside (d : list bytes) (name : bytes) (n : inode) t es q :
  lookup t d = Some (Dir es) ->
  strip_prefix (d ++ [name]) q = None ->
  item_at (put d name n t) q = item_at t q.
Proof. intros Hd Hq. now rewrite (item_at_put _ _ _ _ _ Hd), Hq. Qed.

Lemma put_keeps (d : list bytes) (name : bytes) (n : inode) t es :
  lookup t d = Some (Dir es) ->
  kind_at t (d ++ [name]) = None ->
  keeps t (put d name n t).
Proof.
  intros Hd Hnew q i Hq. rewrite (item_at_put _ _ _ _ _ Hd).
  destruct (strip_prefix (d ++ [name]) q) as [r|] eqn:Hr; [|exact Hq].
  apply strip_prefix_Some in Hr. subst q.
  rewrite (item_at_app_None _ _ r Hnew) in Hq. discriminate.
Qed.

Lemma keeps_refl t : keeps t t.
Proof. intros q i H; exact H. Qed.

Lemma keeps_trans t1 t2 t3 : keeps t1 t2 -> keeps t2 t3 -> keeps t1 t3.
Proof. intros H12 H23 q i H. apply H23, H12, H. Qed.

(** One step below a directory: the disk after it, what it keeps and
    what it leaves alone. *)
Lemma step_in_dir st p D es x n :
  in_dir st p D es -> find_entry x es = None ->
  let st' := with_tree (put D x n (tree st)) st in
  in_dir st' p D (es ++ [(x, n)])
  /\ keeps (tree st) (tree st')
  /\ (forall q, strip_prefix D q = None -> item_at (tree st') q = item_at (tree st) q).
Proof.
  intros Hin Hfresh st'.
  destruct (in_dir_put _ _ _ _ x n Hin Hfresh) as [Hin' _].
  destruct Hin as (_ & _ & _ & Hl).
  split; [exact Hin'|]. split.
  - apply put_keeps with (es := es); [exact Hl|].
    now rewrite (kind_at_child _ _ _ _ Hl), Hfresh.
  - intros q Hq. apply put_outside with (es := es); [exact Hl|].
    now apply strip_prefix_snoc_None.
Qed.

(** A path that [stat] finds to be a directory leads to that directory. *)
Lemma stat_dir st root :
  stat st root = Ok KDir -> exists D es, in_dir st root D es.
Proof.
  unfold stat.
  destruct (resolve st root) as [r|] eqn:Ht; cbn [bind]; [|discriminate].
  destruct (kind_at (tree st) r) as [[|]|] eqn:Hr; try discriminate. intros _.
  destruct (kind_at_dir_inv _ _ Hr) as [es Hl].
  exists r, es. unfold in_dir. rewrite Ht, Hl.
  revert Ht. unfold resolve, parent_of.
  destruct (check_path root) as [[]|] eqn:Hc; cbn [bind]; [|discriminate].
  destruct (walk (tree st) (start st root) (removelast (split root))) as [d|] eqn:Hw;
    cbn [bind]; [|discriminate].
  destruct (kind_at (tree st) d) as [[|]|] eqn:Hd; cbn [bind]; try discriminate.
  intros Hlast. repeat split.
  rewrite (app_removelast_last [] (split_nonempty root)), walk_app, Hw. cbn [bind].
  destruct (is_special (last (split root) [])) eqn:Hsp; [exact Hlast|].
  destruct (not_special _ Hsp) as [Hs1 Hs2]. injection Hlast as <-.
  cbn [walk]. now rewrite Hs1, Hs2, Hr.
Qed.

(** A directory named by a path is also named by the path followed by a
    slash. *)
Lemma resolve_trailing_slash st root :
  stat st root = Ok KDir ->
  resolve st (root ++ [slash]) = resolve st root
  /\ stat st (root ++ [slash]) = Ok KDir.
Proof.
  intros Hstat. destruct (stat_dir _ _ Hstat) as (D & es & Hc & Hw & Ht & Hl).
  assert (Hroot : root <> []) by (intros ->; discriminate).
  assert (Hslash : resolve st (root ++ [slash]) = Ok D).
  { unfold resolve, parent_of.
    rewrite (check_path_app _ [slash] Hc eq_refl). cbn [bind].
    rewrite split_app_slash. change (split []) with [@nil N].
    rewrite removelast_last, last_last, (start_app _ _ _ Hroot), Hw. cbn [bind].
    rewrite (kind_at_dir _ _ _ Hl). reflexivity. }
  split; [now rewrite Hslash, Ht|].
  unfold stat. rewrite Hslash. cbn [bind]. now rewrite (kind_at_dir _ _ _ Hl).
Qed.

(** What leads to a directory goes through directories. *)
Lemma kind_at_removelast (t : inode) (d : list bytes) :
  kind_at t d = Some KDir -> kind_at t (removelast d) = Some KDir.
Proof.
  induction d as [|x d' _] using rev_ind; [auto|].
  rewrite removelast_last. unfold kind_at. rewrite lookup_app.
  destruct (lookup t d') as [[data|es]|]; cbn [lookup]; try discriminate.
  reflexivity.
Qed.

(** Below a file nothing can be found or made. *)
Lemma below_file st root x :
  stat st root = Ok KFile -> simple_name x = true ->
  resolve st (root ++ slash :: x) = Throw ENOTDIR
  /\ mkdir st (root ++ slash :: x) = Throw ENOTDIR.
Proof.
  intros Hstat Hx.
  destruct (simple_name_spec _ Hx) as (_ & Hsplit & Hnul & Hne).
  revert Hstat. unfold stat.
  destruct (resolve st root) as [r|] eqn:Ht; cbn [bind]; [|discriminate].
  destruct (kind_at (tree st) r) as [[|]|] eqn:Hr; try discriminate. intros _.
  revert Ht. unfold resolve at 1, parent_of.
  destruct (check_path root) as [[]|] eqn:Hc; cbn [bind]; [|discriminate].
  destruct (walk (tree st) (start st root) (removelast (split root))) as [d|] eqn:Hw;
    cbn [bind]; [|discriminate].
  destruct (kind_at (tree st) d) as [[|]|] eqn:Hd; cbn [bind]; try discriminate.
  set (name := last (split root) []).
  assert (Hroot : root <> []) by (intros ->; discriminate).
  assert (Hparent : is_special name = false -> r = d ++ [name] ->
            parent_of st (split root ++ [x]) (root ++ slash :: x) = Throw ENOTDIR).
  { intros Hsp ->. destruct (not_special _ Hsp) as [Hs1 Hs2].
    unfold parent_of. rewrite removelast_last, (start_app _ _ _ Hroot).
    rewrite (app_removelast_last [] (split_nonempty root)), walk_app, Hw.
    cbn [bind walk]. fold name. now rewrite Hs1, Hs2, Hr. }
  destruct (is_special name) eqn:Hsp.
  - intros Hlast. exfalso. revert Hlast. cbn [walk].
    destruct (Js.eqb name [] || Js.eqb name dot) eqn:E1.
    + intros H; injection H as <-. congruence.
    + unfold is_special in Hsp. rewrite E1 in Hsp. cbn [orb] in Hsp. rewrite Hsp.
      intros H; injection H as <-.
      rewrite (kind_at_removelast _ _ Hd) in Hr. discriminate.
  - intros H; injection H as <-. specialize (Hparent eq_refl eq_refl).
    assert (Hcheck : check_path (root ++ slash :: x) = Ok tt).
    { apply check_path_app; [exact Hc|]. cbn [existsb]. exact Hnul. }
    assert (Hs : split (root ++ slash :: x) = split root ++ [x])
      by (now rewrite split_app_slash, Hsplit).
    split.
    + unfold resolve. rewrite Hcheck, Hs, Hparent. reflexivity.
    + unfold mkdir. rewrite Hcheck, Hs. cbn [bind].
      rewrite (strip_trailing_snoc _ _ Hne).
      destruct (split root ++ [x]) as [|c l] eqn:E; [destruct (split root); discriminate|].
      rewrite Hparent. reflexivity.
Qed.

End DiskFacts.

(** ** The calls of Node *)
Module NodeFacts.
Import Disk DiskSpec DiskFacts Utf8Facts.

Lemma simple_name_encode (x : jsstring) :
  simple_name x = true -> simple_name (Utf8.encode x) = true.
Proof.
  unfold simple_name, is_special.
  rewrite !eqb_encode by reflexivity. rewrite !existsb_encode by reflexivity.
  auto.
Qed.

Lemma encode_child (p x : jsstring) :
  Utf8.encode (p ++ slash :: x) = Utf8.encode p ++ slash :: Utf8.encode x.
Proof. apply encode_app_ascii. reflexivity. Qed.

Lemma statSync_in st p D es : in_dir st (Utf8.encode p) D es -> statSync st p = Ok KDir.
Proof. apply stat_in. Qed.

Lemma stat_in_dir st root :
  statSync st root = Ok KDir -> exists D es, in_dir st (Utf8.encode root) D es.
Proof. apply stat_dir. Qed.

Lemma target_trailing_slash st root :
  statSync st root = Ok KDir ->
  target st (root ++ [slash]) = target st root
  /\ statSync st (root ++ [slash]) = Ok KDir.
Proof.
  unfold statSync, target. rewrite (encode_child root []).
  apply resolve_trailing_slash.
Qed.

Lemma target_child st p D es x :
  in_dir st (Utf8.encode p) D es -> simple_name x = true ->
  target st (p ++ slash :: x) = Ok (D ++ [Utf8.encode x]).
Proof.
  intros Hin Hx. unfold target. rewrite encode_child.
  exact (resolve_child _ _ _ _ _ Hin (simple_name_encode _ Hx)).
Qed.

Lemma existsSync_child st p D es x :
  in_dir st (Utf8.encode p) D es -> simple_name x = true ->
  existsSync st (p ++ slash :: x)
  = match find_entry (Utf8.encode x) es with Some _ => true | None => false end.
Proof.
  intros Hin Hx. unfold existsSync, statSync, stat.
  fold (target st (p ++ slash :: x)). rewrite (target_child _ _ _ _ _ Hin Hx).
  cbn [bind]. destruct Hin as (_ & _ & _ & Hl).
  rewrite (kind_at_child _ _ _ _ Hl).
  destruct (find_entry (Utf8.encode x) es); reflexivity.
Qed.

Lemma mkdirSync_child st p D es x :
  in_dir st (Utf8.encode p) D es -> simple_name x = true ->
  mkdirSync st (p ++ slash :: x)
  = match find_entry (Utf8.encode x) es with
    | Some _ => Throw EEXIST
    | None =>
        match refuses st (D ++ [Utf8.encode x]) with
        | Some e => Throw e
        | None => Ok (with_tree (put D (Utf8.encode x) (Dir []) (tree st)) st)
        end
    end.
Proof.
  intros Hin Hx. unfold mkdirSync. rewrite encode_child.
  exact (mkdir_in _ _ _ _ _ Hin (simple_name_encode _ Hx)).
Qed.

Lemma writeFileSync_child st p D es x data :
  in_dir st (Utf8.encode p) D es -> simple_name x = true ->
  writeFileSync st (p ++ slash :: x) data
  = match find_entry (Utf8.encode x) es with
    | Some (Dir _) => Throw EISDIR
    | _ =>
        match refuses st (D ++ [Utf8.encode x]) with
        | Some e => Throw e
        | None =>
            Ok (with_tree (put D (Utf8.encode x) (File (Utf8.encode data)) (tree st)) st)
        end
    end.
Proof.
  intros Hin Hx. unfold writeFileSync. rewrite encode_child.
  exact (write_file_in _ _ _ _ _ _ Hin (simple_name_encode _ Hx)).
Qed.

Lemma readdirSync_in st p D es :
  in_dir st (Utf8.encode p) D es ->
  readdirSync st p = Ok (sort_by (rank st D) (map fst es)).
Proof. apply read_dir_in. Qed.

Lemma readdirSync_child st p D es x es' :
  in_dir st (Utf8.encode p) D es -> simple_name x = true ->
  find_entry (Utf8.encode x) es = Some (Dir es') ->
  readdirSync st (p ++ slash :: x)
  = Ok (sort_by (rank st (D ++ [Utf8.encode x])) (map fst es')).
Proof.
  intros Hin Hx Hf. unfold readdirSync. rewrite encode_child.
  exact (read_dir_child _ _ _ _ _ _ Hin (simple_name_encode _ Hx) Hf).
Qed.

Lemma readFileSync_child st p D es x data :
  in_dir st (Utf8.encode p) D es -> simple_name x = true ->
  find_entry (Utf8.encode x) es = Some (File data) ->
  readFileSync st (p ++ slash :: x) = Ok data.
Proof.
  intros Hin Hx Hf. unfold readFileSync. rewrite encode_child.
  exact (read_file_child _ _ _ _ _ _ Hin (simple_name_encode _ Hx) Hf).
Qed.

(** *** How the disk grows *)

Lemma grown_mkdirSync st p st1 :
  mkdirSync st p = Ok st1 ->
  exists D, grown st st1 (Utf8.encode p) D [] /\ refuses st D = None
            /\ forall T, target st p = Ok T -> T = D.
Proof.
  unfold mkdirSync, target. intros Hmk.
  destruct (mkdir_fresh _ _ _ Hmk)
    as (d & name & es & Hl & Hnew & Hfree & -> & Hin & Hext).
  exists (d ++ [name]). split; [|split; [exact Hfree|]].
  - unfold grown. cbn [tree cwd refuses rank with_tree].
    split; [exact Hin|]. split; [exact Hnew|].
    split; [reflexivity|]. split; [reflexivity|]. split; [reflexivity|].
    split.
    + now apply put_keeps with (es := es).
    + intros q Hq. now apply put_outside with (es := es).
  - intros T HT. cbn [tree with_tree] in Hext.
    pose proof (resolve_extends _ _ _ _ Hext HT) as HT'.
    destruct Hin as (_ & _ & Hr & _). rewrite Hr in HT'. congruence.
Qed.

Lemma grown_put st st1 p D es x n :
  grown st st1 p D es -> find_entry x es = None ->
  grown st (with_tree (put D x n (tree st1)) st1) p D (es ++ [(x, n)]).
Proof.
  intros (Hin & Hnew & Hcwd & Href & Hrank & Hkeeps & Hout) Hfresh.
  destruct (step_in_dir _ _ _ _ x n Hin Hfresh) as (Hin' & K & O).
  unfold grown. cbn [tree cwd refuses rank with_tree] in *.
  split; [exact Hin'|]. split; [exact Hnew|].
  split; [exact Hcwd|]. split; [exact Href|]. split; [exact Hrank|].
  split.
  - exact (keeps_trans _ _ _ Hkeeps K).
  - intros q Hq. rewrite (O q Hq). exact (Hout q Hq).
Qed.

Lemma grown_writeFileSync st st1 p D es x data st2 :
  grown st st1 (Utf8.encode p) D es -> simple_name x = true ->
  find_entry (Utf8.encode x) es = None ->
  writeFileSync st1 (p ++ slash :: x) data = Ok st2 ->
  grown st st2 (Utf8.encode p) D
    (es ++ [(Utf8.encode x, File (Utf8.encode data))])
  /\ refuses st (D ++ [Utf8.encode x]) = None.
Proof.
  intros Hg Hx Hfresh.
  pose proof Hg as (Hin & _ & _ & Href & _).
  rewrite (writeFileSync_child _ _ _ _ _ data Hin Hx), Hfresh, Href.
  destruct (refuses st (D ++ [Utf8.encode x])); [discriminate|].
  intros H; injection H as <-.
  split; [now apply grown_put|reflexivity].
Qed.

Lemma grown_mkdirSync_child st st1 p D es x st2 :
  grown st st1 (Utf8.encode p) D es -> simple_name x = true ->
  find_entry (Utf8.encode x) es = None ->
  mkdirSync st1 (p ++ slash :: x) = Ok st2 ->
  grown st st2 (Utf8.encode p) D (es ++ [(Utf8.encode x, Dir [])])
  /\ refuses st (D ++ [Utf8.encode x]) = None.
Proof.
  intros Hg Hx Hfresh.
  pose proof Hg as (Hin & _ & _ & Href & _).
  rewrite (mkdirSync_child _ _ _ _ _ Hin Hx), Hfresh, Href.
  destruct (refuses st (D ++ [Utf8.encode x])); [discriminate|].
  intros H; injection H as <-.
  split; [now apply grown_put|reflexivity].
Qed.

(** The calls below a directory go through when the name is free and
    the file system has nothing against it. *)
Lemma writeFileSync_free st st1 p D es x data :
  grown st st1 (Utf8.encode p) D es -> simple_name x = true ->
  find_entry (Utf8.encode x) es = None ->
  refuses st (D ++ [Utf8.encode x]) = None ->
  exists st2, writeFileSync st1 (p ++ slash :: x) data = Ok st2.
Proof.
  intros Hg Hx Hfresh Hfree.
  pose proof Hg as (Hin & _ & _ & Href & _).
  rewrite (writeFileSync_child _ _ _ _ _ data Hin Hx), Hfresh, Href, Hfree.
  eauto.
Qed.

Lemma mkdirSync_free st st1 p D es x :
  grown st st1 (Utf8.encode p) D es -> simple_name x = true ->
  find_entry (Utf8.encode x) es = None ->
  refuses st (D ++ [Utf8.encode x]) = None ->
  exists st2, mkdirSync st1 (p ++ slash :: x) = Ok st2.
Proof.
  intros Hg Hx Hfresh Hfree.
  pose proof Hg as (Hin & _ & _ & Href & _).
  rewrite (mkdirSync_child _ _ _ _ _ Hin Hx), Hfresh, Href, Hfree.
  eauto.
Qed.

(** Making a directory under a root that is a directory: the name is
    free, and the file system has the last word. *)
Lemma mkdirSync_under_root st root name T :
  statSync st root = Ok KDir -> simple_name name = true ->
  existsSync st (root ++ slash :: name) = false ->
  target st (root ++ slash :: name) = Ok T ->
  match refuses st T with
  | Some e => mkdirSync st (root ++ slash :: name) = Throw e
  | None =>
      exists st1, mkdirSync st (root ++ slash :: name) = Ok st1
                  /\ grown st st1 (Utf8.encode (root ++ slash :: name)) T []
  end.
Proof.
  intros Hroot Hname Hex HT.
  destruct (stat_in_dir _ _ Hroot) as (D & es & Hin).
  rewrite (target_child _ _ _ _ _ Hin Hname) in HT. injection HT as <-.
  rewrite (existsSync_child _ _ _ _ _ Hin Hname) in Hex.
  pose proof (mkdirSync_child _ _ _ _ _ Hin Hname) as Hmk.
  destruct (find_entry (Utf8.encode name) es); [discriminate|].
  destruct (refuses st (D ++ [Utf8.encode name])) as [e|] eqn:Hfree; [exact Hmk|].
  eexists. split; [exact Hmk|].
  destruct (grown_mkdirSync _ _ _ Hmk) as (D' & G & _ & HD).
  rewrite <- (HD _ (target_child _ _ _ _ _ Hin Hname)) in G. exact G.
Qed.

(** Under a root that is a file nothing is found and nothing can be
    made. *)
Lemma mkdirSync_under_file st root name :
  statSync st root = Ok KFile -> simple_name name = true ->
  existsSync st (root ++ slash :: name) = false
  /\ mkdirSync st (root ++ slash :: name) = Throw ENOTDIR.
Proof.
  intros Hroot Hname.
  destruct (below_file _ _ _ Hroot (simple_name_encode _ Hname)) as [Hr Hm].
  unfold existsSync, statSync, stat, mkdirSync. rewrite encode_child, Hr.
  split; [reflexivity|exact Hm].
Qed.

End NodeFacts.

(** ** Provisioning on the disk *)
Module Provision.
Import Disk DiskSpec DiskFacts NodeFacts.

(** What a run that finds something in the way does. *)
Lemma createProjectFolder_exists root name version w :
  let p := root ++ lit "/" ++ name in
  existsSync (disk w) p = true ->
  createProjectFolder root name version w
  = (Ok tt, {| disk := disk w;
               calls := calls w ++ [ExistsSync p];
               shown := shown w ++ [already_exists_message name] |}).
Proof.
  intros p Hex.
  unfold createProjectFolder, io_bind, fs.existsSync, showErrorMessage, fs.record_call.
  cbn [disk calls shown]. fold p. rewrite Hex. reflexivity.
Qed.

(** A run that finds nothing in the way, call by call: it ends where the
    first call throws. *)
Lemma createProjectFolder_steps root name version w :
  let p := root ++ lit "/" ++ name in
  existsSync (disk w) p = false ->
  createProjectFolder root name version w
  = match mkdirSync (disk w) p with
    | Throw e => (Throw (FsError e), ran w [ExistsSync p; MkdirSync p] (disk w))
    | Ok st1 =>
    match createProjectFile name with
    | Throw e => (Throw (XmlError e), ran w [ExistsSync p; MkdirSync p] st1)
    | Ok px =>
    match writeFileSync st1 (p ++ lit "/.project") px with
    | Throw e =>
        (Throw (FsError e),
         ran w [ExistsSync p; MkdirSync p; WriteFileSync (p ++ lit "/.project") px] st1)
    | Ok st2 =>
    match createClassPathFile version with
    | Throw e =>
        (Throw (XmlError e),
         ran w [ExistsSync p; MkdirSync p; WriteFileSync (p ++ lit "/.project") px] st2)
    | Ok cx =>
    match writeFileSync st2 (p ++ lit "/.classpath") cx with
    | Throw e =>
        (Throw (FsError e),
         ran w [ExistsSync p; MkdirSync p; WriteFileSync (p ++ lit "/.project") px;
                WriteFileSync (p ++ lit "/.classpath") cx] st2)
    | Ok st3 =>
    match mkdirSync st3 (p ++ lit "/src") with
    | Throw e =>
        (Throw (FsError e),
         ran w [ExistsSync p; MkdirSync p; WriteFileSync (p ++ lit "/.project") px;
                WriteFileSync (p ++ lit "/.classpath") cx;
                MkdirSync (p ++ lit "/src")] st3)
    | Ok st4 =>
    match mkdirSync st4 (p ++ lit "/bin") with
    | Throw e => (Throw (FsError e), ran w (provision_calls p px cx) st4)
    | Ok st5 => (Ok tt, ran w (provision_calls p px cx) st5)
    end end end end end end end.
Proof.
  intros p Hex.
  unfold createProjectFolder, io_bind, fs.existsSync, fs.mkdirSync,
    fs.writeFileSync, xml, fs.record_call, fs.with_disk, ran, provision_calls.
  cbn [disk calls shown]. fold p. rewrite Hex. cbn [disk calls shown].
  destruct (mkdirSync (disk w) p) as [st1|e]; cbn [disk calls shown];
    [|now rewrite <- !app_assoc].
  destruct (createProjectFile name) as [px|e]; cbn [disk calls shown];
    [|now rewrite <- !app_assoc].
  destruct (writeFileSync st1 (p ++ lit "/.project") px) as [st2|e];
    cbn [disk calls shown]; [|now rewrite <- !app_assoc].
  destruct (createClassPathFile version) as [cx|e]; cbn [disk calls shown];
    [|now rewrite <- !app_assoc].
  destruct (writeFileSync st2 (p ++ lit "/.classpath") cx) as [st3|e];
    cbn [disk calls shown]; [|now rewrite <- !app_assoc].
  destruct (mkdirSync st3 (p ++ lit "/src")) as [st4|e];
    cbn [disk calls shown]; [|now rewrite <- !app_assoc].
  destruct (mkdirSync st4 (p ++ lit "/bin")) as [st5|e];
    cbn [disk calls shown]; now rewrite <- !app_assoc.
Qed.

(** The four calls below the project folder, one after the other. *)
Lemma grown_project st st1 p D px cx st2 st3 st4 st5 :
  grown st st1 (Utf8.encode p) D [] ->
  writeFileSync st1 (p ++ lit "/.project") px = Ok st2 ->
  writeFileSync st2 (p ++ lit "/.classpath") cx = Ok st3 ->
  mkdirSync st3 (p ++ lit "/src") = Ok st4 ->
  mkdirSync st4 (p ++ lit "/bin") = Ok st5 ->
  grown st st2 (Utf8.encode p) D [(lit ".project", File (Utf8.encode px))]
  /\ grown st st3 (Utf8.encode p) D
       [(lit ".project", File (Utf8.encode px));
        (lit ".classpath", File (Utf8.encode cx))]
  /\ grown st st4 (Utf8.encode p) D
       [(lit ".project", File (Utf8.encode px));
        (lit ".classpath", File (Utf8.encode cx)); (lit "src", Dir [])]
  /\ grown st st5 (Utf8.encode p) D (project_entries px cx).
Proof.
  intros G1 H2 H3 H4 H5.
  destruct (grown_writeFileSync _ _ _ _ _ (lit ".project") _ _ G1 eq_refl eq_refl H2)
    as [G2 _].
  destruct (grown_writeFileSync _ _ _ _ _ (lit ".classpath") _ _ G2 eq_refl eq_refl H3)
    as [G3 _].
  destruct (grown_mkdirSync_child _ _ _ _ _ (lit "src") _ G3 eq_refl eq_refl H4)
    as [G4 _].
  destruct (grown_mkdirSync_child _ _ _ _ _ (lit "bin") _ G4 eq_refl eq_refl H5)
    as [G5 _].
  split; [exact G2|]. split; [exact G3|]. split; [exact G4|exact G5].
Qed.

(** What a run that finds nothing in the way and returns has done. *)
Lemma createProjectFolder_success root name version w w' :
  let p := root ++ lit "/" ++ name in
  existsSync (disk w) p = false ->
  createProjectFolder root name version w = (Ok tt, w') ->
  exists px cx D st1 st2 st3 st4 st5,
    createProjectFile name = Ok px
    /\ createClassPathFile version = Ok cx
    /\ mkdirSync (disk w) p = Ok st1
    /\ writeFileSync st1 (p ++ lit "/.project") px = Ok st2
    /\ writeFileSync st2 (p ++ lit "/.classpath") cx = Ok st3
    /\ mkdirSync st3 (p ++ lit "/src") = Ok st4
    /\ mkdirSync st4 (p ++ lit "/bin") = Ok st5
    /\ w' = {| disk := st5; calls := calls w ++ provision_calls p px cx; shown := shown w |}
    /\ grown (disk w) st1 (Utf8.encode p) D []
    /\ grown (disk w) st5 (Utf8.encode p) D (project_entries px cx).
Proof.
  intros p Hex. rewrite (createProjectFolder_steps root name version w Hex). fold p.
  destruct (mkdirSync (disk w) p) as [st1|e] eqn:H1; [|discriminate].
  destruct (createProjectFile name) as [px|e]; [|discriminate].
  destruct (writeFileSync st1 (p ++ lit "/.project") px) as [st2|e] eqn:H2;
    [|discriminate].
  destruct (createClassPathFile version) as [cx|e]; [|discriminate].
  destruct (writeFileSync st2 (p ++ lit "/.classpath") cx) as [st3|e] eqn:H3;
    [|discriminate].
  destruct (mkdirSync st3 (p ++ lit "/src")) as [st4|e] eqn:H4; [|discriminate].
  destruct (mkdirSync st4 (p ++ lit "/bin")) as [st5|e] eqn:H5; [|discriminate].
  intros H; injection H as <-.
  destruct (grown_mkdirSync _ _ _ H1) as (D & G1 & _ & _).
  destruct (grown_project _ _ _ _ _ _ _ _ _ _ G1 H2 H3 H4 H5) as (_ & _ & _ & G5).
  exists px, cx, D, st1, st2, st3, st4, st5.
  repeat (split; [reflexivity || assumption|]). exact G5.
Qed.

(** Wherever a run ends, the disk has lost nothing. *)
Lemma createProjectFolder_keeps root projectName javaVersion w :
  cwd (disk (snd (createProjectFolder root projectName javaVersion w))) = cwd (disk w)
  /\ keeps (tree (disk w))
           (tree (disk (snd (createProjectFolder root projectName javaVersion w)))).
Proof.
  set (p := root ++ lit "/" ++ projectName).
  assert (Hsame : cwd (disk w) = cwd (disk w)
                  /\ keeps (tree (disk w)) (tree (disk w)))
    by (split; [reflexivity|apply keeps_refl]).
  assert (Hg : forall st' D es, grown (disk w) st' (Utf8.encode p) D es ->
                 cwd st' = cwd (disk w) /\ keeps (tree (disk w)) (tree st')).
  { intros st' D es (_ & _ & Hcwd & _ & _ & Hk & _). auto. }
  destruct (existsSync (disk w) p) eqn:Hex.
  - rewrite (createProjectFolder_exists root projectName javaVersion w Hex). exact Hsame.
  - rewrite (createProjectFolder_steps root projectName javaVersion w Hex). fold p.
    destruct (mkdirSync (disk w) p) as [st1|e] eqn:H1; [|exact Hsame].
    destruct (grown_mkdirSync _ _ _ H1) as (D & G1 & _ & _).
    destruct (createProjectFile projectName) as [px|e]; [|exact (Hg _ _ _ G1)].
    destruct (writeFileSync st1 (p ++ lit "/.project") px) as [st2|e] eqn:H2;
      [|exact (Hg _ _ _ G1)].
    destruct (grown_writeFileSync _ _ _ _ _ (lit ".project") _ _ G1 eq_refl eq_refl H2)
      as [G2 _].
    destruct (createClassPathFile javaVersion) as [cx|e]; [|exact (Hg _ _ _ G2)].
    destruct (writeFileSync st2 (p ++ lit "/.classpath") cx) as [st3|e] eqn:H3;
      [|exact (Hg _ _ _ G2)].
    destruct (grown_writeFileSync _ _ _ _ _ (lit ".classpath") _ _ G2 eq_refl eq_refl H3)
      as [G3 _].
    destruct (mkdirSync st3 (p ++ lit "/src")) as [st4|e] eqn:H4; [|exact (Hg _ _ _ G3)].
    destruct (grown_mkdirSync_child _ _ _ _ _ (lit "src") _ G3 eq_refl eq_refl H4)
      as [G4 _].
    destruct (mkdirSync st4 (p ++ lit "/bin")) as [st5|e] eqn:H5; [|exact (Hg _ _ _ G4)].
    destruct (grown_mkdirSync_child _ _ _ _ _ (lit "bin") _ G4 eq_refl eq_refl H5)
      as [G5 _].
    exact (Hg _ _ _ G5).
Qed.

End Provision.

(** ** The builders *)
Module XmlFacts.
Import Descriptors.

Lemma strip_trailing_newline_snoc (r : jsstring) :
  strip_trailing_newline (r ++ [newline_char]) = r.
Proof.
  unfold strip_trailing_newline. rewrite rev_app_distr. cbn [rev app].
  rewrite N.eqb_refl. apply rev_involutive.
Qed.

Ltac flatten :=
  repeat (rewrite <- app_assoc; cbn [app]).

Lemma expected_classpath_text (v : jsstring) :
  expected_classpath v = classpath_text (jre_container ++ v).
Proof.
  cbv - [app]. flatten. reflexivity.
Qed.

Lemma write_classpath (path : jsstring) :
  write_document {| declaration := make_declaration utf8; root := classpath_root path |}
  = classpath_text path.
Proof.
  unfold write_document.
  replace (write_declaration _ ++ write_element 0 _)
    with (classpath_text path ++ [newline_char]).
  - apply strip_trailing_newline_snoc.
  - cbv - [app]. flatten. reflexivity.
Qed.

Lemma replace_char_app (c : code_unit) (by_ x y : jsstring) :
  replace_char c by_ (x ++ y) = replace_char c by_ x ++ replace_char c by_ y.
Proof. apply flat_map_app. Qed.

Lemma attEscape_app (x y : jsstring) :
  attEscape (x ++ y) = attEscape x ++ attEscape y.
Proof. unfold attEscape. now rewrite !replace_char_app. Qed.

Lemma elEscape_app (x y : jsstring) :
  elEscape (x ++ y) = elEscape x ++ elEscape y.
Proof. unfold elEscape. now rewrite !replace_char_app. Qed.

(** The tree [createClassPathFile] has built when it calls [end]. *)
Lemma createClassPathFile_document (javaVersion : jsstring) :
  createClassPathFile javaVersion
  = Ok (end_pretty {| declaration := make_declaration utf8;
                      root := classpath_root (attValue (jre_container ++ javaVersion)) |}).
Proof.
  unfold createClassPathFile. generalize (jre_container ++ javaVersion). intros path.
  cbv - [attValue end_pretty]. reflexivity.
Qed.

Lemma createClassPathFile_text (javaVersion : jsstring) :
  createClassPathFile javaVersion = Ok (expected_classpath (attEscape javaVersion)).
Proof.
  rewrite createClassPathFile_document. unfold end_pretty, attValue.
  rewrite write_classpath, attEscape_app, expected_classpath_text.
  reflexivity.
Qed.

Lemma expected_project_text (text : jsstring) :
  expected_project text = project_text (lit "  <name>" ++ text ++ lit "</name>").
Proof. cbv - [app]. flatten. reflexivity. Qed.

Lemma write_project (text : jsstring) :
  text <> [] ->
  write_document {| declaration := make_declaration utf8; root := project_root text |}
  = expected_project text.
Proof.
  intros Hne. destruct text as [|c text]; [congruence|].
  unfold write_document.
  replace (write_declaration _ ++ write_element 0 _)
    with (expected_project (c :: text) ++ [newline_char]).
  - apply strip_trailing_newline_snoc.
  - cbv - [app]. flatten. reflexivity.
Qed.

Lemma write_project_empty :
  write_document {| declaration := make_declaration utf8; root := project_root [] |}
  = project_text (lit "  <name/>").
Proof. vm_compute. reflexivity. Qed.

(** The tree [createProjectFile] has built when it calls [end]. *)
Lemma createProjectFile_document (projectName : jsstring) :
  createProjectFile projectName
  = bind (eleText projectName) (fun text =>
    Ok (end_pretty {| declaration := make_declaration utf8;
                      root := project_root text |})).
Proof.
  unfold createProjectFile.
  cbv - [eleText end_pretty]. destruct (eleText projectName); reflexivity.
Qed.

(** *** The escapes, one code unit at a time *)

Ltac case_char c n :=
  let E := fresh "E" in
  destruct (N.eqb c n) eqn:E;
  [apply N.eqb_eq in E; subst c; reflexivity|].

Lemma elEscape_one (c : code_unit) : elEscape [c] = el_char c.
Proof.
  unfold elEscape, el_char, replace_char. cbn [flat_map app].
  case_char c 38%N. cbn [flat_map app].
  case_char c 60%N. cbn [flat_map app].
  case_char c 62%N. cbn [flat_map app].
  case_char c 13%N. reflexivity.
Qed.

Lemma attEscape_one (c : code_unit) : attEscape [c] = att_char c.
Proof.
  unfold attEscape, att_char, replace_char, dquote. cbn [flat_map app].
  case_char c 38%N. cbn [flat_map app].
  case_char c 60%N. cbn [flat_map app].
  case_char c 34%N. cbn [flat_map app].
  case_char c 9%N. cbn [flat_map app].
  case_char c 10%N. cbn [flat_map app].
  case_char c 13%N. reflexivity.
Qed.

Lemma elEscape_flat_map (s : jsstring) : elEscape s = flat_map el_char s.
Proof.
  induction s as [|c s IH]; [reflexivity|].
  change (c :: s) with ([c] ++ s).
  rewrite elEscape_app, elEscape_one, IH. reflexivity.
Qed.

Lemma attEscape_flat_map (s : jsstring) : attEscape s = flat_map att_char s.
Proof.
  induction s as [|c s IH]; [reflexivity|].
  change (c :: s) with ([c] ++ s).
  rewrite attEscape_app, attEscape_one, IH. reflexivity.
Qed.

(** *** Escaping and the legality check *)

Lemma illegal_match_prev (p q : option code_unit) (s : jsstring) :
  high_before p = high_before q -> illegal_match p s = illegal_match q s.
Proof. intros H. destruct s as [|c t]; cbn [illegal_match]; [reflexivity|now rewrite H]. Qed.

Lemma illegal_match_plain (c : code_unit) (t : jsstring) (prev : option code_unit) :
  (0 < c)%N -> (c < 0xD800)%N ->
  illegal_match prev (c :: t) = illegal_match (Some c) t.
Proof.
  intros H0 H1. cbn [illegal_match]. unfold is_high_surrogate, is_low_surrogate.
  destruct (N.eqb_spec c 0); [lia|].
  destruct (N.eqb_spec c 0xFFFE); [lia|].
  destruct (N.eqb_spec c 0xFFFF); [lia|].
  destruct (N.leb_spec 0xD800 c); [lia|].
  destruct (N.leb_spec 0xDC00 c); [lia|].
  reflexivity.
Qed.

Lemma low_next_el (t : jsstring) : low_next (flat_map el_char t) = low_next t.
Proof.
  destruct t as [|c t]; [reflexivity|]. cbn [flat_map]. unfold el_char.
  case_char c 38%N. case_char c 60%N. case_char c 62%N. case_char c 13%N.
  reflexivity.
Qed.

Ltac plain_run :=
  repeat (rewrite illegal_match_plain by (vm_compute; reflexivity)).

Lemma illegal_match_el (s : jsstring) :
  forall prev, illegal_match prev (flat_map el_char s) = illegal_match prev s.
Proof.
  induction s as [|c s IH]; intros prev; [reflexivity|].
  cbn [flat_map]. unfold el_char.
  destruct (N.eqb c 38) eqn:E1;
    [apply N.eqb_eq in E1; subst c; cbn [lit list_ascii_of_string map app];
     plain_run; rewrite IH; now apply illegal_match_prev|].
  destruct (N.eqb c 60) eqn:E2;
    [apply N.eqb_eq in E2; subst c; cbn [lit list_ascii_of_string map app];
     plain_run; rewrite IH; now apply illegal_match_prev|].
  destruct (N.eqb c 62) eqn:E3;
    [apply N.eqb_eq in E3; subst c; cbn [lit list_ascii_of_string map app];
     plain_run; rewrite IH; now apply illegal_match_prev|].
  destruct (N.eqb c 13) eqn:E4;
    [apply N.eqb_eq in E4; subst c; cbn [lit list_ascii_of_string map app];
     plain_run; rewrite IH; now apply illegal_match_prev|].
  cbn [app illegal_match]. now rewrite IH, low_next_el.
Qed.

Lemma eleText_legal (s : jsstring) :
  illegal_match None s = false -> eleText s = Ok (elEscape s).
Proof.
  intros H. unfold eleText, assertLegalChar.
  now rewrite elEscape_flat_map, illegal_match_el, H.
Qed.

Lemma eleText_illegal (s : jsstring) :
  illegal_match None s = true ->
  eleText s = Throw (InvalidCharacter (elEscape s)).
Proof.
  intros H. unfold eleText, assertLegalChar.
  rewrite elEscape_flat_map at 1. now rewrite illegal_match_el, H.
Qed.

Lemma el_char_nonempty (c : code_unit) : el_char c <> [].
Proof.
  unfold el_char.
  repeat match goal with |- context [N.eqb c ?n] => destruct (N.eqb c n) end;
    discriminate.
Qed.

Lemma elEscape_nonempty (s : jsstring) : s <> [] -> elEscape s <> [].
Proof.
  rewrite elEscape_flat_map. destruct s as [|c s]; [congruence|]. intros _.
  cbn [flat_map]. pose proof (el_char_nonempty c).
  destruct (el_char c); [congruence|discriminate].
Qed.

(** What [createProjectFile] returns, for every name. *)
Lemma createProjectFile_text (projectName : jsstring) :
  createProjectFile projectName
  = if illegal_match None projectName
    then Throw (InvalidCharacter (elEscape projectName))
    else Ok (match projectName with
             | [] => project_text (lit "  <name/>")
             | _ :: _ => expected_project (elEscape projectName)
             end).
Proof.
  rewrite createProjectFile_document.
  destruct (illegal_match None projectName) eqn:H.
  - now rewrite (eleText_illegal _ H).
  - rewrite (eleText_legal _ H). cbn [bind]. unfold end_pretty.
    destruct projectName as [|c s].
    + now rewrite <- write_project_empty.
    + rewrite write_project; [reflexivity|]. now apply elEscape_nonempty.
Qed.

End XmlFacts.

(** ** The reader *)
Module ReaderFacts.
Import XmlReader Descriptors XmlFacts.

Lemma list_ind2 {A : Type} (P : list A -> Prop) :
  P [] -> (forall a, P [a]) ->
  (forall a b l, P l -> P (b :: l) -> P (a :: b :: l)) ->
  forall l, P l.
Proof.
  intros H0 H1 H2.
  assert (H : forall l, P l /\ forall a, P (a :: l)).
  { induction l as [|b l [IHl IHbl]]; split; auto. }
  intros l. apply H.
Qed.

Lemma high_not_low (c : code_unit) :
  is_high_surrogate c = true -> is_low_surrogate c = false.
Proof.
  unfold is_high_surrogate, is_low_surrogate. intros H.
  apply andb_prop in H as [_ H]. apply N.leb_le in H.
  destruct (N.leb_spec 0xDC00 c); [lia|reflexivity].
Qed.

Lemma high_not_char (c : code_unit) :
  is_high_surrogate c = true -> (0xD800 <= c <= 0xDBFF)%N.
Proof.
  unfold is_high_surrogate. intros H. apply andb_prop in H as [H1 H2].
  apply N.leb_le in H1, H2. lia.
Qed.

Lemma low_range (c : code_unit) :
  is_low_surrogate c = true -> (0xDC00 <= c <= 0xDFFF)%N.
Proof.
  unfold is_low_surrogate. intros H. apply andb_prop in H as [H1 H2].
  apply N.leb_le in H1, H2. lia.
Qed.

Lemma is_char_range (c : code_unit) :
  is_char c = true ->
  (c = 9 \/ c = 10 \/ c = 13 \/ (0x20 <= c <= 0xD7FF) \/ (0xE000 <= c <= 0xFFFD))%N.
Proof.
  unfold is_char. intros H.
  repeat (apply orb_prop in H as [H|H]);
    try (apply N.eqb_eq in H; lia);
    apply andb_prop in H as [H1 H2]; apply N.leb_le in H1, H2; lia.
Qed.

Lemma chars_ok_app (a b : jsstring) :
  chars_ok a = true -> chars_ok (a ++ b) = chars_ok b.
Proof.
  induction a as [| c | c l t IHt IHlt] using list_ind2; cbn [chars_ok app].
  - reflexivity.
  - destruct (is_high_surrogate c); [discriminate|].
    intros H. apply andb_prop in H as [-> _]. reflexivity.
  - destruct (is_high_surrogate c).
    + intros H. apply andb_prop in H as [-> H]. cbn [andb]. now apply IHt.
    + intros H. apply andb_prop in H as [-> H]. cbn [andb]. now apply IHlt.
Qed.

Lemma illegal_match_cons (prev : option code_unit) (c : code_unit) (t : jsstring) :
  illegal_match prev (c :: t)
  = ((N.eqb c 0 || N.eqb c 0xFFFE || N.eqb c 0xFFFF)%N
     || (is_high_surrogate c && negb (low_next t))
     || (is_low_surrogate c && negb (high_before prev))
     || illegal_match (Some c) t).
Proof. reflexivity. Qed.

(** Strings of XML characters pass the serializer's check. *)
Lemma chars_ok_legal (s : jsstring) :
  chars_ok s = true ->
  forall prev, high_before prev = false -> illegal_match prev s = false.
Proof.
  induction s as [| c | c l t IHt IHlt] using list_ind2; intros Hok prev Hprev.
  - reflexivity.
  - cbn [chars_ok] in Hok. destruct (is_high_surrogate c) eqn:Hc; [discriminate|].
    apply andb_prop in Hok as [Hchar _]. apply is_char_range in Hchar.
    cbn [illegal_match low_next]. rewrite Hc, Hprev. unfold is_low_surrogate.
    destruct (N.eqb_spec c 0); [lia|]. destruct (N.eqb_spec c 0xFFFE); [lia|].
    destruct (N.eqb_spec c 0xFFFF); [lia|].
    destruct (N.leb_spec 0xDC00 c), (N.leb_spec c 0xDFFF); try reflexivity; lia.
  - cbn [chars_ok] in Hok. destruct (is_high_surrogate c) eqn:Hc.
    + apply andb_prop in Hok as [Hl Hok].
      pose proof (high_not_char _ Hc) as Rc. pose proof (low_range _ Hl) as Rl.
      cbn [illegal_match low_next high_before].
      rewrite Hc, Hl, (high_not_low _ Hc).
      rewrite (IHt Hok (Some l)).
      * unfold is_high_surrogate.
        destruct (N.eqb_spec c 0); [lia|]. destruct (N.eqb_spec c 0xFFFE); [lia|].
        destruct (N.eqb_spec c 0xFFFF); [lia|].
        destruct (N.eqb_spec l 0); [lia|]. destruct (N.eqb_spec l 0xFFFE); [lia|].
        destruct (N.eqb_spec l 0xFFFF); [lia|].
        destruct (N.leb_spec 0xD800 l), (N.leb_spec l 0xDBFF); try reflexivity; lia.
      * cbn [high_before]. unfold is_high_surrogate.
        destruct (N.leb_spec 0xD800 l), (N.leb_spec l 0xDBFF); try reflexivity; lia.
    + apply andb_prop in Hok as [Hchar Hok]. apply is_char_range in Hchar.
      rewrite illegal_match_cons, Hc, Hprev.
      rewrite (IHlt Hok (Some c)) by (cbn [high_before]; exact Hc).
      unfold is_low_surrogate.
      destruct (N.eqb_spec c 0); [lia|]. destruct (N.eqb_spec c 0xFFFE); [lia|].
      destruct (N.eqb_spec c 0xFFFF); [lia|].
      destruct (N.leb_spec 0xDC00 c), (N.leb_spec c 0xDFFF); try reflexivity; lia.
Qed.

Lemma forallb_flat_map {A B : Type} (p : B -> bool) (f : A -> list B) (l : list A) :
  (forall a, forallb p (f a) = true) -> forallb p (flat_map f l) = true.
Proof.
  intros H. induction l as [|a l IH]; cbn [flat_map forallb]; [reflexivity|].
  now rewrite forallb_app, H, IH.
Qed.

Lemma chars_ok_flat_map (f : code_unit -> jsstring) (s : jsstring) :
  (forall c, is_high_surrogate c = true -> f c = [c]) ->
  (forall c, is_low_surrogate c = true -> f c = [c]) ->
  (forall c, is_high_surrogate c = false -> is_char c = true -> chars_ok (f c) = true) ->
  chars_ok s = true -> chars_ok (flat_map f s) = true.
Proof.
  intros Hhigh Hlow Hchar.
  induction s as [| c | c l t IHt IHlt] using list_ind2; cbn [chars_ok flat_map].
  - reflexivity.
  - destruct (is_high_surrogate c) eqn:Hc; [discriminate|].
    intros H. apply andb_prop in H as [H _]. rewrite app_nil_r. now apply Hchar.
  - destruct (is_high_surrogate c) eqn:Hc.
    + intros H. apply andb_prop in H as [Hl H].
      rewrite (Hhigh _ Hc), (Hlow _ Hl). cbn [app chars_ok].
      rewrite Hc, Hl. cbn [andb]. now apply IHt.
    + intros H. apply andb_prop in H as [Hcc H].
      rewrite chars_ok_app by now apply Hchar.
      apply IHlt. exact H.
Qed.

Ltac range_of c :=
  repeat match goal with
  | H : is_high_surrogate c = true |- _ => apply high_not_char in H
  | H : is_low_surrogate c = true |- _ => apply low_range in H
  end.

Ltac other_char c :=
  repeat match goal with
  | |- context [N.eqb c ?n] => destruct (N.eqb_spec c n); [lia|]
  end.

Lemma el_char_high (c : code_unit) : is_high_surrogate c = true -> el_char c = [c].
Proof. intros H. range_of c. unfold el_char. other_char c. reflexivity. Qed.

Lemma el_char_low (c : code_unit) : is_low_surrogate c = true -> el_char c = [c].
Proof. intros H. range_of c. unfold el_char. other_char c. reflexivity. Qed.

Lemma att_char_high (c : code_unit) : is_high_surrogate c = true -> att_char c = [c].
Proof. intros H. range_of c. unfold att_char. other_char c. reflexivity. Qed.

Lemma att_char_low (c : code_unit) : is_low_surrogate c = true -> att_char c = [c].
Proof. intros H. range_of c. unfold att_char. other_char c. reflexivity. Qed.

(** Case analysis on an escaped code unit: each escape, then the rest. *)
Ltac escape_cases c :=
  repeat match goal with
  | |- context [if N.eqb c ?n then _ else _] =>
      let E := fresh "E" in
      destruct (N.eqb c n) eqn:E;
      [apply N.eqb_eq in E; subst c; try (vm_compute; reflexivity)|]
  end.

Lemma chars_ok_el_char (c : code_unit) :
  is_high_surrogate c = false -> is_char c = true -> chars_ok (el_char c) = true.
Proof.
  intros Hh Hc. unfold el_char. escape_cases c.
  cbn [chars_ok]. now rewrite Hh, Hc.
Qed.

Lemma chars_ok_att_char (c : code_unit) :
  is_high_surrogate c = false -> is_char c = true -> chars_ok (att_char c) = true.
Proof.
  intros Hh Hc. unfold att_char. escape_cases c.
  cbn [chars_ok]. now rewrite Hh, Hc.
Qed.

Lemma chars_ok_elEscape (s : jsstring) :
  chars_ok s = true -> chars_ok (elEscape s) = true.
Proof.
  rewrite elEscape_flat_map.
  apply chars_ok_flat_map; auto using el_char_high, el_char_low, chars_ok_el_char.
Qed.

Lemma chars_ok_attEscape (s : jsstring) :
  chars_ok s = true -> chars_ok (attEscape s) = true.
Proof.
  rewrite attEscape_flat_map.
  apply chars_ok_flat_map; auto using att_char_high, att_char_low, chars_ok_att_char.
Qed.

(** *** Line ends *)

Lemma normalize_eol_id (s : jsstring) :
  forallb not_cr s = true -> normalize_eol s = s.
Proof.
  induction s as [|c s IH]; cbn [forallb normalize_eol]; [reflexivity|].
  unfold not_cr at 1. intros H. apply andb_prop in H as [Hc H].
  apply negb_true_iff in Hc. rewrite Hc. now rewrite IH.
Qed.

Lemma not_cr_elEscape (s : jsstring) : forallb not_cr (elEscape s) = true.
Proof.
  rewrite elEscape_flat_map. apply forallb_flat_map. intros c.
  unfold el_char. escape_cases c.
  cbn [forallb]. unfold not_cr. now rewrite E2.
Qed.

Lemma not_cr_attEscape (s : jsstring) : forallb not_cr (attEscape s) = true.
Proof.
  rewrite attEscape_flat_map. apply forallb_flat_map. intros c.
  unfold att_char. escape_cases c.
  cbn [forallb]. unfold not_cr. now rewrite E4.
Qed.

(** *** Scanning *)

Lemma scan_app (a b : jsstring) :
  forall toks m,
    scan toks m (a ++ b)
    = match scan toks m a with
      | Some (toks', m') => scan toks' m' b
      | None => None
      end.
Proof.
  induction a as [|c a IH]; intros toks m; cbn [app scan]; [reflexivity|].
  destruct (step toks m c) as [[toks' m']|]; [apply IH|reflexivity].
Qed.

Lemma scan_text (x : jsstring) :
  forallb text_unit x = true ->
  forall toks raw, scan toks (Content raw) x = Some (toks, Content (raw ++ x)).
Proof.
  induction x as [|c x IH]; cbn [forallb scan]; intros H toks raw.
  - now rewrite app_nil_r.
  - apply andb_prop in H as [Hc H]. unfold text_unit in Hc.
    apply negb_true_iff in Hc. cbn [step]. rewrite Hc.
    rewrite (IH H). now rewrite <- app_assoc.
Qed.

Lemma step_value (c : code_unit) toks name atts att value :
  value_unit c = true ->
  step toks (AttValue name atts att value) c
  = Some (toks, AttValue name atts att (value ++ [c])).
Proof.
  unfold value_unit, step, is_space, dquote, lt_sign.
  destruct (N.eqb_spec c 34); [discriminate|].
  destruct (N.eqb_spec c 60); [discriminate|].
  destruct (N.eqb_spec c 9); [discriminate|].
  destruct (N.eqb_spec c 10); [discriminate|].
  destruct (N.eqb_spec c 13); [discriminate|].
  destruct (N.eqb_spec c 32) as [->|]; reflexivity.
Qed.

Lemma scan_value (x : jsstring) :
  forallb value_unit x = true ->
  forall toks name atts att value,
    scan toks (AttValue name atts att value) x
    = Some (toks, AttValue name atts att (value ++ x)).
Proof.
  induction x as [|c x IH]; cbn [forallb scan]; intros H toks name atts att value.
  - now rewrite app_nil_r.
  - apply andb_prop in H as [Hc H].
    rewrite (step_value _ _ _ _ _ _ Hc), (IH H). now rewrite <- app_assoc.
Qed.

Lemma text_unit_elEscape (s : jsstring) : forallb text_unit (elEscape s) = true.
Proof.
  rewrite elEscape_flat_map. apply forallb_flat_map. intros c.
  unfold el_char. escape_cases c.
  cbn [forallb]. unfold text_unit, lt_sign. now rewrite E0.
Qed.

Lemma value_unit_attEscape (s : jsstring) : forallb value_unit (attEscape s) = true.
Proof.
  rewrite attEscape_flat_map. apply forallb_flat_map. intros c.
  unfold att_char. escape_cases c.
  cbn [forallb]. unfold value_unit, lt_sign, dquote.
  now rewrite E0, E1, E2, E3, E4.
Qed.

(** *** References: decoding undoes escaping *)

Ltac decode_cases c IH :=
  repeat match goal with
  | |- context [if N.eqb c ?n then _ else _] =>
      let E := fresh "E" in
      destruct (N.eqb c n) eqn:E;
      [apply N.eqb_eq in E; subst c; cbn; rewrite IH; reflexivity|]
  end.

Lemma decode_elEscape (s : jsstring) : decode (elEscape s) None = Some s.
Proof.
  rewrite elEscape_flat_map.
  induction s as [|c s IH]; [reflexivity|].
  cbn [flat_map]. unfold el_char at 1. decode_cases c IH.
  cbn [app decode]. unfold amp.
  match goal with H : N.eqb c 38 = false |- _ => rewrite H end.
  now rewrite IH.
Qed.

Lemma decode_attEscape (s : jsstring) : decode (attEscape s) None = Some s.
Proof.
  rewrite attEscape_flat_map.
  induction s as [|c s IH]; [reflexivity|].
  cbn [flat_map]. unfold att_char at 1. decode_cases c IH.
  cbn [app decode]. unfold amp.
  match goal with H : N.eqb c 38 = false |- _ => rewrite H end.
  now rewrite IH.
Qed.

Lemma decode_plain_app (a b : jsstring) :
  forallb not_amp a = true ->
  decode (a ++ b) None = option_map (app a) (decode b None).
Proof.
  induction a as [|c a IH]; cbn [forallb app decode]; intros H.
  - destruct (decode b None); reflexivity.
  - apply andb_prop in H as [Hc H]. unfold not_amp in Hc.
    apply negb_true_iff in Hc. rewrite Hc, (IH H).
    destruct (decode b None); reflexivity.
Qed.

Lemma decode_all_app (a b : list token) :
  decode_all (a ++ b)
  = match decode_all a, decode_all b with
    | Some a', Some b' => Some (a' ++ b')
    | _, _ => None
    end.
Proof.
  induction a as [|t a IH]; cbn [app decode_all].
  - destruct (decode_all b); reflexivity.
  - rewrite IH. destruct (decode_token t); [|reflexivity].
    destruct (decode_all a); [|reflexivity].
    destruct (decode_all b); reflexivity.
Qed.

End ReaderFacts.

(** ** Writing, then reading *)
Module RoundTrip.
Import XmlReader Descriptors XmlFacts ReaderFacts.

Lemma expected_project_split (text : jsstring) :
  expected_project text = project_before ++ text ++ project_after.
Proof. cbv - [app]. flatten. reflexivity. Qed.

Lemma expected_classpath_split (version : jsstring) :
  expected_classpath version = classpath_before ++ version ++ classpath_after.
Proof. cbv - [app]. flatten. reflexivity. Qed.

Lemma tokens_project (x : jsstring) :
  forallb text_unit x = true ->
  tokens (project_before ++ x ++ project_after)
  = Some (project_tokens_before ++ CharData x :: project_tokens_after).
Proof.
  intros Hx. unfold tokens. rewrite scan_app.
  replace (scan [] (Content []) project_before)
    with (Some (project_tokens_before, Content [])) by (vm_compute; reflexivity).
  cbv beta iota. rewrite scan_app, (scan_text _ Hx). cbn [app].
  vm_compute. reflexivity.
Qed.

Lemma tokens_classpath (y : jsstring) :
  forallb value_unit y = true ->
  tokens (classpath_before ++ y ++ classpath_after)
  = Some (classpath_tokens_before
            ++ StartTag (lit "classpathentry")
                 [(lit "kind", lit "con"); (lit "path", jre_container ++ y)]
               :: classpath_tokens_after).
Proof.
  intros Hy. unfold tokens. rewrite scan_app.
  replace (scan [] (Content []) classpath_before)
    with (Some (classpath_tokens_before,
                AttValue (lit "classpathentry") [(lit "kind", lit "con")]
                  (lit "path") jre_container)) by (vm_compute; reflexivity).
  cbv beta iota. rewrite scan_app, (scan_value _ Hy).
  vm_compute. reflexivity.
Qed.

Lemma read_project (x s : jsstring) :
  decode x None = Some s ->
  exists doc,
    read_tokens (project_tokens_before ++ CharData x :: project_tokens_after) = Some doc
    /\ project_name doc = Some s.
Proof.
  intros Hx. unfold read_tokens.
  rewrite decode_all_app. cbn [decode_all decode_token]. rewrite Hx.
  vm_compute. eexists. split; [reflexivity|].
  exact (f_equal Some (app_nil_r s)).
Qed.

Lemma read_classpath (y v : jsstring) :
  decode y None = Some v ->
  exists doc,
    read_tokens (classpath_tokens_before
                   ++ StartTag (lit "classpathentry")
                        [(lit "kind", lit "con"); (lit "path", jre_container ++ y)]
                      :: classpath_tokens_after) = Some doc
    /\ first_entry_path doc = Some (jre_container ++ v).
Proof.
  intros Hy. unfold read_tokens.
  rewrite decode_all_app. cbn [decode_all decode_token decode_atts].
  rewrite (decode_plain_app jre_container y) by (vm_compute; reflexivity).
  rewrite Hy.
  vm_compute. eexists. split; reflexivity.
Qed.

Lemma parse_around (before x after : jsstring) :
  chars_ok before = true -> chars_ok x = true -> chars_ok after = true ->
  forallb not_cr before = true -> forallb not_cr x = true ->
  forallb not_cr after = true ->
  parse (before ++ x ++ after)
  = match tokens (before ++ x ++ after) with
    | Some raw => read_tokens raw
    | None => None
    end.
Proof.
  intros Hb Hx Ha Nb Nx Na. unfold parse.
  rewrite (chars_ok_app _ _ Hb), (chars_ok_app _ _ Hx), Ha.
  rewrite normalize_eol_id; [reflexivity|].
  now rewrite !forallb_app, Nb, Nx, Na.
Qed.

(** Reading back what [createProjectFile] has written. *)
Lemma project_round_trip (projectName : jsstring) :
  chars_ok projectName = true ->
  exists text doc,
    createProjectFile projectName = Ok text
    /\ parse text = Some doc
    /\ project_name doc = Some projectName.
Proof.
  intros Hok. rewrite createProjectFile_text.
  rewrite (chars_ok_legal _ Hok None eq_refl).
  destruct projectName as [|c s].
  - eexists. exists (match parse (project_text (lit "  <name/>")) with
                     | Some d => d
                     | None => Text []
                     end).
    split; [reflexivity|]. split; vm_compute; reflexivity.
  - set (name := c :: s) in *.
    destruct (read_project (elEscape name) name (decode_elEscape name))
      as (doc & Hdoc & Hname).
    exists (expected_project (elEscape name)), doc.
    split; [reflexivity|]. split; [|exact Hname].
    rewrite expected_project_split.
    rewrite parse_around;
      auto using chars_ok_elEscape, not_cr_elEscape.
    now rewrite (tokens_project _ (text_unit_elEscape name)).
Qed.

(** Reading back what [createClassPathFile] has written. *)
Lemma classpath_round_trip (javaVersion : jsstring) :
  chars_ok javaVersion = true ->
  exists text doc,
    createClassPathFile javaVersion = Ok text
    /\ parse text = Some doc
    /\ first_entry_path doc = Some (jre_container ++ javaVersion).
Proof.
  intros Hok. rewrite createClassPathFile_text.
  destruct (read_classpath (attEscape javaVersion) javaVersion
              (decode_attEscape javaVersion)) as (doc & Hdoc & Hpath).
  exists (expected_classpath (attEscape javaVersion)), doc.
  split; [reflexivity|]. split; [|exact Hpath].
  rewrite expected_classpath_split.
  rewrite parse_around;
    auto using chars_ok_attEscape, not_cr_attEscape.
  now rewrite (tokens_classpath _ (value_unit_attEscape javaVersion)).
Qed.

End RoundTrip.

(** ** The texts of the builders *)
Module TextFacts.
Import Descriptors XmlFacts XmlReader ReaderFacts RoundTrip.

Lemma elEscape_verbatim (s : jsstring) : text_verbatim s = true -> elEscape s = s.
Proof.
  rewrite elEscape_flat_map. unfold text_verbatim.
  induction s as [|c s IH]; cbn [forallb flat_map]; [reflexivity|].
  intros H. apply andb_prop in H as [Hc H]. rewrite (IH H).
  apply negb_true_iff in Hc. repeat (apply orb_false_iff in Hc as [Hc ?]).
  unfold el_char.
  repeat match goal with E : N.eqb c _ = false |- _ => rewrite E; clear E end.
  reflexivity.
Qed.

Lemma attEscape_verbatim (s : jsstring) : value_verbatim s = true -> attEscape s = s.
Proof.
  rewrite attEscape_flat_map. unfold value_verbatim.
  induction s as [|c s IH]; cbn [forallb flat_map]; [reflexivity|].
  intros H. apply andb_prop in H as [Hc H]. rewrite (IH H).
  apply negb_true_iff in Hc. repeat (apply orb_false_iff in Hc as [Hc ?]).
  unfold att_char.
  repeat match goal with E : N.eqb c _ = false |- _ => rewrite E; clear E end.
  reflexivity.
Qed.

Lemma Ok_injective {E A : Type} (x y : A) :
  @Ok E A x = Ok y -> x = y.
Proof. congruence. Qed.

Lemma elEscape_injective (a b : jsstring) : elEscape a = elEscape b -> a = b.
Proof.
  intros H. pose proof (decode_elEscape a) as Ha.
  rewrite H, decode_elEscape in Ha. congruence.
Qed.

Lemma attEscape_injective (a b : jsstring) : attEscape a = attEscape b -> a = b.
Proof.
  intros H. pose proof (decode_attEscape a) as Ha.
  rewrite H, decode_attEscape in Ha. congruence.
Qed.

Lemma expected_project_injective (x y : jsstring) :
  expected_project x = expected_project y -> x = y.
Proof.
  rewrite !expected_project_split. intros H.
  apply app_inv_head in H. now apply app_inv_tail in H.
Qed.

Lemma expected_classpath_injective (x y : jsstring) :
  expected_classpath x = expected_classpath y -> x = y.
Proof.
  rewrite !expected_classpath_split. intros H.
  apply app_inv_head in H. now apply app_inv_tail in H.
Qed.

(** The text for the empty name differs from every text for another name:
    where the one closes the [name] tag, the other has a slash. *)
Lemma empty_name_text_differs (x : jsstring) :
  project_text (lit "  <name/>") <> expected_project x.
Proof.
  rewrite expected_project_split. intros H.
  apply (f_equal (fun l => nth_error l (List.length project_before - 1))) in H.
  rewrite nth_error_app1 in H by (vm_compute; lia).
  vm_compute in H. discriminate.
Qed.

Lemma parse_project_text (name : jsstring) :
  chars_ok name = true ->
  parse (expected_project (elEscape name))
  = read_tokens (project_tokens_before ++ CharData (elEscape name)
                   :: project_tokens_after).
Proof.
  intros Hok. rewrite expected_project_split.
  rewrite parse_around; auto using chars_ok_elEscape, not_cr_elEscape.
  now rewrite (tokens_project _ (text_unit_elEscape name)).
Qed.

Lemma parse_classpath_text (version : jsstring) :
  chars_ok version = true ->
  parse (expected_classpath (attEscape version))
  = read_tokens (classpath_tokens_before
                   ++ StartTag (lit "classpathentry")
                        [(lit "kind", lit "con");
                         (lit "path", jre_container ++ attEscape version)]
                      :: classpath_tokens_after).
Proof.
  intros Hok. rewrite expected_classpath_split.
  rewrite parse_around; auto using chars_ok_attEscape, not_cr_attEscape.
  now rewrite (tokens_classpath _ (value_unit_attEscape version)).
Qed.

Lemma read_project_whole (x : jsstring) (c : code_unit) (s : jsstring) :
  decode x None = Some (c :: s) ->
  read_tokens (project_tokens_before ++ CharData x :: project_tokens_after)
  = Some (project_document (c :: s)).
Proof.
  intros Hx. unfold read_tokens.
  rewrite decode_all_app. cbn [decode_all decode_token]. rewrite Hx.
  vm_compute. reflexivity.
Qed.

Lemma read_classpath_whole (y v : jsstring) :
  decode y None = Some v ->
  read_tokens (classpath_tokens_before
                 ++ StartTag (lit "classpathentry")
                      [(lit "kind", lit "con"); (lit "path", jre_container ++ y)]
                    :: classpath_tokens_after)
  = Some (classpath_document (jre_container ++ v)).
Proof.
  intros Hy. unfold read_tokens.
  rewrite decode_all_app. cbn [decode_all decode_token decode_atts].
  rewrite (decode_plain_app jre_container y) by (vm_compute; reflexivity).
  rewrite Hy.
  vm_compute. reflexivity.
Qed.

End TextFacts.

(* ===================================================================== *)
(** * The properties of the extension *)
(* ===================================================================== *)

Import Disk DiskSpec DiskFacts NodeFacts Provision.
Import Descriptors XmlFacts XmlReader ReaderFacts RoundTrip TextFacts.

Lemma sample_project_run :
  createProjectFolder (lit "/tmp") (lit "Test-Project") (lit "JavaSE-10") sample_world
  = (Ok tt, sample_project).
Proof. vm_compute. reflexivity. Qed.

(** When the root is a directory, the name is that of a single entry,
    nothing has that name yet, the serializer accepts the name, and the
    file system refuses none of the five places, the run returns, and
    shows nothing. *)
Lemma createProjectFolder_succeeds root name version w T :
  statSync (disk w) root = Ok KDir ->
  simple_name name = true ->
  illegal_match None name = false ->
  existsSync (disk w) (root ++ lit "/" ++ name) = false ->
  target (disk w) (root ++ lit "/" ++ name) = Ok T ->
  permitted (disk w) (project_places T) ->
  exists st5,
    createProjectFolder root name version w
    = (Ok tt, ran w (provision_calls (root ++ lit "/" ++ name)
                       (expected_project (elEscape name))
                       (expected_classpath (attEscape version))) st5)
    /\ grown (disk w) st5 (Utf8.encode (root ++ lit "/" ++ name)) T
         (project_entries (expected_project (elEscape name))
                          (expected_classpath (attEscape version))).
Proof.
  intros Hroot Hname Hlegal Hex HT Hperm.
  pose (p := root ++ slash :: name).
  change (root ++ lit "/" ++ name) with p in *.
  assert (Hpx : createProjectFile name = Ok (expected_project (elEscape name))).
  { rewrite createProjectFile_text, Hlegal.
    destruct name; [discriminate|reflexivity]. }
  pose proof (mkdirSync_under_root _ _ _ _ Hroot Hname Hex HT) as H1.
  fold p in H1. rewrite (Hperm T) in H1 by (now left).
  destruct H1 as (st1 & H1 & G1).
  destruct (writeFileSync_free _ _ _ _ _ (lit ".project")
              (expected_project (elEscape name)) G1 eq_refl eq_refl)
    as [st2 H2]; [apply Hperm; cbn; auto|].
  destruct (grown_writeFileSync _ _ _ _ _ (lit ".project") _ _ G1 eq_refl eq_refl H2)
    as [G2 _].
  destruct (writeFileSync_free _ _ _ _ _ (lit ".classpath")
              (expected_classpath (attEscape version)) G2 eq_refl eq_refl)
    as [st3 H3]; [apply Hperm; cbn; auto|].
  destruct (grown_writeFileSync _ _ _ _ _ (lit ".classpath") _ _ G2 eq_refl eq_refl H3)
    as [G3 _].
  destruct (mkdirSync_free _ _ _ _ _ (lit "src") G3 eq_refl eq_refl)
    as [st4 H4]; [apply Hperm; cbn; auto|].
  destruct (grown_mkdirSync_child _ _ _ _ _ (lit "src") _ G3 eq_refl eq_refl H4)
    as [G4 _].
  destruct (mkdirSync_free _ _ _ _ _ (lit "bin") G4 eq_refl eq_refl)
    as [st5 H5]; [apply Hperm; cbn; auto 6|].
  destruct (grown_mkdirSync_child _ _ _ _ _ (lit "bin") _ G4 eq_refl eq_refl H5)
    as [G5 _].
  exists st5. split; [|exact G5].
  rewrite (createProjectFolder_steps root name version w Hex).
  change (root ++ lit "/" ++ name) with p.
  rewrite H1, Hpx.
  change (p ++ lit "/.project") with (p ++ slash :: lit ".project"). rewrite H2.
  rewrite createClassPathFile_text.
  change (p ++ lit "/.classpath") with (p ++ slash :: lit ".classpath"). rewrite H3.
  change (p ++ lit "/src") with (p ++ slash :: lit "src"). rewrite H4.
  change (p ++ lit "/bin") with (p ++ slash :: lit "bin"). rewrite H5.
  reflexivity.
Qed.

(** C1: when something exists at [root/projectName] -- in particular
    when an earlier call with the same arguments has created the project --
    [createProjectFolder] shows the already-exists message for
    [projectName] and leaves the disk as it is: its only [fs] call is the
    existence check. *)
Theorem createProjectFolder_already_exists root projectName javaVersion w :
  let target := root ++ lit "/" ++ projectName in
  existsSync (disk w) target = true
    \/ (exists w0, existsSync (disk w0) target = false
                   /\ createProjectFolder root projectName javaVersion w0 = (Ok tt, w)) ->
  createProjectFolder root projectName javaVersion w
  = (Ok tt, {| disk := disk w;
               calls := calls w ++ [ExistsSync target];
               shown := shown w ++ [already_exists_message projectName] |}).
Proof.
  intros target [Hex|(w0 & Hex0 & Hrun0)].
  - now apply createProjectFolder_exists.
  - apply createProjectFolder_exists. fold target.
    destruct (createProjectFolder_success _ _ _ _ _ Hex0 Hrun0)
      as (px & cx & D & st1 & st2 & st3 & st4 & st5
          & _ & _ & _ & _ & _ & _ & _ & -> & _ & (Hin & _)).
    cbn [disk]. unfold existsSync. fold target in Hin.
    now rewrite (statSync_in _ _ _ _ Hin).
Qed.

(** [createProjectFolder_already_exists] at work: the call of the
    extension's test, made a second time. *)
Lemma createProjectFolder_already_exists_witness :
  (existsSync (disk sample_project) (lit "/tmp" ++ lit "/" ++ lit "Test-Project") = true
   \/ (exists w0,
         existsSync (disk w0) (lit "/tmp" ++ lit "/" ++ lit "Test-Project") = false
         /\ createProjectFolder (lit "/tmp") (lit "Test-Project") (lit "JavaSE-10") w0
            = (Ok tt, sample_project)))
  /\ createProjectFolder (lit "/tmp") (lit "Test-Project") (lit "JavaSE-10") sample_project
     = (Ok tt, {| disk := disk sample_project;
                  calls := calls sample_project
                             ++ [ExistsSync (lit "/tmp" ++ lit "/" ++ lit "Test-Project")];
                  shown := shown sample_project
                             ++ [already_exists_message (lit "Test-Project")] |}).
Proof.
  assert (H : existsSync (disk sample_project) (lit "/tmp" ++ lit "/" ++ lit "Test-Project") = true
   \/ (exists w0,
         existsSync (disk w0) (lit "/tmp" ++ lit "/" ++ lit "Test-Project") = false
         /\ createProjectFolder (lit "/tmp") (lit "Test-Project") (lit "JavaSE-10") w0
            = (Ok tt, sample_project))).
  { right. exists sample_world. split; [vm_compute; reflexivity|exact sample_project_run]. }
  split; [exact H|].
  exact (createProjectFolder_already_exists (lit "/tmp") (lit "Test-Project")
           (lit "JavaSE-10") sample_project H).
Defined.

(** C2: when nothing exists at [root/name] and [createProjectFolder]
    returns, [root/name] is a directory whose listing holds exactly the
    names [.project], [.classpath], [src] and [bin], each once, in the
    order the directory gives them; the two files hold the UTF-8 bytes of
    what the builders return, from which the text is read back whenever it
    has no unpaired surrogate; and [src] and [bin] are empty directories. *)
Theorem createProjectFolder_layout root name version w w' :
  let target := root ++ lit "/" ++ name in
  existsSync (disk w) target = false ->
  createProjectFolder root name version w = (Ok tt, w') ->
  statSync (disk w') target = Ok KDir
  /\ (exists names,
        readdirSync (disk w') target = Ok names
        /\ Permutation names [lit ".project"; lit ".classpath"; lit "src"; lit "bin"])
  /\ (exists px, createProjectFile name = Ok px
                 /\ readFileSync (disk w') (target ++ lit "/.project")
                    = Ok (Utf8.encode px)
                 /\ (Utf8.well_formed px = true ->
                     Utf8.decode (Utf8.encode px) = Some px))
  /\ (exists cx, createClassPathFile version = Ok cx
                 /\ readFileSync (disk w') (target ++ lit "/.classpath")
                    = Ok (Utf8.encode cx)
                 /\ (Utf8.well_formed cx = true ->
                     Utf8.decode (Utf8.encode cx) = Some cx))
  /\ readdirSync (disk w') (target ++ lit "/src") = Ok []
  /\ readdirSync (disk w') (target ++ lit "/bin") = Ok [].
Proof.
  intros target Hex Hrun.
  destruct (createProjectFolder_success _ _ _ _ _ Hex Hrun)
    as (px & cx & D & st1 & st2 & st3 & st4 & st5
        & Hpx & Hcx & _ & _ & _ & _ & _ & -> & _ & (Hin & _)).
  fold target in Hin. cbn [disk].
  split; [exact (statSync_in _ _ _ _ Hin)|].
  split.
  { eexists. split; [exact (readdirSync_in _ _ _ _ Hin)|]. apply sort_by_perm. }
  split; [exists px; split; [exact Hpx|split; [|apply Utf8Facts.decode_encode]]|].
  { exact (readFileSync_child _ _ _ _ (lit ".project") _ Hin eq_refl eq_refl). }
  split; [exists cx; split; [exact Hcx|split; [|apply Utf8Facts.decode_encode]]|].
  { exact (readFileSync_child _ _ _ _ (lit ".classpath") _ Hin eq_refl eq_refl). }
  split.
  - exact (readdirSync_child _ _ _ _ (lit "src") [] Hin eq_refl eq_refl).
  - exact (readdirSync_child _ _ _ _ (lit "bin") [] Hin eq_refl eq_refl).
Qed.

(** [createProjectFolder_layout] at work: the call of the extension's
    test, on an empty [/tmp] that lists its entries by first byte: [bin]
    comes before [src]. *)
Lemma createProjectFolder_layout_witness :
  existsSync (disk sample_world) (lit "/tmp" ++ lit "/" ++ lit "Test-Project") = false
  /\ createProjectFolder (lit "/tmp") (lit "Test-Project") (lit "JavaSE-10") sample_world
     = (Ok tt, sample_project)
  /\ readdirSync (disk sample_project) (lit "/tmp" ++ lit "/" ++ lit "Test-Project")
     = Ok [lit ".project"; lit ".classpath"; lit "bin"; lit "src"]
  /\ exists names,
       readdirSync (disk sample_project) (lit "/tmp" ++ lit "/" ++ lit "Test-Project")
       = Ok names
       /\ Permutation names [lit ".project"; lit ".classpath"; lit "src"; lit "bin"].
Proof.
  assert (Hex : existsSync (disk sample_world)
                  (lit "/tmp" ++ lit "/" ++ lit "Test-Project") = false)
    by (vm_compute; reflexivity).
  split; [exact Hex|]. split; [exact sample_project_run|].
  split; [vm_compute; reflexivity|].
  exact (proj1 (proj2 (createProjectFolder_layout (lit "/tmp") (lit "Test-Project")
                         (lit "JavaSE-10") sample_world sample_project
                         Hex sample_project_run))).
Defined.

(** C3: [createProjectFile("Test-Project")] is the text of the
    extension's test: the UTF-8 declaration, then the project description
    indented by two spaces, with [name], [comment], [projects], [buildSpec]
    (one [buildCommand] for the Java builder, with empty [arguments]) and
    [natures] (the Java nature); the text ends with the [>] of the closing
    tag, not with a newline. *)
Theorem createProjectFile_test_project :
  createProjectFile (lit "Test-Project")
  = Ok (unlines [
      litq "<?xml version='1.0' encoding='UTF-8'?>";
      lit  "<projectDescription>";
      lit  "  <name>Test-Project</name>";
      lit  "  <comment/>";
      lit  "  <projects/>";
      lit  "  <buildSpec>";
      lit  "    <buildCommand>";
      lit  "      <name>org.eclipse.jdt.core.javabuilder</name>";
      lit  "      <arguments/>";
      lit  "    </buildCommand>";
      lit  "  </buildSpec>";
      lit  "  <natures>";
      lit  "    <nature>org.eclipse.jdt.core.javanature</nature>";
      lit  "  </natures>";
      lit  "</projectDescription>" ])
  /\ createProjectFile (lit "Test-Project") = Ok (expected_project (lit "Test-Project"))
  /\ (exists body,
        createProjectFile (lit "Test-Project") = Ok (body ++ lit "</projectDescription>")).
Proof.
  split; [vm_compute; reflexivity|]. split; [vm_compute; reflexivity|].
  exists (match createProjectFile (lit "Test-Project") with
          | Ok text => firstn (List.length text - 21) text
          | Throw _ => []
          end).
  vm_compute. reflexivity.
Qed.



(** C7: a run of [createProjectFolder] that finds nothing in the way
    and returns has made exactly these [fs] calls, in this order, each on
    the disk the one before it has left: the existence check on the target,
    [mkdirSync] of the target, [writeFileSync] of [.project], then of
    [.classpath], [mkdirSync] of [src], then of [bin]; the target is a
    directory of the disk on which the first file is written. *)
Theorem createProjectFolder_call_order root projectName javaVersion w w' :
  let target := root ++ lit "/" ++ projectName in
  existsSync (disk w) target = false ->
  createProjectFolder root projectName javaVersion w = (Ok tt, w') ->
  exists px cx st1 st2 st3 st4,
    createProjectFile projectName = Ok px
    /\ createClassPathFile javaVersion = Ok cx
    /\ calls w' = calls w ++ [ ExistsSync target;
                               MkdirSync target;
                               WriteFileSync (target ++ lit "/.project") px;
                               WriteFileSync (target ++ lit "/.classpath") cx;
                               MkdirSync (target ++ lit "/src");
                               MkdirSync (target ++ lit "/bin") ]
    /\ mkdirSync (disk w) target = Ok st1
    /\ statSync st1 target = Ok KDir
    /\ writeFileSync st1 (target ++ lit "/.project") px = Ok st2
    /\ writeFileSync st2 (target ++ lit "/.classpath") cx = Ok st3
    /\ mkdirSync st3 (target ++ lit "/src") = Ok st4
    /\ mkdirSync st4 (target ++ lit "/bin") = Ok (disk w').
Proof.
  intros target Hex Hrun.
  destruct (createProjectFolder_success _ _ _ _ _ Hex Hrun)
    as (px & cx & D & st1 & st2 & st3 & st4 & st5
        & Hpx & Hcx & H1 & H2 & H3 & H4 & H5 & -> & (Hin1 & _) & _).
  fold target in H1, Hin1.
  pose proof (statSync_in _ _ _ _ Hin1) as Hdir.
  exists px, cx, st1, st2, st3, st4. cbn [disk calls].
  repeat (split; [assumption || reflexivity|]). exact H5.
Qed.

(** [createProjectFolder_call_order] at work: the calls of the extension's
    test. *)
Lemma createProjectFolder_call_order_witness :
  existsSync (disk sample_world) (lit "/tmp" ++ lit "/" ++ lit "Test-Project") = false
  /\ createProjectFolder (lit "/tmp") (lit "Test-Project") (lit "JavaSE-10") sample_world
     = (Ok tt, sample_project)
  /\ exists px cx,
       calls sample_project
       = [ ExistsSync (lit "/tmp/Test-Project");
           MkdirSync (lit "/tmp/Test-Project");
           WriteFileSync (lit "/tmp/Test-Project/.project") px;
           WriteFileSync (lit "/tmp/Test-Project/.classpath") cx;
           MkdirSync (lit "/tmp/Test-Project/src");
           MkdirSync (lit "/tmp/Test-Project/bin") ].
Proof.
  assert (Hex : existsSync (disk sample_world)
                  (lit "/tmp" ++ lit "/" ++ lit "Test-Project") = false)
    by (vm_compute; reflexivity).
  split; [exact Hex|]. split; [exact sample_project_run|].
  destruct (createProjectFolder_call_order (lit "/tmp") (lit "Test-Project")
              (lit "JavaSE-10") sample_world sample_project Hex sample_project_run)
    as (px & cx & _ & _ & _ & _ & _ & _ & Hcalls & _).
  exists px, cx. exact Hcalls.
Defined.

(** C9: with an empty [projectName] and a [root] that is an existing
    directory, the target [root + '/'] names the root itself, the existence
    check finds it, and the call shows the already-exists message and
    leaves the disk as it is. *)
Theorem createProjectFolder_empty_name root javaVersion w :
  statSync (disk w) root = Ok KDir ->
  target (disk w) (root ++ lit "/" ++ []) = target (disk w) root
  /\ existsSync (disk w) (root ++ lit "/" ++ []) = true
  /\ createProjectFolder root [] javaVersion w
     = (Ok tt, {| disk := disk w;
                  calls := calls w ++ [ExistsSync (root ++ lit "/" ++ [])];
                  shown := shown w ++ [already_exists_message []] |}).
Proof.
  intros Hroot.
  destruct (target_trailing_slash _ _ Hroot) as [Ht Hs].
  change (lit "/" ++ []) with [slash].
  assert (Hex : existsSync (disk w) (root ++ [slash]) = true).
  { unfold existsSync. now rewrite Hs. }
  split; [exact Ht|]. split; [exact Hex|].
  now apply createProjectFolder_exists.
Qed.

(** [createProjectFolder_empty_name] at work: an empty name under [/tmp]. *)
Lemma createProjectFolder_empty_name_witness :
  statSync (disk sample_world) (lit "/tmp") = Ok KDir
  /\ createProjectFolder (lit "/tmp") [] (lit "JavaSE-10") sample_world
     = (Ok tt, {| disk := disk sample_world;
                  calls := [ExistsSync (lit "/tmp/")];
                  shown := [lit "A folder with the name  already exists."] |}).
Proof.
  assert (H : statSync (disk sample_world) (lit "/tmp") = Ok KDir)
    by (vm_compute; reflexivity).
  split; [exact H|].
  exact (proj2 (proj2 (createProjectFolder_empty_name (lit "/tmp") (lit "JavaSE-10")
                         sample_world H))).
Defined.

(** Not every string gets a text: the serializer refuses the string that
    holds the NUL code unit alone. *)
Lemma createProjectFile_throws_on_NUL :
  createProjectFile [0%N] = Throw (InvalidCharacter [0%N])
  /\ ~ (forall projectName, exists text, createProjectFile projectName = Ok text).
Proof.
  assert (H : createProjectFile [0%N] = Throw (InvalidCharacter [0%N]))
    by (vm_compute; reflexivity).
  split; [exact H|].
  intros Htotal. destruct (Htotal [0%N]) as [text Htext].
  rewrite H in Htext. discriminate.
Qed.

(** C6, amended: both builders are functions of their argument and
    leave the world as it is; [createClassPathFile] returns a text for every
    string; [createProjectFile] returns a text for every string that passes
    the serializer's character check (no U+0000, U+FFFE or U+FFFF and no
    unpaired surrogate) and throws the serializer's invalid-character error
    for every other string. *)
Theorem builders_pure_and_total_on_legal_strings :
  (forall projectName,
     if illegal_match None projectName
     then createProjectFile projectName = Throw (InvalidCharacter (elEscape projectName))
     else exists text, createProjectFile projectName = Ok text)
  /\ (forall javaVersion, exists text, createClassPathFile javaVersion = Ok text)
  /\ (forall a b, a = b ->
        createProjectFile a = createProjectFile b
        /\ createClassPathFile a = createClassPathFile b)
  /\ (forall projectName javaVersion w,
        snd (xml (createProjectFile projectName) w) = w
        /\ snd (xml (createClassPathFile javaVersion) w) = w).
Proof.
  split; [|split; [|split]].
  - intros projectName. rewrite createProjectFile_text.
    destruct (illegal_match None projectName); [reflexivity|eauto].
  - intros javaVersion. rewrite createClassPathFile_text. eauto.
  - intros a b ->. split; reflexivity.
  - intros projectName javaVersion w. unfold xml.
    destruct (createProjectFile projectName), (createClassPathFile javaVersion);
      split; reflexivity.
Qed.

Lemma findFolder_loop_spec (baseName : jsstring) (folders : list WorkspaceFolder) :
  forall n i, n + i = List.length folders ->
  match findFolder_loop baseName folders n i with
  | Some p =>
      exists k f, i <= k /\ nth_error folders k = Some f /\ p = fsPath (uri f)
        /\ Path.basename (fsPath (uri f)) = baseName
        /\ (forall j f', i <= j < k -> nth_error folders j = Some f' ->
              Path.basename (fsPath (uri f')) <> baseName)
  | None =>
      forall j f', i <= j -> nth_error folders j = Some f' ->
        Path.basename (fsPath (uri f')) <> baseName
  end.
Proof.
  induction n as [|n IH]; intros i Hlen; cbn [findFolder_loop].
  - intros j f' Hj Hnth.
    assert (j < List.length folders) by (apply nth_error_Some; congruence). lia.
  - destruct (nth_error folders i) as [element|] eqn:Hi.
    + destruct (JsFacts.eqb_spec (Path.basename (fsPath (uri element))) baseName) as [Hb|Hb].
      * exists i, element. repeat split; auto. intros j f' Hj. lia.
      * assert (Hlen' : n + S i = List.length folders) by lia.
        specialize (IH (S i) Hlen').
        destruct (findFolder_loop baseName folders n (S i)) as [p|].
        -- destruct IH as (k & f & Hk & Hnth & Hp & Hbase & Hbefore).
           exists k, f. repeat split; auto; [lia|].
           intros j f' Hj Hj'. destruct (Nat.eq_dec j i) as [->|Hne].
           ++ rewrite Hi in Hj'. injection Hj' as <-. exact Hb.
           ++ apply (Hbefore j); [lia|exact Hj'].
        -- intros j f' Hj Hj'. destruct (Nat.eq_dec j i) as [->|Hne].
           ++ rewrite Hi in Hj'. injection Hj' as <-. exact Hb.
           ++ apply (IH j); [lia|exact Hj'].
    + apply nth_error_None in Hi. lia.
Qed.

(** C8: [findFolderInWorkspace] returns the [fsPath] of the first
    folder, in list order, whose [fsPath] has the base name [baseName], and
    [undefined] when no folder has it; the empty list gives [undefined]. *)
Theorem findFolderInWorkspace_first_match (baseName : jsstring)
    (folders : list WorkspaceFolder) :
  match findFolderInWorkspace baseName folders with
  | Some p =>
      exists k f, nth_error folders k = Some f /\ p = fsPath (uri f)
        /\ Path.basename (fsPath (uri f)) = baseName
        /\ (forall j f', j < k -> nth_error folders j = Some f' ->
              Path.basename (fsPath (uri f')) <> baseName)
  | None =>
      forall f, In f folders -> Path.basename (fsPath (uri f)) <> baseName
  end
  /\ findFolderInWorkspace baseName [] = None.
Proof.
  split; [|reflexivity].
  unfold findFolderInWorkspace.
  pose proof (findFolder_loop_spec baseName folders (List.length folders) 0
                (Nat.add_0_r _)) as H.
  destruct (findFolder_loop baseName folders (List.length folders) 0) as [p|].
  - destruct H as (k & f & _ & Hnth & Hp & Hbase & Hbefore).
    exists k, f. repeat split; auto.
    intros j f' Hj. apply Hbefore. lia.
  - intros f Hin. destruct (In_nth_error _ _ Hin) as [j Hj].
    apply (H j); [lia|exact Hj].
Qed.

(** C10: with [multi = false], [getWorkspaceRoot] returns the
    [fsPath] of [folders[0]] whatever [baseName] is; it throws a
    [TypeError], the failed access to [folders[0].uri], exactly when
    [folders] is empty; in no case does it touch the world. *)
Theorem getWorkspaceRoot_single_folder (folders : list WorkspaceFolder)
    (baseName : option jsstring) (w : world) :
  match folders with
  | first :: _ =>
      getWorkspaceRoot folders false baseName w = (Ok (Some (fsPath (uri first))), w)
  | [] =>
      getWorkspaceRoot folders false baseName w = (Throw TypeError, w)
  end
  /\ (getWorkspaceRoot folders false baseName w = (Throw TypeError, w) <-> folders = [])
  /\ getWorkspaceRoot folders false baseName w = getWorkspaceRoot folders false None w.
Proof.
  destruct folders as [|first rest]; cbn.
  - repeat split; reflexivity.
  - split; [reflexivity|]. split; [|reflexivity].
    split; intros H; discriminate.
Qed.

(** Not every string comes back: for the string that holds the NUL code
    unit alone, [createProjectFile] throws, and what [createClassPathFile]
    returns is not XML that can be read. *)
Lemma round_trip_fails_on_NUL :
  (~ exists text, createProjectFile [0%N] = Ok text)
  /\ (exists text, createClassPathFile [0%N] = Ok text /\ parse text = None).
Proof.
  split.
  - intros [text H]. vm_compute in H. discriminate.
  - eexists. split; [vm_compute; reflexivity|]. vm_compute. reflexivity.
Qed.

(** C5, amended: for every string of XML characters (tab, line feed,
    carriage return, U+0020 to U+D7FF, U+E000 to U+FFFD and surrogate
    pairs), the characters [<], [&] and the double quote among them, reading
    the text of [createProjectFile] gives a project description whose [name]
    element has exactly the string as its text, and reading the text of
    [createClassPathFile] gives a class path whose first entry has the
    container path followed by exactly the string as its [path]. *)
Theorem descriptors_round_trip (value : jsstring) :
  chars_ok value = true ->
  (exists text doc,
     createProjectFile value = Ok text
     /\ parse text = Some doc
     /\ project_name doc = Some value)
  /\ (exists text doc,
        createClassPathFile value = Ok text
        /\ parse text = Some doc
        /\ first_entry_path doc = Some (jre_container ++ value)).
Proof.
  intros Hok. split.
  - now apply project_round_trip.
  - now apply classpath_round_trip.
Qed.

(** [descriptors_round_trip] at work: a name with an ampersand, angle
    brackets and double quotes. *)
Lemma descriptors_round_trip_witness :
  chars_ok (litq "R&D <'10'>") = true
  /\ (exists text doc,
        createProjectFile (litq "R&D <'10'>") = Ok text
        /\ parse text = Some doc
        /\ project_name doc = Some (litq "R&D <'10'>")).
Proof.
  assert (H : chars_ok (litq "R&D <'10'>") = true) by (vm_compute; reflexivity).
  split; [exact H|].
  exact (proj1 (descriptors_round_trip (litq "R&D <'10'>") H)).
Defined.

(* ===================================================================== *)
(** * Further properties *)
(* ===================================================================== *)

(** ** Finding the folder *)
Module FolderFacts.

Lemma take_segment_no_slash (s : jsstring) (c : code_unit) :
  In c (Path.take_segment s) -> c <> slash.
Proof.
  induction s as [|x s IH]; cbn [Path.take_segment]; [intros []|].
  destruct (N.eqb_spec x slash) as [->|Hx]; [intros []|].
  intros [<-|Hin]; auto.
Qed.

Lemma basename_no_slash (p : jsstring) : ~ In slash (Path.basename p).
Proof.
  unfold Path.basename. intros Hin. apply in_rev in Hin.
  now apply take_segment_no_slash in Hin.
Qed.

Lemma drop_slashes_run (n : nat) (s : jsstring) :
  Path.drop_slashes (repeat slash n ++ s) = Path.drop_slashes s.
Proof.
  induction n as [|n IH]; [reflexivity|].
  cbn [repeat app Path.drop_slashes]. now rewrite N.eqb_refl.
Qed.

Lemma take_segment_app (a b : jsstring) :
  ~ In slash a -> Path.take_segment (a ++ slash :: b) = a.
Proof.
  induction a as [|x a IH]; cbn [app Path.take_segment]; intros Hno.
  - now rewrite N.eqb_refl.
  - destruct (N.eqb_spec x slash) as [->|Hx]; [exfalso; apply Hno; now left|].
    rewrite IH; [reflexivity|]. intros Hin. apply Hno. now right.
Qed.

(** The base name of [dir/name], with or without slashes after it. *)
Lemma basename_join (dir name : jsstring) (n : nat) :
  name <> [] -> ~ In slash name ->
  Path.basename (dir ++ slash :: name ++ repeat slash n) = name.
Proof.
  intros Hne Hno. unfold Path.basename.
  change (slash :: name ++ repeat slash n) with ([slash] ++ name ++ repeat slash n).
  rewrite !rev_app_distr, rev_repeat. cbn [rev app].
  rewrite <- !app_assoc, drop_slashes_run. cbn [app].
  assert (Hrev : ~ In slash (rev name)) by (intros H; apply Hno; now apply in_rev).
  destruct (rev name) as [|x r] eqn:Hr.
  - exfalso. apply Hne. rewrite <- (rev_involutive name), Hr. reflexivity.
  - cbn [app Path.drop_slashes].
    destruct (N.eqb_spec x slash) as [->|Hx]; [exfalso; apply Hrev; now left|].
    change (x :: r ++ slash :: rev dir) with ((x :: r) ++ slash :: rev dir).
    rewrite (take_segment_app _ _ Hrev), <- Hr. apply rev_involutive.
Qed.

Lemma findFolder_loop_none (baseName : jsstring) (folders : list WorkspaceFolder) :
  (forall f, In f folders -> Path.basename (fsPath (uri f)) <> baseName) ->
  forall n i, findFolder_loop baseName folders n i = None.
Proof.
  intros Hno. induction n as [|n IH]; intros i; cbn [findFolder_loop]; [reflexivity|].
  destruct (nth_error folders i) as [element|] eqn:Hi; [|reflexivity].
  apply nth_error_In in Hi.
  destruct (JsFacts.eqb_spec (Path.basename (fsPath (uri element))) baseName) as [Hb|_].
  - now apply Hno in Hi.
  - apply IH.
Qed.

Lemma findFolderInWorkspace_spec (baseName : jsstring)
    (folders : list WorkspaceFolder) :
  match findFolderInWorkspace baseName folders with
  | Some p =>
      exists k f, nth_error folders k = Some f /\ p = fsPath (uri f)
        /\ Path.basename (fsPath (uri f)) = baseName
        /\ (forall j f', j < k -> nth_error folders j = Some f' ->
              Path.basename (fsPath (uri f')) <> baseName)
  | None =>
      forall f, In f folders -> Path.basename (fsPath (uri f)) <> baseName
  end.
Proof.
  unfold findFolderInWorkspace.
  pose proof (findFolder_loop_spec baseName folders (List.length folders) 0
                (Nat.add_0_r _)) as H.
  destruct (findFolder_loop baseName folders (List.length folders) 0) as [p|].
  - destruct H as (k & f & _ & Hnth & Hp & Hbase & Hbefore).
    exists k, f. repeat split; auto.
    intros j f' Hj. apply Hbefore. lia.
  - intros f Hin. destruct (In_nth_error _ _ Hin) as [j Hj].
    apply (H j); [lia|exact Hj].
Qed.

(** What [findFolderInWorkspace] returns is the path of one of the
    folders, and has the base name asked for. *)
Lemma findFolderInWorkspace_sound (baseName : jsstring)
    (folders : list WorkspaceFolder) (p : jsstring) :
  findFolderInWorkspace baseName folders = Some p ->
  exists f, In f folders /\ p = fsPath (uri f) /\ Path.basename p = baseName.
Proof.
  unfold findFolderInWorkspace. intros H.
  pose proof (findFolder_loop_spec baseName folders (List.length folders) 0
                (Nat.add_0_r _)) as Hspec.
  rewrite H in Hspec. destruct Hspec as (k & f & _ & Hnth & -> & Hbase & _).
  exists f. repeat split; auto. now apply nth_error_In in Hnth.
Qed.

Lemma basename_nil : Path.basename [] = [].
Proof. reflexivity. Qed.

End FolderFacts.

Import FolderFacts.

(** X1: a base name that contains a slash is the base name of no path, so
    [findFolderInWorkspace] finds no folder for it, whatever the folders
    are. *)
Theorem findFolderInWorkspace_slash (baseName : jsstring)
    (folders : list WorkspaceFolder) :
  In slash baseName -> findFolderInWorkspace baseName folders = None.
Proof.
  intros Hslash. unfold findFolderInWorkspace. apply findFolder_loop_none.
  intros f _ Hb. apply (basename_no_slash (fsPath (uri f))). now rewrite Hb.
Qed.

(** [findFolderInWorkspace_slash] at work: two names in one. *)
Lemma findFolderInWorkspace_slash_witness :
  In slash (lit "dev/work")
  /\ findFolderInWorkspace (lit "dev/work") [tmp_folder; work_folder] = None.
Proof.
  assert (H : In slash (lit "dev/work")) by (vm_compute; tauto).
  split; [exact H|].
  exact (findFolderInWorkspace_slash (lit "dev/work") [tmp_folder; work_folder] H).
Defined.

(** X2: a folder whose path is [dir/name], followed by any number of
    slashes, is found under [name] (a name that is not empty and holds no
    slash), provided no folder before it has that base name. *)
Theorem findFolderInWorkspace_by_last_name (dir name : jsstring) (n : nat)
    (before after : list WorkspaceFolder) (f : WorkspaceFolder) :
  name <> [] -> ~ In slash name ->
  fsPath (uri f) = dir ++ slash :: name ++ repeat slash n ->
  (forall g, In g before -> Path.basename (fsPath (uri g)) <> name) ->
  findFolderInWorkspace name (before ++ f :: after) = Some (fsPath (uri f)).
Proof.
  intros Hne Hno Hpath Hbefore.
  pose proof (findFolderInWorkspace_spec name (before ++ f :: after)) as H.
  destruct (findFolderInWorkspace name (before ++ f :: after)) as [p|].
  - destruct H as (k & g & Hk & -> & Hbase & Hfirst).
    assert (Hf : nth_error (before ++ f :: after) (List.length before) = Some f).
    { rewrite nth_error_app2 by lia. now rewrite Nat.sub_diag. }
    destruct (Nat.lt_trichotomy k (List.length before)) as [Hlt|[->|Hgt]].
    + exfalso. rewrite nth_error_app1 in Hk by exact Hlt.
      apply nth_error_In in Hk. now apply (Hbefore g).
    + rewrite Hf in Hk. now injection Hk as <-.
    + exfalso. apply (Hfirst _ _ Hgt Hf). rewrite Hpath. now apply basename_join.
  - exfalso. apply (H f); [apply in_elt|]. rewrite Hpath. now apply basename_join.
Qed.

(** [findFolderInWorkspace_by_last_name] at work: a path that ends with
    a slash. *)
Lemma findFolderInWorkspace_by_last_name_witness :
  findFolderInWorkspace (lit "work") ([tmp_folder] ++ work_folder :: [])
  = Some (lit "/home/dev/work/").
Proof.
  apply (findFolderInWorkspace_by_last_name (lit "/home/dev") (lit "work") 1
           [tmp_folder] [] work_folder).
  - discriminate.
  - vm_compute. intuition discriminate.
  - reflexivity.
  - intros g [<-|[]]. vm_compute. discriminate.
Defined.

(** X3: whenever [getWorkspaceRoot] returns a path, it is the [fsPath] of
    one of the folders it was given and nothing has been shown or changed;
    with [multi] set, the path is not empty and its base name is the
    [baseName] it was called with, which is not empty. *)
Theorem getWorkspaceRoot_returns_a_folder (folders : list WorkspaceFolder)
    (multi : bool) (baseName : option jsstring) (w w' : world) (p : jsstring) :
  getWorkspaceRoot folders multi baseName w = (Ok (Some p), w') ->
  w' = w
  /\ (exists f, In f folders /\ p = fsPath (uri f))
  /\ (multi = true ->
      exists b, baseName = Some b /\ b <> [] /\ Path.basename p = b /\ p <> []).
Proof.
  unfold getWorkspaceRoot. destruct multi.
  - destruct baseName as [b|]; [|discriminate].
    destruct (JsFacts.eqb_spec b []) as [->|Hb]; [discriminate|].
    destruct (findFolderInWorkspace b folders) as [q|] eqn:Hfind.
    + destruct (findFolderInWorkspace_sound _ _ _ Hfind) as (f & Hin & Hq & Hbase).
      destruct (truthy q) eqn:Hq'.
      * intros H. injection H as <- <-.
        split; [reflexivity|]. split; [eauto|].
        intros _. exists b. repeat split; auto.
        intros ->. discriminate.
      * unfold io_bind, showErrorMessage, io_ret. discriminate.
    + unfold io_bind, showErrorMessage, io_ret. discriminate.
  - destruct folders as [|first rest]; cbn [nth_error]; [discriminate|].
    intros H. injection H as <- <-.
    split; [reflexivity|]. split; [|discriminate].
    exists first. split; [now left|reflexivity].
Qed.

(** [getWorkspaceRoot_returns_a_folder] at work: the second of two
    folders. *)
Lemma getWorkspaceRoot_returns_a_folder_witness :
  getWorkspaceRoot [tmp_folder; work_folder] true (Some (lit "work")) sample_world
  = (Ok (Some (lit "/home/dev/work/")), sample_world)
  /\ Path.basename (lit "/home/dev/work/") = lit "work".
Proof.
  assert (H : getWorkspaceRoot [tmp_folder; work_folder] true (Some (lit "work"))
                sample_world
              = (Ok (Some (lit "/home/dev/work/")), sample_world))
    by (vm_compute; reflexivity).
  split; [exact H|].
  destruct (getWorkspaceRoot_returns_a_folder _ _ _ _ _ _ H) as (_ & _ & Hmulti).
  destruct (Hmulti eq_refl) as (b & Hb & _ & Hbase & _).
  injection Hb as <-. exact Hbase.
Defined.

Lemma getWorkspaceRoot_multi_run (folders : list WorkspaceFolder)
    (baseName : option jsstring) (w : world) :
  getWorkspaceRoot folders true baseName w
  = match baseName with
    | None => (Ok None, w)
    | Some b =>
        if Js.eqb b [] then (Ok None, w)
        else match findFolderInWorkspace b folders with
             | Some p => (Ok (Some p), w)
             | None =>
                 (Ok None, {| disk := disk w;
                              calls := calls w;
                              shown := shown w ++ [not_found_message b] |})
             end
    end.
Proof.
  unfold getWorkspaceRoot. destruct baseName as [b|]; [|reflexivity].
  destruct (JsFacts.eqb_spec b []) as [->|Hb]; [reflexivity|].
  destruct (findFolderInWorkspace b folders) as [q|] eqn:Hfind; [|reflexivity].
  destruct (findFolderInWorkspace_sound _ _ _ Hfind) as (f & _ & _ & Hbase).
  destruct q as [|c q]; [|reflexivity].
  exfalso. apply Hb. now rewrite <- Hbase.
Qed.

(** X4: with [multi] set, [getWorkspaceRoot] never throws and never
    touches the disk.  Without a base name, or with the empty one, it
    returns [undefined] and shows nothing.  With a base name that some
    folder has, it returns the first such folder and shows nothing: the
    path found is never empty, so the test of [folderPath] cannot fail for
    a folder that was found.  Otherwise it shows the message that names
    the base name, and returns [undefined]. *)
Theorem getWorkspaceRoot_multi (folders : list WorkspaceFolder)
    (baseName : option jsstring) (w : world) :
  getWorkspaceRoot folders true baseName w
  = match baseName with
    | None => (Ok None, w)
    | Some b =>
        if Js.eqb b [] then (Ok None, w)
        else match findFolderInWorkspace b folders with
             | Some p => (Ok (Some p), w)
             | None =>
                 (Ok None, {| disk := disk w;
                              calls := calls w;
                              shown := shown w ++ [not_found_message b] |})
             end
    end.
Proof. apply getWorkspaceRoot_multi_run. Qed.

Import Disk DiskSpec DiskFacts NodeFacts Provision.

(** ** The runs of [createProjectFolder] that throw *)

(** X5: when the directory of the project cannot be made,
    [createProjectFolder] throws after two [fs] calls, the existence check
    and the [mkdirSync]: nothing is written, the disk is as it was and
    nothing is shown.  This is so when the root is a file (the error is
    [ENOTDIR]), and when the root is a directory in which the name is free
    but the file system refuses the new directory -- no permission, no
    room, a name that is too long: the error is the one the file system
    gives. *)
Theorem createProjectFolder_mkdir_failure root projectName javaVersion w e :
  let target := root ++ lit "/" ++ projectName in
  simple_name projectName = true ->
  (statSync (disk w) root = Ok KFile /\ e = ENOTDIR)
  \/ (statSync (disk w) root = Ok KDir
      /\ existsSync (disk w) target = false
      /\ exists T, Disk.target (disk w) target = Ok T /\ refuses (disk w) T = Some e) ->
  createProjectFolder root projectName javaVersion w
  = (Throw (FsError e),
     {| disk := disk w;
        calls := calls w ++ [ExistsSync target; MkdirSync target];
        shown := shown w |}).
Proof.
  intros target Hname Hcause.
  assert (H : existsSync (disk w) target = false
              /\ mkdirSync (disk w) target = Throw e).
  { destruct Hcause as [[Hfile ->]|(Hdir & Hex & T & HT & Hno)].
    - exact (mkdirSync_under_file _ _ _ Hfile Hname).
    - split; [exact Hex|].
      pose proof (mkdirSync_under_root _ _ _ _ Hdir Hname Hex HT) as Hmk.
      now rewrite Hno in Hmk. }
  destruct H as [Hex Hmk].
  rewrite (createProjectFolder_steps root projectName javaVersion w Hex).
  fold target. now rewrite Hmk.
Qed.

(** [createProjectFolder_mkdir_failure] at work: a name of 256 bytes, on
    a disk whose names hold 255. *)
Lemma createProjectFolder_mkdir_failure_witness :
  createProjectFolder (lit "/tmp") (repeat 97%N 256) (lit "JavaSE-10") sample_world
  = (Throw (FsError ENAMETOOLONG),
     {| disk := disk sample_world;
        calls := [ExistsSync (lit "/tmp/" ++ repeat 97%N 256);
                  MkdirSync (lit "/tmp/" ++ repeat 97%N 256)];
        shown := [] |}).
Proof.
  apply (createProjectFolder_mkdir_failure (lit "/tmp") (repeat 97%N 256)
           (lit "JavaSE-10") sample_world ENAMETOOLONG).
  - vm_compute. reflexivity.
  - right. split; [vm_compute; reflexivity|]. split; [vm_compute; reflexivity|].
    exists [lit "tmp"; repeat 97%N 256]. split; vm_compute; reflexivity.
Defined.

(** X6: no rollback.  Under a root that is a directory, for a single name
    that is not there yet, that the serializer refuses and that the file
    system lets be made, [createProjectFolder] makes the directory of the
    project, throws the serializer's error, and leaves the directory
    behind, empty: a second call finds it. *)
Theorem createProjectFolder_leaves_empty_folder root projectName javaVersion w T :
  let target := root ++ lit "/" ++ projectName in
  statSync (disk w) root = Ok KDir ->
  simple_name projectName = true ->
  illegal_match None projectName = true ->
  existsSync (disk w) target = false ->
  Disk.target (disk w) target = Ok T ->
  refuses (disk w) T = None ->
  exists st1,
    createProjectFolder root projectName javaVersion w
    = (Throw (XmlError (InvalidCharacter (elEscape projectName))),
       {| disk := st1;
          calls := calls w ++ [ExistsSync target; MkdirSync target];
          shown := shown w |})
    /\ mkdirSync (disk w) target = Ok st1
    /\ readdirSync st1 target = Ok []
    /\ existsSync st1 target = true.
Proof.
  intros target Hroot Hname Hbad Hex HT Hfree.
  pose proof (mkdirSync_under_root _ _ _ _ Hroot Hname Hex HT) as Hmk.
  rewrite Hfree in Hmk. destruct Hmk as (st1 & Hmk & (Hin & _)).
  change (root ++ slash :: projectName) with target in Hmk, Hin.
  exists st1. split; [|split; [exact Hmk|split]].
  - rewrite (createProjectFolder_steps root projectName javaVersion w Hex).
    fold target. rewrite Hmk, XmlFacts.createProjectFile_text, Hbad. reflexivity.
  - exact (readdirSync_in _ _ _ _ Hin).
  - unfold existsSync. now rewrite (statSync_in _ _ _ _ Hin).
Qed.

(** [createProjectFolder_leaves_empty_folder] at work: a name that is
    the code unit U+FFFF. *)
Lemma createProjectFolder_leaves_empty_folder_witness :
  illegal_match None [0xFFFF%N] = true
  /\ exists st1,
       createProjectFolder (lit "/tmp") [0xFFFF%N] (lit "JavaSE-10") sample_world
       = (Throw (XmlError (InvalidCharacter [0xFFFF%N])),
          {| disk := st1;
             calls := [ExistsSync (lit "/tmp/" ++ [0xFFFF%N]);
                       MkdirSync (lit "/tmp/" ++ [0xFFFF%N])];
             shown := [] |})
       /\ readdirSync st1 (lit "/tmp/" ++ [0xFFFF%N]) = Ok [].
Proof.
  assert (Hbad : illegal_match None [0xFFFF%N] = true) by (vm_compute; reflexivity).
  split; [exact Hbad|].
  destruct (createProjectFolder_leaves_empty_folder (lit "/tmp") [0xFFFF%N]
              (lit "JavaSE-10") sample_world [lit "tmp"; [0xEF; 0xBF; 0xBF]%N])
    as (st1 & Hrun & _ & Hdir & _);
    try (vm_compute; reflexivity).
  exists st1. split; [exact Hrun|exact Hdir].
Defined.

(** X7: the call returns whenever the way is free and the file system
    agrees.  When the root is a directory, the name is that of a single entry
    (not empty, not [.] or [..], without slash and without NUL) which the
    serializer accepts, nothing has that name under the root, and the file
    system refuses none of the five places the run makes (the project
    folder, [.project], [.classpath], [src] and [bin]), then
    [createProjectFolder] returns, shows no message, and the target exists
    afterwards. *)
Theorem createProjectFolder_returns root projectName javaVersion w T :
  statSync (disk w) root = Ok KDir ->
  simple_name projectName = true ->
  illegal_match None projectName = false ->
  existsSync (disk w) (root ++ lit "/" ++ projectName) = false ->
  target (disk w) (root ++ lit "/" ++ projectName) = Ok T ->
  permitted (disk w) (project_places T) ->
  exists w', createProjectFolder root projectName javaVersion w = (Ok tt, w')
             /\ shown w' = shown w
             /\ existsSync (disk w') (root ++ lit "/" ++ projectName) = true.
Proof.
  intros Hroot Hname Hlegal Hex HT Hperm.
  destruct (createProjectFolder_succeeds root projectName javaVersion w T
              Hroot Hname Hlegal Hex HT Hperm) as (st5 & Hrun & (Hin & _)).
  eexists. split; [exact Hrun|]. split; [reflexivity|].
  cbn [ran disk]. unfold existsSync. now rewrite (statSync_in _ _ _ _ Hin).
Qed.

(** [createProjectFolder_returns] at work: the call of the extension's
    test. *)
Lemma createProjectFolder_returns_witness :
  exists w', createProjectFolder (lit "/tmp") (lit "Test-Project") (lit "JavaSE-10")
               sample_world = (Ok tt, w')
             /\ shown w' = shown sample_world
             /\ existsSync (disk w') (lit "/tmp" ++ lit "/" ++ lit "Test-Project") = true.
Proof.
  apply (createProjectFolder_returns (lit "/tmp") (lit "Test-Project")
           (lit "JavaSE-10") sample_world [lit "tmp"; lit "Test-Project"]);
    try (vm_compute; reflexivity).
  intros q [<-|[<-|[<-|[<-|[<-|[]]]]]]; vm_compute; reflexivity.
Defined.

(** X8: whatever its outcome, [createProjectFolder] removes nothing and
    rewrites nothing: after the call every file that was on the disk is
    there with the text it had, every directory is still a directory, and
    the working directory is the same. *)
Theorem createProjectFolder_keeps_the_disk root projectName javaVersion w :
  cwd (disk (snd (createProjectFolder root projectName javaVersion w))) = cwd (disk w)
  /\ keeps (tree (disk w))
           (tree (disk (snd (createProjectFolder root projectName javaVersion w)))).
Proof. apply createProjectFolder_keeps. Qed.

(** X9: a run that finds nothing in the way and returns has made the
    place the target names, where nothing was, and has left every other
    place as it was: outside the target no file has appeared, gone or
    changed its text, and no directory has appeared or gone. *)
Theorem createProjectFolder_touches_only_target root projectName javaVersion w w' :
  let target := root ++ lit "/" ++ projectName in
  existsSync (disk w) target = false ->
  createProjectFolder root projectName javaVersion w = (Ok tt, w') ->
  exists D,
    Disk.target (disk w') target = Ok D
    /\ kind_at (tree (disk w)) D = None
    /\ forall q, strip_prefix D q = None ->
         item_at (tree (disk w')) q = item_at (tree (disk w)) q.
Proof.
  intros target Hex Hrun.
  destruct (createProjectFolder_success _ _ _ _ _ Hex Hrun)
    as (px & cx & D & st1 & st2 & st3 & st4 & st5
        & _ & _ & _ & _ & _ & _ & _ & -> & _ & (Hin & Hnew & _ & _ & _ & _ & Hout)).
  fold target in Hin. destruct Hin as (_ & _ & Ht & _).
  exists D. cbn [disk]. auto.
Qed.

(** [createProjectFolder_touches_only_target] at work: the call of the
    extension's test. *)
Lemma createProjectFolder_touches_only_target_witness :
  existsSync (disk sample_world) (lit "/tmp" ++ lit "/" ++ lit "Test-Project") = false
  /\ createProjectFolder (lit "/tmp") (lit "Test-Project") (lit "JavaSE-10") sample_world
     = (Ok tt, sample_project)
  /\ exists D,
       Disk.target (disk sample_project) (lit "/tmp" ++ lit "/" ++ lit "Test-Project")
       = Ok D
       /\ kind_at (tree (disk sample_world)) D = None.
Proof.
  assert (Hex : existsSync (disk sample_world)
                  (lit "/tmp" ++ lit "/" ++ lit "Test-Project") = false)
    by (vm_compute; reflexivity).
  split; [exact Hex|]. split; [exact sample_project_run|].
  destruct (createProjectFolder_touches_only_target (lit "/tmp") (lit "Test-Project")
              (lit "JavaSE-10") sample_world sample_project Hex sample_project_run)
    as (D & Ht & Hnew & _).
  exists D. split; assumption.
Defined.

(** ** What the builders write *)

Import Descriptors XmlFacts XmlReader ReaderFacts RoundTrip TextFacts.

(** X10: for every name that the serializer accepts,
    [createProjectFile] returns the text of the extension's test with the
    name written as element text, that is with [&], [<], [>] and carriage
    return replaced by [&amp;], [&lt;], [&gt;] and [&#xD;]; a name without
    these four stands in the text as it is; and for the empty name the
    element is written as [<name/>]. *)
Theorem createProjectFile_template (projectName : jsstring) :
  illegal_match None projectName = false ->
  createProjectFile projectName
  = Ok (match projectName with
        | [] => project_text (lit "  <name/>")
        | _ :: _ => expected_project (flat_map el_char projectName)
        end)
  /\ (projectName <> [] -> text_verbatim projectName = true ->
      createProjectFile projectName = Ok (expected_project projectName)).
Proof.
  intros Hlegal.
  assert (H : createProjectFile projectName
              = Ok (match projectName with
                    | [] => project_text (lit "  <name/>")
                    | _ :: _ => expected_project (elEscape projectName)
                    end)).
  { now rewrite createProjectFile_text, Hlegal. }
  split.
  - rewrite H. now rewrite <- elEscape_flat_map.
  - intros Hne Hv. rewrite H, (elEscape_verbatim _ Hv).
    destruct projectName; [congruence|reflexivity].
Qed.

(** [createProjectFile_template] at work: a name with an ampersand and
    angle brackets. *)
Lemma createProjectFile_template_witness :
  createProjectFile (lit "R&D <2>")
  = Ok (expected_project (lit "R&amp;D &lt;2&gt;")).
Proof.
  destruct (createProjectFile_template (lit "R&D <2>")) as (H & _).
  - vm_compute. reflexivity.
  - exact H.
Defined.

(** X11: for every Java version without [&], [<], double quote, tab, line
    feed and carriage return, [createClassPathFile] returns the text of the
    extension's test with that version in the place of [JavaSE-10]. *)
Theorem createClassPathFile_verbatim (javaVersion : jsstring) :
  value_verbatim javaVersion = true ->
  createClassPathFile javaVersion = Ok (expected_classpath javaVersion).
Proof.
  intros Hv. now rewrite createClassPathFile_text, (attEscape_verbatim _ Hv).
Qed.

(** [createClassPathFile_verbatim] at work: another version. *)
Lemma createClassPathFile_verbatim_witness :
  createClassPathFile (lit "JavaSE-1.8") = Ok (expected_classpath (lit "JavaSE-1.8")).
Proof.
  apply (createClassPathFile_verbatim (lit "JavaSE-1.8")). vm_compute. reflexivity.
Defined.

(** X12: a value cannot bring markup of its own.  For every string of XML
    characters, what [createProjectFile] writes reads back as the project
    description of the extension's test with the string as the text of
    [name] and nothing else changed, and what [createClassPathFile] writes
    reads back as the class path of the test with the container path
    followed by the string as the first [path] and nothing else changed. *)
Theorem descriptors_read_back_whole (value : jsstring) :
  chars_ok value = true ->
  (exists text, createProjectFile value = Ok text
                /\ parse text = Some (project_document value))
  /\ (exists text, createClassPathFile value = Ok text
                   /\ parse text = Some (classpath_document (jre_container ++ value))).
Proof.
  intros Hok. split.
  - rewrite createProjectFile_text, (chars_ok_legal _ Hok None eq_refl).
    destruct value as [|c s].
    + eexists. split; [reflexivity|]. vm_compute. reflexivity.
    + eexists. split; [reflexivity|].
      rewrite (parse_project_text _ Hok).
      apply read_project_whole. apply decode_elEscape.
  - rewrite createClassPathFile_text. eexists. split; [reflexivity|].
    rewrite (parse_classpath_text _ Hok).
    apply read_classpath_whole. apply decode_attEscape.
Qed.

(** [descriptors_read_back_whole] at work: a name that looks like
    markup. *)
Lemma descriptors_read_back_whole_witness :
  chars_ok (litq "</name><x a='1'/>") = true
  /\ exists text, createProjectFile (litq "</name><x a='1'/>") = Ok text
                  /\ parse text = Some (project_document (litq "</name><x a='1'/>")).
Proof.
  assert (H : chars_ok (litq "</name><x a='1'/>") = true) by (vm_compute; reflexivity).
  split; [exact H|].
  exact (proj1 (descriptors_read_back_whole (litq "</name><x a='1'/>") H)).
Defined.

(** X13: both builders tell their arguments apart: two project names with
    the same result of [createProjectFile] are the same name, two Java
    versions with the same result of [createClassPathFile] are the same
    version; the escapes lose nothing, also outside the XML characters. *)
Theorem builders_injective (a b : jsstring) :
  (createProjectFile a = createProjectFile b -> a = b)
  /\ (createClassPathFile a = createClassPathFile b -> a = b).
Proof.
  split.
  - rewrite !createProjectFile_text.
    destruct (illegal_match None a), (illegal_match None b); try discriminate.
    + intros H. injection H as H. now apply elEscape_injective.
    + intros H. apply Ok_injective in H.
      destruct a as [|ca a], b as [|cb b]; try reflexivity.
      * exfalso. now apply (empty_name_text_differs _ H).
      * exfalso. symmetry in H. now apply (empty_name_text_differs _ H).
      * apply elEscape_injective. now apply expected_project_injective.
  - rewrite !createClassPathFile_text. intros H. apply Ok_injective in H.
    apply attEscape_injective. now apply expected_classpath_injective.
Qed.

(** ** The command *)
Module CommandFacts.
Import FolderFacts.

Lemma prompt_run (box : InputBoxOptions) (d : desktop) :
  try_or_undefined (showInputBox box) d = (Ok (reply box (pending d)), after_box box d).
Proof.
  unfold try_or_undefined, showInputBox, reply, after_box.
  destruct (pending d) as [|[] ?]; reflexivity.
Qed.

Lemma with_site_same (d : desktop) : with_site (site d) d = d.
Proof. destruct d; reflexivity. Qed.

Lemma command_with_root_run (root : jsstring) (d : desktop) :
  command_with_root (Some root) d
  = (Ok tt,
     with_site
       (match entered java_version_box (tl (pending d)) with
        | None => with_message invalid_java_message (site d)
        | Some version =>
            match entered project_name_box (pending d) with
            | Some name => snd (createProjectFolder root name version (site d))
            | None => site d
            end
        end)
       (after_box java_version_box (after_box project_name_box d))).
Proof.
  unfold command_with_root, ui_bind, promptForProjectName, promptForJavaVersion.
  rewrite !prompt_run. cbn [after_box pending]. unfold entered.
  destruct (reply java_version_box (tl (pending d))) as [[|c v]|];
    cbn [Js.eqb]; try reflexivity.
  destruct (reply project_name_box (pending d)) as [[|c' n]|];
    cbn [truthy]; reflexivity.
Qed.

Lemma command_single (ws : workspace) (f : WorkspaceFolder) (d : desktop) :
  workspaceFolders ws = Some [f] ->
  command ws d = command_with_root (Some (fsPath (uri f))) d.
Proof.
  intros H. unfold command. rewrite H. destruct d. reflexivity.
Qed.

Lemma command_rootPath (ws : workspace) (root : jsstring) (d : desktop) :
  workspaceFolders ws = None -> rootPath ws = Some root -> root <> [] ->
  command ws d = command_with_root (Some root) d.
Proof.
  intros H1 H2 H3. unfold command. rewrite H1, H2.
  destruct root; [congruence|reflexivity].
Qed.

Lemma command_single_root (ws : workspace) (root : jsstring) (d : desktop) :
  single_root ws root -> command ws d = command_with_root (Some root) d.
Proof.
  intros [(f & H & ->)|(H1 & H2 & H3)].
  - now apply command_single.
  - now apply command_rootPath.
Qed.

Lemma command_no_root (ws : workspace) (d : desktop) :
  workspaceFolders ws = None ->
  rootPath ws = None \/ rootPath ws = Some [] ->
  command ws d = (Ok tt, with_site (with_message no_folders_message (site d)) d).
Proof.
  intros H1 [H2|H2]; unfold command; rewrite H1, H2; reflexivity.
Qed.

Lemma command_empty (ws : workspace) (d : desktop) :
  workspaceFolders ws = Some [] -> command ws d = (Throw (Raised TypeError), d).
Proof.
  intros H. unfold command. rewrite H. destruct d. reflexivity.
Qed.

Lemma command_several (ws : workspace) (folders : list WorkspaceFolder) (d : desktop) :
  workspaceFolders ws = Some folders -> 1 < List.length folders ->
  command ws d
  = match entered folder_box (pending d) with
    | None => (Ok tt, after_box folder_box d)
    | Some b =>
        match findFolderInWorkspace b folders with
        | Some p => command_with_root (Some p) (after_box folder_box d)
        | None =>
            (Ok tt, with_site (with_message (not_found_message b) (site d))
                      (after_box folder_box d))
        end
    end.
Proof.
  intros H Hlen. unfold command. rewrite H.
  apply Nat.ltb_lt in Hlen. rewrite Hlen.
  unfold ui_bind at 1, promptForFolder. rewrite prompt_run.
  unfold ui_bind, await. rewrite getWorkspaceRoot_multi_run.
  unfold entered.
  destruct (reply folder_box (pending d)) as [[|c b]|]; cbn [Js.eqb];
    try (cbn [command_with_root ui_ret]; now rewrite with_site_same).
  change (Js.eqb (c :: b) []) with false. cbv iota.
  destruct (findFolderInWorkspace (c :: b) folders) as [p|].
  - now rewrite with_site_same.
  - reflexivity.
Qed.

(** Whatever the answers, [command_with_root] leaves the world as it was,
    or as it was with one more message, or as one call of
    [createProjectFolder] leaves it. *)
Lemma command_with_root_site (root : jsstring) (d : desktop) :
  let w' := site (snd (command_with_root (Some root) d)) in
  (disk w' = disk (site d) /\ calls w' = calls (site d))
  \/ (exists name version,
        name <> [] /\ version <> []
        /\ w' = snd (createProjectFolder root name version (site d))).
Proof.
  rewrite command_with_root_run. cbn [snd with_site site]. unfold entered.
  destruct (reply java_version_box (tl (pending d))) as [[|c v]|];
    try (left; split; reflexivity).
  destruct (reply project_name_box (pending d)) as [[|c' n]|];
    try (left; split; reflexivity).
  right. exists (c' :: n), (c :: v). repeat split; discriminate.
Qed.

Lemma command_site (ws : workspace) (d : desktop) :
  let w' := site (snd (command ws d)) in
  (disk w' = disk (site d) /\ calls w' = calls (site d))
  \/ (exists root name version,
        opened ws root /\ name <> [] /\ version <> []
        /\ w' = snd (createProjectFolder root name version (site d))).
Proof.
  destruct (workspaceFolders ws) as [[|f [|g rest]]|] eqn:Hf.
  - rewrite (command_empty _ _ Hf). left. split; reflexivity.
  - rewrite (command_single _ _ _ Hf).
    destruct (command_with_root_site (fsPath (uri f)) d) as [H|(n & v & Hn & Hv & H)];
      [left; exact H|right].
    exists (fsPath (uri f)), n, v. repeat split; auto.
    unfold opened. rewrite Hf. exists f. split; [now left|reflexivity].
  - rewrite (command_several _ _ _ Hf) by (cbn [List.length]; lia).
    destruct (entered folder_box (pending d)) as [b|]; [|left; split; reflexivity].
    destruct (findFolderInWorkspace b (f :: g :: rest)) as [p|] eqn:Hfind;
      [|left; split; reflexivity].
    destruct (findFolderInWorkspace_sound _ _ _ Hfind) as (h & Hin & Hp & _).
    destruct (command_with_root_site p (after_box folder_box d))
      as [H|(n & v & Hn & Hv & H)]; [left; exact H|right].
    exists p, n, v. repeat split; auto.
    unfold opened. rewrite Hf. eauto.
  - destruct (rootPath ws) as [[|c r]|] eqn:Hr.
    + rewrite (command_no_root _ _ Hf) by auto. left. split; reflexivity.
    + rewrite (command_rootPath _ (c :: r) _ Hf Hr) by discriminate.
      destruct (command_with_root_site (c :: r) d) as [H|(n & v & Hn & Hv & H)];
        [left; exact H|right].
      exists (c :: r), n, v. repeat split; auto.
      unfold opened. now rewrite Hf.
    + rewrite (command_no_root _ _ Hf) by auto. left. split; reflexivity.
Qed.

End CommandFacts.

Import FolderFacts CommandFacts.
Import Disk DiskSpec DiskFacts NodeFacts Provision.

(** X15: [command] returns whatever happens behind it: a rejected input
    box counts as no answer, and what [createProjectFolder] throws -- a
    failed [fs] call, a name the serializer refuses -- is lost with the
    promise nobody awaits.  The one thing [command] throws is the type
    error of [folders[0].uri] when the list of workspace folders is there
    but empty. *)
Theorem command_outcome (ws : workspace) (d : desktop) :
  fst (command ws d)
  = match workspaceFolders ws with
    | Some [] => Throw (Raised TypeError)
    | _ => Ok tt
    end.
Proof.
  destruct (workspaceFolders ws) as [[|f [|g rest]]|] eqn:Hf.
  - now rewrite (command_empty _ _ Hf).
  - now rewrite (command_single _ _ _ Hf), command_with_root_run.
  - rewrite (command_several _ _ _ Hf) by (cbn [List.length]; lia).
    destruct (entered folder_box (pending d)) as [b|]; [|reflexivity].
    destruct (findFolderInWorkspace b (f :: g :: rest)) as [p|]; [|reflexivity].
    now rewrite command_with_root_run.
  - destruct (rootPath ws) as [[|c r]|] eqn:Hr.
    + now rewrite (command_no_root _ _ Hf) by auto.
    + now rewrite (command_rootPath _ (c :: r) _ Hf Hr), command_with_root_run
        by discriminate.
    + now rewrite (command_no_root _ _ Hf) by auto.
Qed.

(** X16: with one folder open, or with a root path and no folder list,
    [command] shows no folder box and always shows two boxes, the one for
    the project name and then the one for the Java version, whatever the
    first answer was.  The version is looked at first: without one
    (dismissed, rejected, or empty) the message [Invalid Java Version.] is
    shown and nothing is created, also when a name was given.  With a
    version and a name, [createProjectFolder] is called once with the root,
    the name and the version; with a version and no name, nothing happens
    and nothing is shown. *)
Theorem command_asks_name_then_version (ws : workspace) (root : jsstring)
    (d : desktop) :
  single_root ws root ->
  command ws d
  = (Ok tt,
     {| pending := tl (tl (pending d));
        asked := (asked d ++ [project_name_box]) ++ [java_version_box];
        site :=
          match entered java_version_box (tl (pending d)) with
          | None => with_message invalid_java_message (site d)
          | Some version =>
              match entered project_name_box (pending d) with
              | Some name => snd (createProjectFolder root name version (site d))
              | None => site d
              end
          end |}).
Proof.
  intros H. rewrite (command_single_root _ _ _ H), command_with_root_run.
  reflexivity.
Qed.

(** [command_asks_name_then_version] at work: a name typed, the version
    box dismissed. *)
Lemma command_asks_name_then_version_witness :
  command single_workspace (sample_desktop [Typed (lit "Test-Project"); Dismissed])
  = (Ok tt,
     {| pending := [];
        asked := [project_name_box; java_version_box];
        site := with_message invalid_java_message sample_world |}).
Proof.
  rewrite (command_asks_name_then_version single_workspace (lit "/tmp")
             (sample_desktop [Typed (lit "Test-Project"); Dismissed])).
  - reflexivity.
  - left. exists tmp_folder. split; reflexivity.
Defined.

(** X17: with several folders open, [command] first shows the folder
    box.  Without an answer, or with the empty one, that is all it does.
    With a name that no folder has as the last name of its path, it shows
    the message that names it, and asks nothing more.  With the name of a
    folder, it goes on as for a single root with the first such folder. *)
Theorem command_several_folders (ws : workspace) (folders : list WorkspaceFolder)
    (d : desktop) :
  workspaceFolders ws = Some folders ->
  1 < List.length folders ->
  command ws d
  = match entered folder_box (pending d) with
    | None => (Ok tt, after_box folder_box d)
    | Some b =>
        match findFolderInWorkspace b folders with
        | Some p => command_with_root (Some p) (after_box folder_box d)
        | None =>
            (Ok tt, with_site (with_message (not_found_message b) (site d))
                      (after_box folder_box d))
        end
    end.
Proof. apply command_several. Qed.

(** [command_several_folders] at work: the full path of a folder is not
    its name. *)
Lemma command_several_folders_witness :
  command two_folders (sample_desktop [Typed (lit "/tmp"); Typed (lit "P"); Confirmed])
  = (Ok tt,
     {| pending := [Typed (lit "P"); Confirmed];
        asked := [folder_box];
        site := with_message (not_found_message (lit "/tmp")) sample_world |}).
Proof.
  rewrite (command_several_folders two_folders [tmp_folder; work_folder]
             (sample_desktop [Typed (lit "/tmp"); Typed (lit "P"); Confirmed])).
  - vm_compute. reflexivity.
  - reflexivity.
  - cbn [List.length]. lia.
Defined.

(** X18: [command] reaches the disk through [createProjectFolder] only.
    Whatever the workspace and the answers, either the disk and the list of
    [fs] calls are as before, or the world is the one that a single call of
    [createProjectFolder] leaves, with a root that is the path of a
    workspace folder (or the root path, without a folder list), a name that
    is not empty and a version that is not empty. *)
Theorem command_through_createProjectFolder (ws : workspace) (d : desktop) :
  let w' := site (snd (command ws d)) in
  (disk w' = disk (site d) /\ calls w' = calls (site d))
  \/ (exists root name version,
        opened ws root /\ name <> [] /\ version <> []
        /\ w' = snd (createProjectFolder root name version (site d))).
Proof. apply command_site. Qed.

(** X19: [command] removes nothing and rewrites nothing: whatever the
    workspace and the answers, after it every file that was on the disk is
    there with the text it had, every directory is still a directory, and
    the working directory is the same. *)
Theorem command_keeps_the_disk (ws : workspace) (d : desktop) :
  cwd (disk (site (snd (command ws d)))) = cwd (disk (site d))
  /\ keeps (tree (disk (site d))) (tree (disk (site (snd (command ws d))))).
Proof.
  destruct (command_site ws d) as [(Hd & _)|(root & n & v & _ & _ & _ & H)].
  - rewrite Hd. split; [reflexivity|apply keeps_refl].
  - rewrite H. apply createProjectFolder_keeps.
Qed.

(** X20: the whole path, for one root.  When the user types a project
    name and confirms the version box as it is shown, the root is a
    directory in which nothing has that name, the name is that of a single
    entry which the serializer accepts, and the file system refuses none of
    the five places, then [command] returns, shows no message, and leaves
    [root/name] with its four entries (in the order the directory gives
    them), a [.classpath] which holds the bytes of the text of the
    extension's test for [JavaSE-10], and a [.project] which holds the bytes
    of the text of the test with the name, escaped, in the place of the name
    of the test. *)
Theorem command_creates_default_project (ws : workspace) (root name : jsstring)
    (rest : list answer) (d : desktop) (T : list Utf8.bytes) :
  single_root ws root ->
  pending d = Typed name :: Confirmed :: rest ->
  statSync (disk (site d)) root = Ok KDir ->
  simple_name name = true ->
  illegal_match None name = false ->
  existsSync (disk (site d)) (root ++ lit "/" ++ name) = false ->
  Disk.target (disk (site d)) (root ++ lit "/" ++ name) = Ok T ->
  permitted (disk (site d)) (project_places T) ->
  let target := root ++ lit "/" ++ name in
  let d' := snd (command ws d) in
  fst (command ws d) = Ok tt
  /\ pending d' = rest
  /\ asked d' = asked d ++ [project_name_box; java_version_box]
  /\ shown (site d') = shown (site d)
  /\ (exists names,
        readdirSync (disk (site d')) target = Ok names
        /\ Permutation names [lit ".project"; lit ".classpath"; lit "src"; lit "bin"])
  /\ readFileSync (disk (site d')) (target ++ lit "/.project")
     = Ok (Utf8.encode (expected_project (elEscape name)))
  /\ readFileSync (disk (site d')) (target ++ lit "/.classpath")
     = Ok (Utf8.encode (expected_classpath (lit "JavaSE-10"))).
Proof.
  intros Hroot Hp Hstat Hname Hlegal Hex HT Hperm target d'.
  assert (Hne : exists c s, name = c :: s).
  { destruct name as [|c s]; [discriminate|eauto]. }
  destruct Hne as (c & s & Hcs).
  destruct (createProjectFolder_succeeds root name (lit "JavaSE-10") (site d) T
              Hstat Hname Hlegal Hex HT Hperm) as (st5 & Hrun & (Hin & _)).
  fold target in Hrun, Hin.
  assert (Hd' : command ws d
                = (Ok tt, {| pending := rest;
                             asked := (asked d ++ [project_name_box]) ++ [java_version_box];
                             site := ran (site d)
                                       (provision_calls target
                                          (expected_project (elEscape name))
                                          (expected_classpath (attEscape (lit "JavaSE-10"))))
                                       st5 |})).
  { rewrite (command_single_root _ _ _ Hroot), command_with_root_run, Hp.
    subst name. cbn [tl entered reply value java_version_box project_name_box].
    change (match lit "JavaSE-10" with [] => None | c0 :: s0 => Some (c0 :: s0) end)
      with (Some (lit "JavaSE-10")).
    cbv iota. rewrite Hrun. unfold with_site, after_box. cbn [pending asked site snd].
    now rewrite Hp. }
  subst d'. rewrite Hd'. cbn [fst snd pending asked site ran disk shown].
  split; [reflexivity|]. split; [reflexivity|].
  split; [now rewrite <- app_assoc|]. split; [reflexivity|].
  split.
  { eexists. split; [exact (readdirSync_in _ _ _ _ Hin)|]. apply sort_by_perm. }
  split.
  - exact (readFileSync_child _ _ _ _ (lit ".project") _ Hin eq_refl eq_refl).
  - exact (readFileSync_child _ _ _ _ (lit ".classpath") _ Hin eq_refl eq_refl).
Qed.

(** [command_creates_default_project] at work: the project of the
    extension's test, from the command. *)
Lemma command_creates_default_project_witness :
  site (snd (command single_workspace
               (sample_desktop [Typed (lit "Test-Project"); Confirmed])))
  = sample_project
  /\ readFileSync (disk sample_project) (lit "/tmp/Test-Project/.classpath")
     = Ok (Utf8.encode (expected_classpath (lit "JavaSE-10"))).
Proof.
  split; [vm_compute; reflexivity|].
  assert (E : site (snd (command single_workspace
                 (sample_desktop [Typed (lit "Test-Project"); Confirmed])))
              = sample_project) by (vm_compute; reflexivity).
  rewrite <- E.
  refine (proj2 (proj2 (proj2 (proj2 (proj2 (proj2
    (command_creates_default_project single_workspace (lit "/tmp") (lit "Test-Project")
       [] (sample_desktop [Typed (lit "Test-Project"); Confirmed])
       [lit "tmp"; lit "Test-Project"]
       _ eq_refl _ _ _ _ _ _))))))).
  - left. exists tmp_folder. split; reflexivity.
  - vm_compute. reflexivity.
  - vm_compute. reflexivity.
  - vm_compute. reflexivity.
  - vm_compute. reflexivity.
  - vm_compute. reflexivity.
  - intros q [<-|[<-|[<-|[<-|[<-|[]]]]]]; vm_compute; reflexivity.
Defined.
